(** * A shallow embedding of the PostgreSQL query builder

  The development follows the TypeScript builder (class [Postgres] and
  class [TableQuery]): the condition model, the rendering of the final
  SQL text, the guarded terminal operations [insert], [update] and
  [delete], the execution layer [#get_response] and the raw entry point
  [Postgres.query].  The older JavaScript builder, where it differs in a
  way that matters below, lives in module [Legacy].

  Conventions of the embedding:
  - a JavaScript string is a [string]; the builder only concatenates
    strings, compares them and tests them for emptiness, and [trim] and
    [toUpperCase] are given on the 8-bit range;
  - a JavaScript number is an integer or [NaN] (module [Js]); fractions,
    infinities and integers beyond the exactly representable range are
    outside the embedding;
  - the driver ([pg]) is a parameter: a transition function on an
    abstract server state. *)

From Stdlib Require Import String Ascii List ZArith Lia Bool DecimalString.
Import ListNotations.
Open Scope string_scope.

(** ** JavaScript values and the conversions the builder relies on *)

Module Js.

(** [number]: integers and [NaN].  [Int z] stands for the double of
    value [z]; every safe integer (see [isSafeInteger] below) is one. *)
Inductive number : Type :=
| NaN
| Int (z : Z).

(** [Number.isSafeInteger(z)]: the integers between [-(2^53 - 1)] and
    [2^53 - 1], which doubles hold exactly. *)
Definition isSafeInteger (z : Z) : bool :=
  (Z.abs z <=? 9007199254740991)%Z.

(** [value]: what a caller can hand to the builder as [any].  The
    property list of [VObj] is kept in the order [Object.keys] reports. *)
#[warnings="-register-all"]
Inductive value : Type :=
| VUndefined
| VNull
| VBool (b : bool)
| VNum (n : number)
| VStr (s : string)
| VArr (items : list value)
| VObj (props : list (string * value)).

(** [typeof v]. *)
Definition typeof (v : value) : string :=
  match v with
  | VUndefined => "undefined"
  | VNull => "object"
  | VBool _ => "boolean"
  | VNum _ => "number"
  | VStr _ => "string"
  | VArr _ => "object"
  | VObj _ => "object"
  end.

(** [Array.isArray(v)]. *)
Definition isArray (v : value) : bool :=
  match v with VArr _ => true | _ => false end.

(** [String(n)] for a number: all the digits of the integer, which is
    what JavaScript prints for a safe integer (from [1e21] upwards it
    prints an exponent). *)
Definition num_toString (n : number) : string :=
  match n with
  | NaN => "NaN"
  | Int z => NilZero.string_of_int (Z.to_int z)
  end.

(** [String(v)], the conversion a template literal applies.  Inside an
    array, [null] and [undefined] elements print as the empty string. *)
Fixpoint toString (v : value) : string :=
  match v with
  | VUndefined => "undefined"
  | VNull => "null"
  | VBool true => "true"
  | VBool false => "false"
  | VNum n => num_toString n
  | VStr s => s
  | VArr items =>
      String.concat ","
        (map (fun x => match x with
                       | VUndefined | VNull => ""
                       | _ => toString x
                       end) items)
  | VObj _ => "[object Object]"
  end.

(** The text an array element contributes to [Array.prototype.join]. *)
Definition join_item (v : value) : string :=
  match v with
  | VUndefined | VNull => ""
  | _ => toString v
  end.

(** [items.join(sep)]. *)
Definition join (sep : string) (items : list value) : string :=
  String.concat sep (map join_item items).

(** [a - b] and [a * b] on numbers.  The results are those of the
    integers: they are the doubles' as long as they are safe integers,
    beyond which a double rounds.  Statements that compute a product
    assume its arguments and its result safe. *)
Definition sub (a b : number) : number :=
  match a, b with
  | Int x, Int y => Int (x - y)
  | _, _ => NaN
  end.

Definition mul (a b : number) : number :=
  match a, b with
  | Int x, Int y => Int (x * y)
  | _, _ => NaN
  end.

(** [Number.isNaN(n)]. *)
Definition isNaN (n : number) : bool :=
  match n with NaN => true | Int _ => false end.

(** Truthiness of a [number | null] field. *)
Definition truthy_num (n : option number) : bool :=
  match n with
  | Some (Int z) => negb (z =? 0)%Z
  | Some NaN => false
  | None => false
  end.

(** The code units [String.prototype.trim] removes. *)
Definition is_space (c : ascii) : bool :=
  let n := nat_of_ascii c in
  (((9 <=? n) && (n <=? 13)) || (n =? 32) || (n =? 160))%nat.

Fixpoint trimStart (s : string) : string :=
  match s with
  | EmptyString => EmptyString
  | String c rest => if is_space c then trimStart rest else s
  end.

Fixpoint trimEnd (s : string) : string :=
  match s with
  | EmptyString => EmptyString
  | String c rest =>
      match trimEnd rest with
      | EmptyString => if is_space c then EmptyString else String c EmptyString
      | kept => String c kept
      end
  end.

Definition trim (s : string) : string := trimEnd (trimStart s).

(** [s.split(sep)] for a one-character separator. *)
Fixpoint split (sep : ascii) (s : string) : list string :=
  match s with
  | EmptyString => [EmptyString]
  | String c rest =>
      if Ascii.eqb c sep then EmptyString :: split sep rest
      else match split sep rest with
           | piece :: pieces => String c piece :: pieces
           | [] => [String c EmptyString]
           end
  end.

(** [s.startsWith(p)]. *)
Definition startsWith (s p : string) : bool := String.prefix p s.

(** [s.toUpperCase()] on the ASCII letters. *)
Definition upper_char (c : ascii) : ascii :=
  let n := nat_of_ascii c in
  if ((97 <=? n) && (n <=? 122))%nat then ascii_of_nat (n - 32) else c.

Fixpoint toUpperCase (s : string) : string :=
  match s with
  | EmptyString => EmptyString
  | String c rest => String (upper_char c) (toUpperCase rest)
  end.

(** Dropping the first [n] code units. *)
Fixpoint drop (n : nat) (s : string) : string :=
  match n, s with
  | O, _ => s
  | S k, EmptyString => EmptyString
  | S k, String _ rest => drop k rest
  end.

(** [Object.keys(v)] and [Object.values(v)] for an object or an array;
    [None] stands for the [TypeError] on [null] and [undefined]. *)
Definition index_keys (items : list value) : list string :=
  map (fun i => NilZero.string_of_uint (Nat.to_uint i)) (seq 0 (List.length items)).

Definition keys (v : value) : option (list string) :=
  match v with
  | VObj props => Some (map fst props)
  | VArr items => Some (index_keys items)
  | VStr s => Some (index_keys (map (fun _ => VUndefined) (list_ascii_of_string s)))
  | VUndefined | VNull => None
  | _ => Some []
  end.

Definition values (v : value) : option (list value) :=
  match v with
  | VObj props => Some (map snd props)
  | VArr items => Some items
  | VStr s => Some (map (fun c => VStr (String c EmptyString)) (list_ascii_of_string s))
  | VUndefined | VNull => None
  | _ => Some []
  end.

(** [v[key]] for an own property of a plain object. *)
Fixpoint lookup (key : string) (props : list (string * value)) : value :=
  match props with
  | [] => VUndefined
  | (k, x) :: rest => if String.eqb k key then x else lookup key rest
  end.

End Js.

(** The double-quote character, for quoted identifiers. *)
Definition dq : string := String (ascii_of_nat 34) EmptyString.

(** ** The driver interface and the errors a call can raise *)

Module Pg.

(** What [new Pool({...})] is given; an unset environment variable is
    [None]. *)
Record Pool : Type := {
  host : option string;
  user : option string;
  password : option string;
  database : option string;
  port : Js.number
}.

(** A rejection reported by the driver: its [code] and [message]. *)
Record DriverError : Type := {
  code : option string;
  message : string
}.

(** [result.rows]. *)
Definition Rows : Type := list Js.value.

End Pg.

(** Every [throw] of the two classes, one constructor per site; [Rejected]
    is a rejection coming from [pg], [TypeError] one raised by the engine
    itself. *)
Inductive error : Type :=
| QueryNotString
| PoolUnavailable
| InvalidDirection (direction : string)
| InsertNotArray
| InsertNotObjects
| InsertFailed (inner : string)
| UpdateNotObject
| UpdateMissingWhere
| DeleteMissingWhere
| NoConnection
| TypeError
| Rejected (e : Pg.DriverError).

(** [error.message]; the text of a [TypeError] is the engine's own, a
    fixed word stands for it. *)
Definition error_message (e : error) : string :=
  match e with
  | QueryNotString => "The SQL query must be a string."
  | PoolUnavailable => "Database connection pool is not available."
  | InvalidDirection d => "Invalid direction: " ++ d ++ ". Use 'ASC' or 'DESC'."
  | InsertNotArray =>
      "El método insert requiere un array de objetos con pares clave-valor."
  | InsertNotObjects => "El array debe contener solo objetos válidos."
  | InsertFailed inner => "Error al insertar los datos: " ++ inner
  | UpdateNotObject =>
      "El método update requiere un objeto con pares clave-valor."
  | UpdateMissingWhere =>
      "Debe especificar al menos una condición WHERE para realizar un update."
  | DeleteMissingWhere =>
      "Debe especificar al menos una condición WHERE para realizar un delete."
  | NoConnection => "No se ha establecido una conexión a la base de datos."
  | TypeError => "TypeError"
  | Rejected e => Pg.message e
  end.

(** A call that may throw. *)
Definition result (A : Type) : Type := (error + A)%type.

Definition ok {A : Type} (a : A) : result A := inr a.
Definition throw {A : Type} (e : error) : result A := inl e.

Definition rbind {A B : Type} (r : result A) (k : A -> result B) : result B :=
  match r with
  | inl e => inl e
  | inr a => k a
  end.

(** [items.map((x, index) => f(index, x))] for a callback that may throw:
    elements are visited from index [index] upwards and the first throw
    ends the traversal. *)
Fixpoint map_index {A B : Type} (f : nat -> A -> result B) (index : nat)
  (items : list A) : result (list B) :=
  match items with
  | [] => ok []
  | x :: rest =>
      rbind (f index x) (fun y =>
      rbind (map_index f (S index) rest) (fun ys => ok (y :: ys)))
  end.

(** ** The condition model *)

Module Condition.

(** [interface Condition]; an absent optional field is [None]
    ([VUndefined] for [value]). *)
Record t : Type := {
  column : option string;
  operator : option string;
  value : Js.value;
  query : option string;
  type : string;
  isGroup : bool
}.

End Condition.

Module OrderBy.

Record t : Type := {
  column : string;
  direction : string
}.

End OrderBy.

(** What a template literal prints for an optional string field. *)
Definition tpl (field : option string) : string :=
  match field with
  | Some s => s
  | None => "undefined"
  end.

(** [typeof v === 'string' ? `'${v}'` : v]. *)
Definition quote (v : Js.value) : Js.value :=
  match v with
  | Js.VStr s => Js.VStr ("'" ++ s ++ "'")
  | _ => v
  end.

(** [const [value1, value2] = v]: arrays and strings are iterable, and a
    missing position is [undefined]; anything else is a [TypeError]. *)
Definition destructure2 (v : Js.value) : result (Js.value * Js.value) :=
  match v with
  | Js.VArr items => ok (nth 0 items Js.VUndefined, nth 1 items Js.VUndefined)
  | Js.VStr s =>
      let chars := map (fun c => Js.VStr (String c EmptyString))
                       (list_ascii_of_string s) in
      ok (nth 0 chars Js.VUndefined, nth 1 chars Js.VUndefined)
  | _ => throw TypeError
  end.

(** [cond.operator === name]. *)
Definition operator_is (cond : Condition.t) (name : string) : bool :=
  match Condition.operator cond with
  | Some op => String.eqb op name
  | None => false
  end.

(** The predicate text of a leaf node: the [conditionStr] of
    [buildConditions]. *)
Definition conditionStr (cond : Condition.t) : result string :=
  let column := tpl (Condition.column cond) in
  if operator_is cond "BETWEEN" then
    rbind (destructure2 (Condition.value cond)) (fun '(value1, value2) =>
    ok (column ++ " BETWEEN " ++ Js.toString (quote value1)
               ++ " AND " ++ Js.toString (quote value2)))
  else if operator_is cond "IN" then
    match Condition.value cond with
    | Js.VArr items =>
        ok (column ++ " IN (" ++ Js.join ", " (map quote items) ++ ")")
    | _ => throw TypeError
    end
  else if operator_is cond "IS NULL" then ok (column ++ " IS NULL")
  else if operator_is cond "IS NOT NULL" then ok (column ++ " IS NOT NULL")
  else
    ok (column ++ " " ++ tpl (Condition.operator cond) ++ " "
               ++ Js.toString (quote (Condition.value cond))).

(** The callback of [buildConditions]' [map]. *)
Definition render_condition (index : nat) (cond : Condition.t) : result string :=
  let prefix := if Nat.eqb index 0 then "" else " " ++ Condition.type cond ++ " " in
  if Condition.isGroup cond
  then ok (prefix ++ "(" ++ tpl (Condition.query cond) ++ ")")
  else rbind (conditionStr cond) (fun text => ok (prefix ++ text)).

(** ** The environment, the server and calls with effects *)

(** The [process.env] values read at start-up; [POSTGRES_PORT] stands for
    [Number(process.env.POSTGRES_PORT || 5432)]. *)
Record Env : Type := {
  POSTGRES_DATABASE : option string;
  POSTGRES_USER : option string;
  POSTGRES_PASSWORD : option string;
  POSTGRES_HOST : option string;
  POSTGRES_PORT : Js.number
}.

(** The driver, over an abstract server state [Db]: [pool.query(sql)] (also
    [client.query(sql)] on a client of the pool), [pool.connect()] and
    [pool.end()].  Each may reject. *)
Record Driver (Db : Type) : Type := {
  drv_query : Pg.Pool -> string -> Db -> (Pg.DriverError + Pg.Rows) * Db;
  drv_connect : Pg.Pool -> Db -> option Pg.DriverError * Db;
  drv_end : Pg.Pool -> Db -> option Pg.DriverError * Db
}.
Arguments drv_query {Db}.
Arguments drv_connect {Db}.
Arguments drv_end {Db}.

(** The server together with the statements handed to the driver so far,
    oldest first. *)
Record World (Db : Type) : Type := {
  db : Db;
  sent : list string
}.
Arguments db {Db}.
Arguments sent {Db}.

(** A computation over a mutable state [S] that may throw; what was
    mutated before a throw stays mutated. *)
Definition M (S A : Type) : Type := S -> result A * S.

Definition ret {S A : Type} (a : A) : M S A := fun s => (inr a, s).

Definition raise {S A : Type} (e : error) : M S A := fun s => (inl e, s).

Definition bind {S A B : Type} (c : M S A) (k : A -> M S B) : M S B :=
  fun s =>
    match c s with
    | (inl e, s') => (inl e, s')
    | (inr a, s') => k a s'
    end.

(** [try { c } catch (error) { handler(error) }]. *)
Definition try_catch {S A : Type} (c : M S A) (handler : error -> M S A) : M S A :=
  fun s =>
    match c s with
    | (inl e, s') => handler e s'
    | (inr a, s') => (inr a, s')
    end.

(** A pure call that may throw, run inside [M]. *)
Definition lift_result {S A : Type} (r : result A) : M S A :=
  fun s => (r, s).

Declare Scope js_scope.
Delimit Scope js_scope with js.
Notation "x <- c ;; k" := (bind c (fun x => k))
  (at level 61, c at next level, right associativity) : js_scope.
Notation "c ;; k" := (bind c (fun _ => k))
  (at level 61, right associativity) : js_scope.

Section WorldCalls.

Context {Db : Type} (driver : Driver Db).

(** [await pool.query(sql)]: the statement reaches the driver and is
    recorded. *)
Definition world_query (pool : Pg.Pool) (sql : string) : M (World Db) Pg.Rows :=
  fun w =>
    let '(reply, db') := drv_query driver pool sql (db w) in
    let w' := {| db := db'; sent := sent w ++ [sql] |} in
    match reply with
    | inl e => (inl (Rejected e), w')
    | inr rows => (inr rows, w')
    end.

(** [await pool.connect()] and [await pool.end()]. *)
Definition world_connect (pool : Pg.Pool) : M (World Db) unit :=
  fun w =>
    let '(reply, db') := drv_connect driver pool (db w) in
    let w' := {| db := db'; sent := sent w |} in
    match reply with
    | Some e => (inl (Rejected e), w')
    | None => (inr tt, w')
    end.

Definition world_end (pool : Pg.Pool) : M (World Db) unit :=
  fun w =>
    let '(reply, db') := drv_end driver pool (db w) in
    let w' := {| db := db'; sent := sent w |} in
    match reply with
    | Some e => (inl (Rejected e), w')
    | None => (inr tt, w')
    end.

End WorldCalls.

(** ** The query builder: state and chainable calls *)

Module TableQuery.

(** The fields of [class TableQuery]; [null] is [None]. *)
Record t : Type := {
  conection : option Pg.Pool;
  nextType : string;
  joins : list string;
  _orderBy : list OrderBy.t;
  _distinct : bool;
  _groupBy : list string;
  tableName : string;
  fields : list string;
  query : string;
  conditions : list Condition.t;
  limitValue : option Js.number;
  pageValue : option Js.number
}.

(** [new TableQuery(tableName, conection)]. *)
Definition new (tableName : string) (conection : option Pg.Pool) : t :=
  {| conection := conection;
     nextType := "AND";
     joins := [];
     _orderBy := [];
     _distinct := false;
     _groupBy := [];
     tableName := tableName;
     fields := [];
     query := "SELECT * FROM " ++ dq ++ tableName ++ dq;
     conditions := [];
     limitValue := None;
     pageValue := None |}.

(** Assignments to single fields. *)
Definition set_conection (c : option Pg.Pool) (b : t) : t :=
  {| conection := c; nextType := nextType b; joins := joins b;
     _orderBy := _orderBy b; _distinct := _distinct b; _groupBy := _groupBy b;
     tableName := tableName b; fields := fields b; query := query b;
     conditions := conditions b; limitValue := limitValue b;
     pageValue := pageValue b |}.

Definition set_nextType (ty : string) (b : t) : t :=
  {| conection := conection b; nextType := ty; joins := joins b;
     _orderBy := _orderBy b; _distinct := _distinct b; _groupBy := _groupBy b;
     tableName := tableName b; fields := fields b; query := query b;
     conditions := conditions b; limitValue := limitValue b;
     pageValue := pageValue b |}.

Definition set_joins (js : list string) (b : t) : t :=
  {| conection := conection b; nextType := nextType b; joins := js;
     _orderBy := _orderBy b; _distinct := _distinct b; _groupBy := _groupBy b;
     tableName := tableName b; fields := fields b; query := query b;
     conditions := conditions b; limitValue := limitValue b;
     pageValue := pageValue b |}.

Definition set_orderBy (os : list OrderBy.t) (b : t) : t :=
  {| conection := conection b; nextType := nextType b; joins := joins b;
     _orderBy := os; _distinct := _distinct b; _groupBy := _groupBy b;
     tableName := tableName b; fields := fields b; query := query b;
     conditions := conditions b; limitValue := limitValue b;
     pageValue := pageValue b |}.

Definition set_distinct (d : bool) (b : t) : t :=
  {| conection := conection b; nextType := nextType b; joins := joins b;
     _orderBy := _orderBy b; _distinct := d; _groupBy := _groupBy b;
     tableName := tableName b; fields := fields b; query := query b;
     conditions := conditions b; limitValue := limitValue b;
     pageValue := pageValue b |}.

Definition set_groupBy (gs : list string) (b : t) : t :=
  {| conection := conection b; nextType := nextType b; joins := joins b;
     _orderBy := _orderBy b; _distinct := _distinct b; _groupBy := gs;
     tableName := tableName b; fields := fields b; query := query b;
     conditions := conditions b; limitValue := limitValue b;
     pageValue := pageValue b |}.

Definition set_query (q : string) (b : t) : t :=
  {| conection := conection b; nextType := nextType b; joins := joins b;
     _orderBy := _orderBy b; _distinct := _distinct b; _groupBy := _groupBy b;
     tableName := tableName b; fields := fields b; query := q;
     conditions := conditions b; limitValue := limitValue b;
     pageValue := pageValue b |}.

Definition set_conditions (cs : list Condition.t) (b : t) : t :=
  {| conection := conection b; nextType := nextType b; joins := joins b;
     _orderBy := _orderBy b; _distinct := _distinct b; _groupBy := _groupBy b;
     tableName := tableName b; fields := fields b; query := query b;
     conditions := cs; limitValue := limitValue b;
     pageValue := pageValue b |}.

Definition set_limitValue (n : option Js.number) (b : t) : t :=
  {| conection := conection b; nextType := nextType b; joins := joins b;
     _orderBy := _orderBy b; _distinct := _distinct b; _groupBy := _groupBy b;
     tableName := tableName b; fields := fields b; query := query b;
     conditions := conditions b; limitValue := n;
     pageValue := pageValue b |}.

Definition set_pageValue (n : option Js.number) (b : t) : t :=
  {| conection := conection b; nextType := nextType b; joins := joins b;
     _orderBy := _orderBy b; _distinct := _distinct b; _groupBy := _groupBy b;
     tableName := tableName b; fields := fields b; query := query b;
     conditions := conditions b; limitValue := limitValue b;
     pageValue := n |}.

(** [this.conditions.push(node)]. *)
Definition push (node : Condition.t) (b : t) : t :=
  set_conditions (conditions b ++ [node]) b.

(** A leaf node [{ column, operator, value, type, isGroup: false }]. *)
Definition leaf (column : string) (operator : string) (value : Js.value)
  (type : string) : Condition.t :=
  {| Condition.column := Some column;
     Condition.operator := Some operator;
     Condition.value := value;
     Condition.query := None;
     Condition.type := type;
     Condition.isGroup := false |}.

(** A group node [{ query, type, isGroup: true }]. *)
Definition group (query : string) (type : string) : Condition.t :=
  {| Condition.column := None;
     Condition.operator := None;
     Condition.value := Js.VUndefined;
     Condition.query := Some query;
     Condition.type := type;
     Condition.isGroup := true |}.

(** [if (operator === undefined) operator = "="]. *)
Definition default_operator (operator : option string) : string :=
  match operator with
  | None => "="
  | Some op => op
  end.

Definition select (fields : list string) (b : t) : t :=
  if (0 <? List.length fields)%nat
  then set_query ("SELECT " ++ (if _distinct b then "DISTINCT " else "")
                    ++ String.concat ", " fields
                    ++ " FROM " ++ dq ++ tableName b ++ dq) b
  else b.

Definition where_ (column : string) (operator : option string)
  (value : Js.value) (b : t) : t :=
  let operator := default_operator operator in
  set_nextType "AND" (push (leaf column operator value (nextType b)) b).

Definition orWhere (column : string) (operator : option string)
  (value : Js.value) (b : t) : t :=
  let operator := default_operator operator in
  push (leaf column operator value "OR") b.

Definition or (b : t) : t := set_nextType "OR" b.

Definition and (b : t) : t := set_nextType "AND" b.

(** [buildConditions()]: the nodes mapped with their index, joined with the
    empty separator. *)
Definition buildConditions (b : t) : result string :=
  rbind (map_index render_condition 0 (conditions b)) (fun parts =>
  ok (String.concat "" parts)).

(** [whereGroup(callback)]: the callback fills a fresh builder of the same
    table, which has no connection; it may throw. *)
Definition whereGroup (callback : t -> result t) (b : t) : result t :=
  let groupQuery := new (tableName b) None in
  rbind (callback groupQuery) (fun groupQuery =>
  rbind (buildConditions groupQuery) (fun groupConditions =>
  ok (set_nextType "AND" (push (group groupConditions (nextType b)) b)))).

(** [whereBetween(column, [value1, value2])]: the parameter pattern
    destructures whatever is passed. *)
Definition whereBetween (column : string) (values : Js.value) (b : t) : result t :=
  rbind (destructure2 values) (fun '(value1, value2) =>
  match value1, value2 with
  | Js.VUndefined, _ => ok b
  | _, Js.VUndefined => ok b
  | _, _ =>
      ok (set_nextType "AND"
            (push (leaf column "BETWEEN" (Js.VArr [value1; value2]) (nextType b)) b))
  end).

Definition whereIn (column : string) (values : Js.value) (b : t) : t :=
  match values with
  | Js.VArr (_ :: _) =>
      set_nextType "AND" (push (leaf column "IN" values (nextType b)) b)
  | _ => b
  end.

(** [whereNull] and [whereNotNull] push a node without a [value]. *)
Definition null_node (column operator type : string) : Condition.t :=
  {| Condition.column := Some column;
     Condition.operator := Some operator;
     Condition.value := Js.VUndefined;
     Condition.query := None;
     Condition.type := type;
     Condition.isGroup := false |}.

Definition whereNull (column : string) (b : t) : t :=
  set_nextType "AND" (push (null_node column "IS NULL" (nextType b)) b).

Definition whereNotNull (column : string) (b : t) : t :=
  set_nextType "AND" (push (null_node column "IS NOT NULL" (nextType b)) b).

Definition join (table column1 operator column2 : string) (b : t) : t :=
  set_joins (joins b ++ ["JOIN " ++ dq ++ table ++ dq ++ " ON " ++ column1
                           ++ " " ++ operator ++ " " ++ column2]) b.

Definition leftJoin (table column1 operator column2 : string) (b : t) : t :=
  set_joins (joins b ++ ["LEFT JOIN " ++ dq ++ table ++ dq ++ " ON " ++ column1
                           ++ " " ++ operator ++ " " ++ column2]) b.

Definition rightJoin (table column1 operator column2 : string) (b : t) : t :=
  set_joins (joins b ++ ["RIGHT JOIN " ++ dq ++ table ++ dq ++ " ON " ++ column1
                           ++ " " ++ operator ++ " " ++ column2]) b.

(** [orderBy(column, direction = 'ASC')]; [None] is an omitted argument. *)
Definition orderBy (column : string) (direction : option string) (b : t) : result t :=
  let direction := match direction with Some d => d | None => "ASC" end in
  let upper := Js.toUpperCase direction in
  if String.eqb upper "ASC" || String.eqb upper "DESC"
  then ok (set_orderBy (_orderBy b ++ [{| OrderBy.column := column;
                                          OrderBy.direction := upper |}]) b)
  else throw (InvalidDirection direction).

Definition groupBy (column : string) (b : t) : t :=
  set_groupBy (_groupBy b ++ [column]) b.

(** [this.query.replace(/^SELECT /, 'SELECT DISTINCT ')]. *)
Definition replace_select (q : string) : string :=
  if Js.startsWith q "SELECT "
  then "SELECT DISTINCT " ++ Js.drop 7 q
  else q.

Definition distinct (b : t) : t :=
  set_query (replace_select (query b)) (set_distinct true b).

(** The aggregate projections; [count] defaults its column to ['*']. *)
Definition count (column : option string) (b : t) : t :=
  let column := match column with Some c => c | None => "*" end in
  set_query ("SELECT COUNT(" ++ column ++ ") AS count FROM " ++ dq ++ tableName b ++ dq) b.

Definition sum (column : string) (b : t) : t :=
  set_query ("SELECT SUM(" ++ column ++ ") AS sum FROM " ++ dq ++ tableName b ++ dq) b.

Definition avg (column : string) (b : t) : t :=
  set_query ("SELECT AVG(" ++ column ++ ") AS avg FROM " ++ dq ++ tableName b ++ dq) b.

Definition max (column : string) (b : t) : t :=
  set_query ("SELECT MAX(" ++ column ++ ") AS max FROM " ++ dq ++ tableName b ++ dq) b.

Definition min (column : string) (b : t) : t :=
  set_query ("SELECT MIN(" ++ column ++ ") AS min FROM " ++ dq ++ tableName b ++ dq) b.

Definition limit (number : Js.number) (b : t) : t :=
  set_limitValue (Some number) b.

Definition page (number : Js.number) (b : t) : t :=
  set_pageValue (Some number) b.

(** [x !== null && x !== undefined && !Number.isNaN(x)]. *)
Definition is_set (x : option Js.number) : bool :=
  match x with
  | Some n => negb (Js.isNaN n)
  | None => false
  end.

(** The text-prefix test that guards ORDER BY. *)
Definition aggregate_prefix (q : string) : bool :=
  Js.startsWith q "SELECT COUNT" || Js.startsWith q "SELECT SUM"
  || Js.startsWith q "SELECT AVG" || Js.startsWith q "SELECT MAX"
  || Js.startsWith q "SELECT MIN".

(** [`${order.column} ${order.direction}`]. *)
Definition order_text (order : OrderBy.t) : string :=
  OrderBy.column order ++ " " ++ OrderBy.direction order.

(** The number a [number | null] field holds when it passed [is_set]. *)
Definition num_of (x : option Js.number) : Js.number :=
  match x with
  | Some n => n
  | None => Js.Int 0
  end.

(** [buildQuery(includeSelect = true)], clause by clause as the method
    appends them. *)
Definition buildQuery (includeSelect : bool) (b : t) : result string :=
  let query0 := if includeSelect then query b else "" in
  let query1 :=
    if (0 <? List.length (joins b))%nat
    then query0 ++ " " ++ String.concat " " (joins b)
    else query0 in
  rbind (buildConditions b) (fun whereClauses =>
  let query2 :=
    if (0 <? String.length whereClauses)%nat
    then query1 ++ " WHERE " ++ whereClauses
    else query1 in
  let query3 :=
    if (0 <? List.length (_groupBy b))%nat
    then query2 ++ " GROUP BY " ++ String.concat ", " (_groupBy b)
    else query2 in
  let query4 :=
    if is_set (limitValue b)
    then query3 ++ " LIMIT " ++ Js.num_toString (num_of (limitValue b))
    else query3 in
  let query5 :=
    if Js.truthy_num (limitValue b) && is_set (pageValue b)
    then
      let offset := Js.mul (Js.sub (num_of (pageValue b)) (Js.Int 1))
                           (num_of (limitValue b)) in
      query4 ++ " OFFSET " ++ Js.num_toString offset
    else query4 in
  let query6 :=
    if (0 <? List.length (_orderBy b))%nat && negb (aggregate_prefix (query b))
    then query5 ++ " ORDER BY " ++ String.concat ", " (map order_text (_orderBy b))
    else query5 in
  ok query6).

(** *** Terminal operations *)

Section Execution.

Context {Db : Type} (env : Env) (driver : Driver Db).

(** The builder a terminal operation runs on, and the world. *)
Record Run : Type := {
  self : t;
  world : World Db
}.

Local Open Scope js_scope.

Definition this : M Run t := fun st => (inr (self st), st).

Definition assign_conection (pool : Pg.Pool) : M Run unit :=
  fun st => (inr tt, {| self := set_conection (Some pool) (self st);
                        world := world st |}).

Definition assign_self (b : t) : M Run unit :=
  fun st => (inr tt, {| self := b; world := world st |}).

Definition in_world {A : Type} (c : M (World Db) A) : M Run A :=
  fun st =>
    let '(r, w') := c (world st) in
    (r, {| self := self st; world := w' |}).

(** [error.code === '3D000']. *)
Definition database_missing (e : error) : bool :=
  match e with
  | Rejected d =>
      match Pg.code d with
      | Some c => String.eqb c "3D000"
      | None => false
      end
  | _ => false
  end.

(** [#get_response(sql)], with the one-shot creation of a missing
    database. *)
Definition get_response (sql : string) : M Run Pg.Rows :=
  b <- this ;;
  match conection b with
  | None => raise NoConnection
  | Some pool =>
      try_catch (in_world (world_query driver pool sql)) (fun error =>
        if database_missing error then
          let admin := {| Pg.host := POSTGRES_HOST env;
                          Pg.user := POSTGRES_USER env;
                          Pg.password := POSTGRES_PASSWORD env;
                          Pg.database := None;
                          Pg.port := POSTGRES_PORT env |} in
          let target := {| Pg.host := POSTGRES_HOST env;
                           Pg.user := POSTGRES_USER env;
                           Pg.password := POSTGRES_PASSWORD env;
                           Pg.database := POSTGRES_DATABASE env;
                           Pg.port := POSTGRES_PORT env |} in
          in_world (world_end driver pool) ;;
          assign_conection admin ;;
          in_world (world_connect driver admin) ;;
          in_world (world_query driver admin
                      ("CREATE DATABASE " ++ dq ++ tpl (POSTGRES_DATABASE env) ++ dq)) ;;
          in_world (world_end driver admin) ;;
          assign_conection target ;;
          in_world (world_query driver target sql)
        else raise error)
  end.

(** [result[0] || null]. *)
Definition first_or_null (rows : Pg.Rows) : Js.value :=
  match rows with
  | [] => Js.VNull
  | Js.VUndefined :: _ => Js.VNull
  | Js.VNull :: _ => Js.VNull
  | Js.VBool false :: _ => Js.VNull
  | Js.VNum Js.NaN :: _ => Js.VNull
  | Js.VNum (Js.Int 0) :: _ => Js.VNull
  | Js.VStr EmptyString :: _ => Js.VNull
  | row :: _ => row
  end.

Definition get : M Run Pg.Rows :=
  b <- this ;;
  sqlQuery <- lift_result (buildQuery true b) ;;
  get_response sqlQuery.

Definition first : M Run Js.value :=
  b <- this ;;
  sqlQuery <- lift_result (buildQuery true b) ;;
  rows <- get_response sqlQuery ;;
  ret (first_or_null rows).

(** [find(value, column = 'id')]. *)
Definition find (value : Js.value) (column : option string) : M Run Js.value :=
  let column := match column with Some c => c | None => "id" end in
  b <- this ;;
  assign_self (where_ column (Some "=") value b) ;;
  first.

(** [typeof item === 'object' && item !== null]. *)
Definition is_object (item : Js.value) : bool :=
  String.eqb (Js.typeof item) "object"
  && match item with Js.VNull => false | _ => true end.

(** The literal [insert] writes for one value of a row. *)
Definition insert_literal (value : Js.value) : Js.value :=
  match value with
  | Js.VUndefined | Js.VNull => Js.VStr "NULL"
  | _ => quote value
  end.

(** [Object.keys(x)] and [Object.values(x)] as calls that may throw. *)
Definition object_keys (x : Js.value) : result (list string) :=
  match Js.keys x with
  | Some ks => ok ks
  | None => throw TypeError
  end.

Definition object_values (x : Js.value) : result (list Js.value) :=
  match Js.values x with
  | Some vs => ok vs
  | None => throw TypeError
  end.

(** The INSERT statement of one row. *)
Definition insert_sql (tableName : string) (row : Js.value) : result string :=
  rbind (object_keys row) (fun ks =>
  rbind (object_values row) (fun vs =>
  let keys := map (fun key => dq ++ key ++ dq) ks in
  let values := map insert_literal vs in
  let columns := String.concat ", " keys in
  let placeholders := Js.join ", " values in
  ok ("INSERT INTO " ++ dq ++ tableName ++ dq ++ " (" ++ columns
        ++ ") VALUES (" ++ placeholders ++ ") RETURNING *"))).

(** The body of [for (const row of data)], with [results] so far. *)
Fixpoint insert_rows (data : list Js.value) (results : list Js.value)
  : M Run (list Js.value) :=
  match data with
  | [] => ret results
  | row :: rest =>
      b <- this ;;
      sqlQuery <- lift_result (insert_sql (tableName b) row) ;;
      rows <- get_response sqlQuery ;;
      insert_rows rest (results ++ [nth 0 rows Js.VUndefined])
  end.

Definition insert (data : Js.value) : M Run (list Js.value) :=
  match data with
  | Js.VArr items =>
      if forallb is_object items
      then try_catch (insert_rows items [])
             (fun error => raise (InsertFailed (error_message error)))
      else raise InsertNotObjects
  | _ => raise InsertNotArray
  end.

(** The [SET] list of [update]. *)
Definition update_assignment (data : Js.value) (key : string) : string :=
  let value := match data with
               | Js.VObj props => Js.lookup key props
               | _ => Js.VUndefined
               end in
  dq ++ key ++ dq ++ " = " ++ Js.toString (quote value).

Definition update (data : Js.value) : M Run Pg.Rows :=
  if negb (String.eqb (Js.typeof data) "object") || Js.isArray data
  then raise UpdateNotObject
  else
    ks <- lift_result (object_keys data) ;;
    let updates := String.concat ", " (map (update_assignment data) ks) in
    b <- this ;;
    whereClauses <- lift_result (buildConditions b) ;;
    if (String.length whereClauses =? 0)%nat
    then raise UpdateMissingWhere
    else
      get_response ("UPDATE " ++ dq ++ tableName b ++ dq ++ " SET " ++ updates
                      ++ " WHERE " ++ whereClauses ++ " RETURNING *").

Definition delete : M Run Pg.Rows :=
  b <- this ;;
  whereClauses <- lift_result (buildConditions b) ;;
  if (String.length whereClauses =? 0)%nat
  then raise DeleteMissingWhere
  else
    get_response ("DELETE FROM " ++ dq ++ tableName b ++ dq
                    ++ " WHERE " ++ whereClauses ++ " RETURNING *").

End Execution.

End TableQuery.

(** ** The raw entry point *)

Module Postgres.

(** [class Postgres]: the pool, [null] when it could not be created. *)
Record t : Type := {
  pool : option Pg.Pool
}.

(** [{ status, message, data }]. *)
Record QueryResult : Type := {
  status : string;
  message : string;
  data : Js.value
}.

Definition table (tableName : string) (self : t) : TableQuery.t :=
  TableQuery.new tableName (pool self).

Section Query.

Context {Db : Type} (driver : Driver Db).

Local Open Scope js_scope.

(** The [for (const command of sqlCommands)] loop, with [results] so
    far. *)
Fixpoint run_commands (p : Pg.Pool) (sqlCommands : list string)
  (results : list Pg.Rows) : M (World Db) (list Pg.Rows) :=
  match sqlCommands with
  | [] => ret results
  | command :: rest =>
      rows <- world_query driver p (command ++ ";") ;;
      run_commands p rest (results ++ [rows])
  end.

(** [sqlQuery.split(';').filter(cmd => cmd.trim().length > 0)]. *)
Definition commands_of (sqlQuery : string) : list string :=
  filter (fun cmd => (0 <? String.length (Js.trim cmd))%nat)
         (Js.split ";" sqlQuery).

(** [results.length === 1 ? results[0] : results]. *)
Definition data_of (results : list Pg.Rows) : Js.value :=
  match results with
  | [rows] => Js.VArr rows
  | _ => Js.VArr (map Js.VArr results)
  end.

(** [error.message || 'An error occurred while executing the query.']. *)
Definition message_of (e : error) : string :=
  match error_message e with
  | EmptyString => "An error occurred while executing the query."
  | text => text
  end.

Definition query (self : t) (sqlQuery : Js.value) : M (World Db) QueryResult :=
  match sqlQuery with
  | Js.VStr text =>
      let sqlCommands := commands_of text in
      try_catch
        (match pool self with
         | None => raise PoolUnavailable
         | Some p =>
             results <- run_commands p sqlCommands [] ;;
             ret {| status := "success";
                    message := "Query executed successfully";
                    data := data_of results |}
         end)
        (fun error =>
           ret {| status := "error";
                  message := message_of error;
                  data := Js.VNull |})
  | _ => raise QueryNotString
  end.

End Query.

End Postgres.

(** ** Sequences of [where]/[orWhere] calls and their stated rendering *)

Module Calls.

(** One chained call of the two simple appenders. *)
Inductive WhereCall : Type :=
| Where (column : string) (operator : option string) (value : Js.value)
| OrWhere (column : string) (operator : option string) (value : Js.value).

Definition apply (c : WhereCall) (b : TableQuery.t) : TableQuery.t :=
  match c with
  | Where column operator value => TableQuery.where_ column operator value b
  | OrWhere column operator value => TableQuery.orWhere column operator value b
  end.

(** [b.c1(...).c2(...)...]: the calls chained left to right. *)
Definition chain (calls : list WhereCall) (b : TableQuery.t) : TableQuery.t :=
  fold_left (fun acc c => apply c acc) calls b.

(** The combinator keyword a call on a fresh chain carries. *)
Definition keyword (c : WhereCall) : string :=
  match c with
  | Where _ _ _ => "AND"
  | OrWhere _ _ _ => "OR"
  end.

(** The predicate a call contributes, without any combinator. *)
Definition predicate (c : WhereCall) : result string :=
  match c with
  | Where column operator value
  | OrWhere column operator value =>
      conditionStr (TableQuery.leaf column (TableQuery.default_operator operator)
                      value (keyword c))
  end.

(** The stated rendering: every predicate after the first is preceded by
    a space, its keyword and a space. *)
Fixpoint stated_rest (calls : list WhereCall) : result string :=
  match calls with
  | [] => ok ""
  | c :: rest =>
      rbind (predicate c) (fun p =>
      rbind (stated_rest rest) (fun r =>
      ok (" " ++ keyword c ++ " " ++ p ++ r)))
  end.

(** The first predicate carries no keyword. *)
Definition stated (calls : list WhereCall) : result string :=
  match calls with
  | [] => ok ""
  | c :: rest =>
      rbind (predicate c) (fun p =>
      rbind (stated_rest rest) (fun r => ok (p ++ r)))
  end.

(** A call whose predicate cannot fail to render: its operator is neither
    [BETWEEN] nor [IN]. *)
Definition plain (c : WhereCall) : bool :=
  match c with
  | Where _ operator _
  | OrWhere _ operator _ =>
      negb (String.eqb (TableQuery.default_operator operator) "BETWEEN")
      && negb (String.eqb (TableQuery.default_operator operator) "IN")
  end.

(** The node a call pushes on a chain whose pending combinator is AND. *)
Definition node_of (c : WhereCall) : Condition.t :=
  match c with
  | Where column operator value
  | OrWhere column operator value =>
      TableQuery.leaf column (TableQuery.default_operator operator) value (keyword c)
  end.

(** What a call hands over, and what a node holds of it. *)
Definition data (c : WhereCall) : option string * option string * Js.value :=
  match c with
  | Where column operator value
  | OrWhere column operator value =>
      (Some column, Some (TableQuery.default_operator operator), value)
  end.

Definition node_data (cond : Condition.t)
  : option string * option string * Js.value :=
  (Condition.column cond, Condition.operator cond, Condition.value cond).

(** The text of one node without its combinator: a group in parentheses,
    a leaf as its predicate. *)
Definition node_text (cond : Condition.t) : result string :=
  if Condition.isGroup cond
  then ok ("(" ++ tpl (Condition.query cond) ++ ")")
  else conditionStr cond.

(** The stated rendering of a condition list, node by node: each node
    after the first is preceded by a space, its own combinator and a
    space. *)
Fixpoint stated_later_nodes (conds : list Condition.t) : result string :=
  match conds with
  | [] => ok ""
  | cond :: rest =>
      rbind (node_text cond) (fun text =>
      rbind (stated_later_nodes rest) (fun r =>
      ok (" " ++ Condition.type cond ++ " " ++ text ++ r)))
  end.

Definition stated_nodes (conds : list Condition.t) : result string :=
  match conds with
  | [] => ok ""
  | cond :: rest =>
      rbind (node_text cond) (fun text =>
      rbind (stated_later_nodes rest) (fun r => ok (text ++ r)))
  end.

End Calls.

(** ** The older JavaScript builder *)

Module Legacy.

(** The limit of the JavaScript builder is [undefined] until [limit] is
    called, and [undefined] is [NaN] in a product. *)
Definition limit_number (x : option Js.number) : Js.number :=
  match x with
  | Some n => n
  | None => Js.NaN
  end.

(** [buildQuery] of the JavaScript builder.  It differs from the
    TypeScript one in the OFFSET guard, which looks at the page only. *)
Definition buildQuery (includeSelect : bool) (b : TableQuery.t) : result string :=
  let query0 := if includeSelect then TableQuery.query b else "" in
  let query1 :=
    if (0 <? List.length (TableQuery.joins b))%nat
    then query0 ++ " " ++ String.concat " " (TableQuery.joins b)
    else query0 in
  rbind (TableQuery.buildConditions b) (fun whereClauses =>
  let query2 :=
    if (0 <? String.length whereClauses)%nat
    then query1 ++ " WHERE " ++ whereClauses
    else query1 in
  let query3 :=
    if (0 <? List.length (TableQuery._groupBy b))%nat
    then query2 ++ " GROUP BY " ++ String.concat ", " (TableQuery._groupBy b)
    else query2 in
  let query4 :=
    if TableQuery.is_set (TableQuery.limitValue b)
    then query3 ++ " LIMIT "
           ++ Js.num_toString (TableQuery.num_of (TableQuery.limitValue b))
    else query3 in
  let query5 :=
    if TableQuery.is_set (TableQuery.pageValue b)
    then
      let offset :=
        Js.mul (Js.sub (TableQuery.num_of (TableQuery.pageValue b)) (Js.Int 1))
               (limit_number (TableQuery.limitValue b)) in
      query4 ++ " OFFSET " ++ Js.num_toString offset
    else query4 in
  let query6 :=
    if (0 <? List.length (TableQuery._orderBy b))%nat
       && negb (TableQuery.aggregate_prefix (TableQuery.query b))
    then query5 ++ " ORDER BY "
           ++ String.concat ", " (map TableQuery.order_text (TableQuery._orderBy b))
    else query5 in
  ok query6).

End Legacy.

(** ** Shapes used in the statements below *)

(** [only_raises P c]: whatever [c] throws satisfies [P]. *)
Definition only_raises {S A : Type} (P : error -> Prop) (c : M S A) : Prop :=
  forall s e, fst (c s) = inl e -> P e.

(** The errors [#get_response] can end with: the missing connection, or
    a rejection of the driver. *)
Definition from_execution (e : error) : Prop :=
  e = NoConnection \/ exists d, e = Rejected d.

(** What the loop of [query] can throw: a rejection of the driver. *)
Definition rejected (e : error) : Prop := exists d, e = Rejected d.

(** The fixed texts of the structured result. *)
Definition fallback_text : string :=
  "An error occurred while executing the query.".

(** Base clause, JOINs, WHERE and GROUP BY: what [buildQuery] has
    appended when it reaches LIMIT. *)
Definition clauses_before_limit (b : TableQuery.t) : result string :=
  let query1 :=
    if (0 <? List.length (TableQuery.joins b))%nat
    then TableQuery.query b ++ " " ++ String.concat " " (TableQuery.joins b)
    else TableQuery.query b in
  rbind (TableQuery.buildConditions b) (fun whereClauses =>
  let query2 :=
    if (0 <? String.length whereClauses)%nat
    then query1 ++ " WHERE " ++ whereClauses
    else query1 in
  ok (if (0 <? List.length (TableQuery._groupBy b))%nat
      then query2 ++ " GROUP BY " ++ String.concat ", " (TableQuery._groupBy b)
      else query2)).

Definition limit_clause (b : TableQuery.t) : string :=
  if TableQuery.is_set (TableQuery.limitValue b)
  then " LIMIT " ++ Js.num_toString (TableQuery.num_of (TableQuery.limitValue b))
  else "".

Definition offset_clause (b : TableQuery.t) : string :=
  if Js.truthy_num (TableQuery.limitValue b)
     && TableQuery.is_set (TableQuery.pageValue b)
  then " OFFSET "
       ++ Js.num_toString
            (Js.mul (Js.sub (TableQuery.num_of (TableQuery.pageValue b)) (Js.Int 1))
                    (TableQuery.num_of (TableQuery.limitValue b)))
  else "".

Definition order_clause (b : TableQuery.t) : string :=
  if (0 <? List.length (TableQuery._orderBy b))%nat
     && negb (TableQuery.aggregate_prefix (TableQuery.query b))
  then " ORDER BY "
       ++ String.concat ", " (map TableQuery.order_text (TableQuery._orderBy b))
  else "".

(** ** A small server to run the builder against *)

Module Demo.

Definition env : Env :=
  {| POSTGRES_DATABASE := Some "shop";
     POSTGRES_USER := Some "app";
     POSTGRES_PASSWORD := None;
     POSTGRES_HOST := Some "localhost";
     POSTGRES_PORT := Js.Int 5432 |}.

Definition pool : Pg.Pool :=
  {| Pg.host := Some "localhost";
     Pg.user := Some "app";
     Pg.password := None;
     Pg.database := Some "shop";
     Pg.port := Js.Int 5432 |}.

(** The server state counts the statements it has run. *)
Definition Db : Type := nat.

(** A statement that starts with [BAD] is rejected with the given
    message; any other one returns a single row. *)
Definition driver_rejecting (text : string) : Driver Db :=
  {| drv_query := fun _ sql n =>
       if Js.startsWith sql "BAD"
       then (inl {| Pg.code := Some "42601"; Pg.message := text |}, n)
       else (inr [Js.VObj [("id", Js.VNum (Js.Int (Z.of_nat n)))]], S n);
     drv_connect := fun _ n => (None, n);
     drv_end := fun _ n => (None, n) |}.

Definition driver : Driver Db := driver_rejecting "syntax error".

(** A server on which the target database does not exist yet: statements
    on a pool with a database are rejected with code [3D000] until one
    statement has run on a pool without a database. *)
Definition driver_missing_database : Driver Db :=
  {| drv_query := fun p sql n =>
       match Pg.database p, n with
       | Some _, O =>
           (inl {| Pg.code := Some "3D000";
                   Pg.message := "database does not exist" |}, n)
       | _, _ => (inr [], S n)
       end;
     drv_connect := fun _ n => (None, n);
     drv_end := fun _ n => (None, n) |}.

Definition world : World Db := {| db := 0; sent := [] |}.

Definition users : TableQuery.t := TableQuery.new "users" (Some pool).

Definition run (b : TableQuery.t) : @TableQuery.Run Db :=
  {| TableQuery.self := b; TableQuery.world := world |}.

End Demo.

(** ** Chains of builder calls *)

Module Chain.

(** One chainable call of [TableQuery], with its arguments. *)
Inductive Call : Type :=
| Select (fields : list string)
| Where (column : string) (operator : option string) (value : Js.value)
| OrWhere (column : string) (operator : option string) (value : Js.value)
| WhereGroup (callback : TableQuery.t -> result TableQuery.t)
| Or
| And
| WhereBetween (column : string) (values : Js.value)
| WhereIn (column : string) (values : Js.value)
| WhereNull (column : string)
| WhereNotNull (column : string)
| Join (table column1 operator column2 : string)
| LeftJoin (table column1 operator column2 : string)
| RightJoin (table column1 operator column2 : string)
| OrderBy (column : string) (direction : option string)
| GroupBy (column : string)
| Distinct
| Count (column : option string)
| Sum (column : string)
| Avg (column : string)
| Max (column : string)
| Min (column : string)
| Limit (number : Js.number)
| Page (number : Js.number).

Definition apply (c : Call) (b : TableQuery.t) : result TableQuery.t :=
  match c with
  | Select fields => ok (TableQuery.select fields b)
  | Where column operator value => ok (TableQuery.where_ column operator value b)
  | OrWhere column operator value => ok (TableQuery.orWhere column operator value b)
  | WhereGroup callback => TableQuery.whereGroup callback b
  | Or => ok (TableQuery.or b)
  | And => ok (TableQuery.and b)
  | WhereBetween column values => TableQuery.whereBetween column values b
  | WhereIn column values => ok (TableQuery.whereIn column values b)
  | WhereNull column => ok (TableQuery.whereNull column b)
  | WhereNotNull column => ok (TableQuery.whereNotNull column b)
  | Join table column1 operator column2 =>
      ok (TableQuery.join table column1 operator column2 b)
  | LeftJoin table column1 operator column2 =>
      ok (TableQuery.leftJoin table column1 operator column2 b)
  | RightJoin table column1 operator column2 =>
      ok (TableQuery.rightJoin table column1 operator column2 b)
  | OrderBy column direction => TableQuery.orderBy column direction b
  | GroupBy column => ok (TableQuery.groupBy column b)
  | Distinct => ok (TableQuery.distinct b)
  | Count column => ok (TableQuery.count column b)
  | Sum column => ok (TableQuery.sum column b)
  | Avg column => ok (TableQuery.avg column b)
  | Max column => ok (TableQuery.max column b)
  | Min column => ok (TableQuery.min column b)
  | Limit number => ok (TableQuery.limit number b)
  | Page number => ok (TableQuery.page number b)
  end.

(** [b.c1(...).c2(...)...]: a call that throws ends the chain. *)
Fixpoint run (calls : list Call) (b : TableQuery.t) : result TableQuery.t :=
  match calls with
  | [] => ok b
  | c :: rest => rbind (apply c b) (run rest)
  end.

(** A call that cannot put an ill-typed [BETWEEN] or [IN] node on the
    list: every call but [where]/[orWhere] with one of these two
    operators. *)
Definition well_typed (c : Call) : bool :=
  match c with
  | Where _ operator _
  | OrWhere _ operator _ =>
      negb (String.eqb (TableQuery.default_operator operator) "BETWEEN")
      && negb (String.eqb (TableQuery.default_operator operator) "IN")
  | _ => true
  end.

(** The two combinator keywords and the two directions. *)
Definition is_combinator (s : string) : Prop := s = "AND" \/ s = "OR".

Definition is_direction (s : string) : Prop := s = "ASC" \/ s = "DESC".

(** The join keyword and fragment of the three join calls. *)
Definition join_fragment (keyword table column1 operator column2 : string) : string :=
  keyword ++ " " ++ dq ++ table ++ dq ++ " ON " ++ column1 ++ " " ++ operator
    ++ " " ++ column2.

(** The combinators a builder holds. *)
Definition combinators_ok (b : TableQuery.t) : Prop :=
  is_combinator (TableQuery.nextType b)
  /\ Forall (fun cond => is_combinator (Condition.type cond))
            (TableQuery.conditions b).

(** The directions a builder holds. *)
Definition directions_ok (b : TableQuery.t) : Prop :=
  Forall (fun order => is_direction (OrderBy.direction order))
         (TableQuery._orderBy b).

(** A builder of table [tableName] on connection [conection] whose base
    clause is a projection from that table. *)
Definition base_ok (tableName : string) (conection : option Pg.Pool)
  (b : TableQuery.t) : Prop :=
  TableQuery.tableName b = tableName
  /\ TableQuery.conection b = conection
  /\ exists projection,
       TableQuery.query b
       = "SELECT " ++ projection ++ " FROM " ++ dq ++ tableName ++ dq.

(** Every node of the builder has a text. *)
Definition renderable (b : TableQuery.t) : Prop :=
  Forall (fun cond => exists text, Calls.node_text cond = ok text)
         (TableQuery.conditions b).

(** The three join calls and the fragment each one stores. *)
Definition is_join (c : Call) : bool :=
  match c with
  | Join _ _ _ _ | LeftJoin _ _ _ _ | RightJoin _ _ _ _ => true
  | _ => false
  end.

Definition fragment_of (c : Call) : string :=
  match c with
  | Join table column1 operator column2 =>
      join_fragment "JOIN" table column1 operator column2
  | LeftJoin table column1 operator column2 =>
      join_fragment "LEFT JOIN" table column1 operator column2
  | RightJoin table column1 operator column2 =>
      join_fragment "RIGHT JOIN" table column1 operator column2
  | _ => ""
  end.

(** Every fragment behind one space, in list order. *)
Definition spaced (fragments : list string) : string :=
  String.concat "" (map (fun fragment => " " ++ fragment) fragments).

(** The WHERE and GROUP BY clauses, empty when there is nothing to
    print. *)
Definition where_clause (whereClauses : string) : string :=
  if (0 <? String.length whereClauses)%nat
  then " WHERE " ++ whereClauses
  else "".

Definition group_clause (b : TableQuery.t) : string :=
  if (0 <? List.length (TableQuery._groupBy b))%nat
  then " GROUP BY " ++ String.concat ", " (TableQuery._groupBy b)
  else "".

End Chain.

(** ** Literals *)

Module Literal.

(** The SQL literal of a value inside a comparison: a string between
    single quotes, unchanged; anything else as JavaScript prints it. *)
Definition text (v : Js.value) : string :=
  match v with
  | Js.VStr s => "'" ++ s ++ "'"
  | _ => Js.toString v
  end.

(** The four operators [buildConditions] treats on their own. *)
Definition special (operator : string) : bool :=
  String.eqb operator "BETWEEN" || String.eqb operator "IN"
  || String.eqb operator "IS NULL" || String.eqb operator "IS NOT NULL".

End Literal.

(** ** The recovery of a missing database *)

Module Recovery.

(** The pool opened without a database, the pool opened on the target
    database, and the statement sent in between. *)
Definition admin_pool (env : Env) : Pg.Pool :=
  {| Pg.host := POSTGRES_HOST env;
     Pg.user := POSTGRES_USER env;
     Pg.password := POSTGRES_PASSWORD env;
     Pg.database := None;
     Pg.port := POSTGRES_PORT env |}.

Definition target_pool (env : Env) : Pg.Pool :=
  {| Pg.host := POSTGRES_HOST env;
     Pg.user := POSTGRES_USER env;
     Pg.password := POSTGRES_PASSWORD env;
     Pg.database := POSTGRES_DATABASE env;
     Pg.port := POSTGRES_PORT env |}.

Definition create_sql (env : Env) : string :=
  "CREATE DATABASE " ++ dq ++ tpl (POSTGRES_DATABASE env) ++ dq.

(** [l] is an initial part of [whole]. *)
Definition initial {A : Type} (l whole : list A) : Prop :=
  exists rest, (l ++ rest)%list = whole.

End Recovery.

(** ** Batches of rows *)

Module Batch.

(** The INSERT statement of a row that passed the validation. *)
Definition statement (tableName : string) (row : Js.value) : string :=
  match TableQuery.insert_sql tableName row with
  | inr sql => sql
  | inl _ => ""
  end.

(** A driver that never reports a missing database. *)
Definition never_missing {Db : Type} (driver : Driver Db) : Prop :=
  forall pool sql state d state',
    drv_query driver pool sql state = (inl d, state') ->
    Pg.code d <> Some "3D000".

(** The text every error of [insert]'s loop is wrapped in. *)
Definition wrapped (e : error) : error :=
  InsertFailed (error_message e).

End Batch.

(** ** Scripts *)

Module Script.

(** The statement [query] sends for one command. *)
Definition statement (command : string) : string := command ++ ";".

(** A piece of text without a semicolon, and one with something else than
    white space in it. *)
Definition semicolon_free (command : string) : Prop :=
  ~ In ";"%char (list_ascii_of_string command).

Definition not_blank (command : string) : Prop := Js.trim command <> "".

(** [kept pieces commands]: [commands] are the pieces that are not
    blank, every one of them and in the order of [pieces]. *)
Inductive kept : list string -> list string -> Prop :=
| kept_none : kept [] []
| kept_skip (piece : string) (pieces commands : list string) :
    Js.trim piece = "" -> kept pieces commands ->
    kept (piece :: pieces) commands
| kept_take (piece : string) (pieces commands : list string) :
    not_blank piece -> kept pieces commands ->
    kept (piece :: pieces) (piece :: commands).

End Script.

(** ** Tables and columns *)

Module Schema.

(** [interface Field]; an absent optional property is [None]
    ([VUndefined] for [defaultValue]). *)
Record Foreign : Type := {
  table : string;
  column : string
}.

Record Field : Type := {
  name : string;
  type : string;
  defaultValue : Js.value;
  length : option Js.number;
  options : option (list string);
  foreign : option Foreign
}.

(** What the schema calls throw: their own two errors, or an error of the
    execution layer passed on. *)
Inductive schema_error : Type :=
| FieldIncomplete
| DropFailed (inner : string)
| Execution (e : error).

Definition schema_message (e : schema_error) : string :=
  match e with
  | FieldIncomplete => "Cada campo debe tener un nombre y un tipo."
  | DropFailed inner => "Error al eliminar la tabla: " ++ inner
  | Execution e => error_message e
  end.

(** Truthiness of a value. *)
Definition truthy (v : Js.value) : bool :=
  match v with
  | Js.VUndefined | Js.VNull => false
  | Js.VBool b => b
  | Js.VNum Js.NaN => false
  | Js.VNum (Js.Int z) => negb (z =? 0)%Z
  | Js.VStr s => negb (String.eqb s "")
  | Js.VArr _ | Js.VObj _ => true
  end.

(** [!name || !type]. *)
Definition incomplete (field : Field) : bool :=
  String.eqb (name field) "" || String.eqb (type field) "".

(** [['VARCHAR', 'CHAR', 'TEXT', 'ENUM', 'SET'].includes(type.toUpperCase())]. *)
Definition text_type (type : string) : bool :=
  existsb (String.eqb (Js.toUpperCase type)) ["VARCHAR"; "CHAR"; "TEXT"; "ENUM"; "SET"].

(** [options.includes(word)]. *)
Definition includes (options : list string) (word : string) : bool :=
  existsb (String.eqb word) options.

(** [defaultValue === 'NONE' || defaultValue === null]. *)
Definition none_or_null (v : Js.value) : bool :=
  match v with
  | Js.VStr s => String.eqb s "NONE"
  | Js.VNull => true
  | _ => false
  end.

(** The column definition [create] maps a field to; a field without name
    or type makes the callback throw. *)
Definition create_definition (field : Field) : Schema.schema_error + string :=
  if incomplete field then inl FieldIncomplete
  else
    let fieldDefinition :=
      if Js.truthy_num (length field) && negb (String.eqb (type field) "TEXT")
      then dq ++ name field ++ dq ++ " " ++ type field ++ "("
             ++ Js.num_toString (TableQuery.num_of (length field)) ++ ")"
      else dq ++ name field ++ dq ++ " " ++ type field in
    let fieldDefinition :=
      if truthy (defaultValue field)
      then fieldDefinition
           ++ (if text_type (type field)
               then (if truthy (defaultValue field)
                     then " DEFAULT '" ++ Js.toString (defaultValue field) ++ "'"
                     else " DEFAULT NULL")
               else if none_or_null (defaultValue field)
                    then ""
                    else (if truthy (defaultValue field)
                          then " DEFAULT " ++ Js.toString (defaultValue field)
                          else " DEFAULT NULL"))
      else fieldDefinition in
    let fieldDefinition :=
      match options field with
      | Some opts =>
          let withPrimary :=
            if includes opts "primary"
            then fieldDefinition ++ " PRIMARY KEY"
            else fieldDefinition in
          if includes opts "unique" then withPrimary ++ " UNIQUE" else withPrimary
      | None => fieldDefinition
      end in
    let fieldDefinition :=
      match foreign field with
      | Some key =>
          fieldDefinition ++ ", FOREIGN KEY (" ++ dq ++ name field ++ dq
            ++ ") REFERENCES " ++ dq ++ table key ++ dq ++ "(" ++ dq ++ column key
            ++ dq ++ ")"
      | None => fieldDefinition
      end in
    inr fieldDefinition.

(** [fields.map(callback)] for a callback that may throw. *)
Fixpoint map_fields (f : Field -> schema_error + string) (fields : list Field)
  : schema_error + list string :=
  match fields with
  | [] => inr []
  | field :: rest =>
      match f field with
      | inl e => inl e
      | inr text =>
          match map_fields f rest with
          | inl e => inl e
          | inr texts => inr (text :: texts)
          end
      end
  end.

(** The statement of [create]. *)
Definition create_sql (tableName : string) (fields : list Field)
  : schema_error + string :=
  match map_fields create_definition fields with
  | inl e => inl e
  | inr definitions =>
      inr ("CREATE TABLE IF NOT EXISTS " ++ dq ++ tableName ++ dq ++ " ("
             ++ String.concat ", " definitions ++ ")")
  end.

(** The column definition of [Columns.add]. *)
Definition add_definition (field : Field) : schema_error + string :=
  if incomplete field then inl FieldIncomplete
  else
    let fieldDefinition :=
      if Js.truthy_num (length field) && negb (String.eqb (type field) "TEXT")
      then dq ++ name field ++ dq ++ " " ++ type field ++ "("
             ++ Js.num_toString (TableQuery.num_of (length field)) ++ ")"
      else dq ++ name field ++ dq ++ " " ++ type field in
    let fieldDefinition :=
      if truthy (defaultValue field)
      then fieldDefinition
           ++ (if text_type (type field)
               then (if truthy (defaultValue field)
                     then " DEFAULT '" ++ Js.toString (defaultValue field) ++ "'"
                     else " DEFAULT NULL")
               else if none_or_null (defaultValue field)
                    then ""
                    else (if truthy (defaultValue field)
                          then " DEFAULT " ++ Js.toString (defaultValue field)
                          else " DEFAULT NULL"))
      else fieldDefinition in
    let fieldDefinition :=
      match options field with
      | Some opts =>
          let withPrimary :=
            if includes opts "primary"
            then fieldDefinition ++ " PRIMARY KEY"
            else fieldDefinition in
          if includes opts "unique" then withPrimary ++ " UNIQUE" else withPrimary
      | None => fieldDefinition
      end in
    inr fieldDefinition.

(** The type definition of [Columns.edit]: as above without the quoted
    name in front. *)
Definition edit_definition (field : Field) : schema_error + string :=
  if incomplete field then inl FieldIncomplete
  else
    let fieldDefinition :=
      if Js.truthy_num (length field) && negb (String.eqb (type field) "TEXT")
      then type field ++ "("
             ++ Js.num_toString (TableQuery.num_of (length field)) ++ ")"
      else type field in
    let fieldDefinition :=
      if truthy (defaultValue field)
      then fieldDefinition
           ++ (if text_type (type field)
               then (if truthy (defaultValue field)
                     then " DEFAULT '" ++ Js.toString (defaultValue field) ++ "'"
                     else " DEFAULT NULL")
               else if none_or_null (defaultValue field)
                    then ""
                    else (if truthy (defaultValue field)
                          then " DEFAULT " ++ Js.toString (defaultValue field)
                          else " DEFAULT NULL"))
      else fieldDefinition in
    let fieldDefinition :=
      match options field with
      | Some opts =>
          let withPrimary :=
            if includes opts "primary"
            then fieldDefinition ++ " PRIMARY KEY"
            else fieldDefinition in
          if includes opts "unique" then withPrimary ++ " UNIQUE" else withPrimary
      | None => fieldDefinition
      end in
    inr fieldDefinition.

(** [class Columns]. *)
Record Columns : Type := {
  conection : option Pg.Pool;
  tableName : string
}.

(** [TableQuery.columns()]. *)
Definition columns (b : TableQuery.t) : Columns :=
  {| conection := TableQuery.conection b; tableName := TableQuery.tableName b |}.

Section Calls.

Context {Db : Type} (env : Env) (driver : Driver Db).

(** Passing an error of the execution layer on. *)
Definition passing {S A : Type} (c : M S A) : S -> (schema_error + A) * S :=
  fun s =>
    match c s with
    | (inl e, s') => (inl (Execution e), s')
    | (inr a, s') => (inr a, s')
    end.

(** [TableQuery.create(fields)]. *)
Definition create (fields : list Field) (st : @TableQuery.Run Db)
  : (schema_error + bool) * @TableQuery.Run Db :=
  match create_sql (TableQuery.tableName (TableQuery.self st)) fields with
  | inl e => (inl e, st)
  | inr sqlQuery =>
      match passing (TableQuery.get_response env driver sqlQuery) st with
      | (inl e, st') => (inl e, st')
      | (inr _, st') => (inr true, st')
      end
  end.

(** [TableQuery.drop()]: every error comes back wrapped. *)
Definition drop (st : @TableQuery.Run Db)
  : (schema_error + bool) * @TableQuery.Run Db :=
  let sqlQuery :=
    "DROP TABLE IF EXISTS " ++ dq ++ TableQuery.tableName (TableQuery.self st) ++ dq in
  match TableQuery.get_response env driver sqlQuery st with
  | (inl e, st') => (inl (DropFailed (error_message e)), st')
  | (inr _, st') => (inr true, st')
  end.

(** [Columns.#get_response(sql)]: one attempt, no recovery. *)
Definition columns_get_response (self : Columns) (sql : string)
  : M (World Db) Pg.Rows :=
  match conection self with
  | None => raise NoConnection
  | Some pool => try_catch (world_query driver pool sql) (fun error => raise error)
  end.

(** One statement of a [Columns] call, or the error of its definition. *)
Definition columns_run (self : Columns) (statement : schema_error + string)
  (w : World Db) : (schema_error + bool) * World Db :=
  match statement with
  | inl e => (inl e, w)
  | inr sqlQuery =>
      match passing (columns_get_response self sqlQuery) w with
      | (inl e, w') => (inl e, w')
      | (inr _, w') => (inr true, w')
      end
  end.

Definition add_sql (self : Columns) (field : Field) : schema_error + string :=
  match add_definition field with
  | inl e => inl e
  | inr fieldDefinition =>
      inr ("ALTER TABLE " ++ dq ++ tableName self ++ dq ++ " ADD COLUMN "
             ++ fieldDefinition)
  end.

Definition edit_sql (self : Columns) (field : Field) : schema_error + string :=
  match edit_definition field with
  | inl e => inl e
  | inr fieldDefinition =>
      inr ("ALTER TABLE " ++ dq ++ tableName self ++ dq ++ " ALTER COLUMN "
             ++ dq ++ name field ++ dq ++ " TYPE " ++ fieldDefinition)
  end.

Definition drop_column_sql (self : Columns) (columnName : string) : string :=
  "ALTER TABLE " ++ dq ++ tableName self ++ dq ++ " DROP COLUMN "
    ++ dq ++ columnName ++ dq.

(** [Columns.add(field)], [Columns.edit(field)], [Columns.drop(name)]. *)
Definition columns_add (self : Columns) (field : Field) :=
  columns_run self (add_sql self field).

Definition columns_edit (self : Columns) (field : Field) :=
  columns_run self (edit_sql self field).

Definition columns_drop (self : Columns) (columnName : string) :=
  columns_run self (inr (drop_column_sql self columnName)).

End Calls.

(** The parts a column definition is made of. *)
Definition type_text (field : Field) : string :=
  if Js.truthy_num (length field) && negb (String.eqb (type field) "TEXT")
  then type field ++ "(" ++ Js.num_toString (TableQuery.num_of (length field)) ++ ")"
  else type field.

Definition default_text (field : Field) : string :=
  if truthy (defaultValue field)
  then if text_type (type field)
       then " DEFAULT '" ++ Js.toString (defaultValue field) ++ "'"
       else if none_or_null (defaultValue field)
            then ""
            else " DEFAULT " ++ Js.toString (defaultValue field)
  else "".

Definition options_text (field : Field) : string :=
  match options field with
  | Some opts =>
      (if includes opts "primary" then " PRIMARY KEY" else "")
        ++ (if includes opts "unique" then " UNIQUE" else "")
  | None => ""
  end.

Definition foreign_text (field : Field) : string :=
  match foreign field with
  | Some key =>
      ", FOREIGN KEY (" ++ dq ++ name field ++ dq ++ ") REFERENCES " ++ dq
        ++ table key ++ dq ++ "(" ++ dq ++ column key ++ dq ++ ")"
  | None => ""
  end.

(** A field with its default taken away. *)
Definition without_default (field : Field) : Field :=
  {| name := name field;
     type := type field;
     defaultValue := Js.VUndefined;
     length := length field;
     options := options field;
     foreign := foreign field |}.

End Schema.

(** ** Terminal operations of the JavaScript builder *)

Module LegacyRun.

(** What these operations throw: the JavaScript builder has its own text
    for the missing connection; the rest is shared. *)
Inductive failure : Type :=
| ConnectionUndefined
| Thrown (e : error).

Definition failure_message (f : failure) : string :=
  match f with
  | ConnectionUndefined => "La conexión no está definida."
  | Thrown e => error_message e
  end.

(** [where(column, operator, value)]: the operator is stored as given. *)
Definition where_ (column : string) (operator : option string)
  (value : Js.value) (b : TableQuery.t) : TableQuery.t :=
  TableQuery.set_nextType "AND"
    (TableQuery.push
       {| Condition.column := Some column;
          Condition.operator := operator;
          Condition.value := value;
          Condition.query := None;
          Condition.type := TableQuery.nextType b;
          Condition.isGroup := false |} b).

Section Calls.

Context {Db : Type} (env : Env) (driver : Driver Db).

Definition Run : Type := @TableQuery.Run Db.

(** A computation over the builder and the world that may throw. *)
Definition L (A : Type) : Type := Run -> (failure + A) * Run.

Definition lbind {A B : Type} (c : L A) (k : A -> L B) : L B :=
  fun st =>
    match c st with
    | (inl f, st') => (inl f, st')
    | (inr a, st') => k a st'
    end.

(** A call on the world, its error passed on. *)
Definition on_world {A : Type} (c : M (World Db) A) : L A :=
  fun st =>
    match c (TableQuery.world st) with
    | (inl e, w') =>
        (inl (Thrown e), {| TableQuery.self := TableQuery.self st;
                            TableQuery.world := w' |})
    | (inr a, w') =>
        (inr a, {| TableQuery.self := TableQuery.self st;
                   TableQuery.world := w' |})
    end.

Definition assign (pool : Pg.Pool) : L unit :=
  fun st =>
    (inr tt, {| TableQuery.self := TableQuery.set_conection (Some pool) (TableQuery.self st);
                TableQuery.world := TableQuery.world st |}).

(** The pool on the server's default database, and the statement sent
    through it. *)
Definition default_pool : Pg.Pool :=
  {| Pg.host := POSTGRES_HOST env;
     Pg.user := POSTGRES_USER env;
     Pg.password := POSTGRES_PASSWORD env;
     Pg.database := Some "postgres";
     Pg.port := POSTGRES_PORT env |}.

Definition target_pool : Pg.Pool :=
  {| Pg.host := POSTGRES_HOST env;
     Pg.user := POSTGRES_USER env;
     Pg.password := POSTGRES_PASSWORD env;
     Pg.database := POSTGRES_DATABASE env;
     Pg.port := POSTGRES_PORT env |}.

Definition create_sql : string :=
  "CREATE DATABASE " ++ tpl (POSTGRES_DATABASE env) ++ ";".

(** [client = await pool.connect(); result = await client.query(sql)]. *)
Definition connect_and_query (pool : Pg.Pool) (sql : string) : L Pg.Rows :=
  lbind (on_world (world_connect driver pool)) (fun _ =>
  on_world (world_query driver pool sql)).

(** [error.code === '3D000']. *)
Definition database_missing (f : failure) : bool :=
  match f with
  | Thrown e => TableQuery.database_missing e
  | ConnectionUndefined => false
  end.

(** [#get_response(sql)] of the JavaScript builder. *)
Definition get_response (sql : string) : L Pg.Rows :=
  fun st =>
    match TableQuery.conection (TableQuery.self st) with
    | None => (inl ConnectionUndefined, st)
    | Some pool =>
        match connect_and_query pool sql st with
        | (inr rows, st') => (inr rows, st')
        | (inl error, st') =>
            if database_missing error then
              lbind (on_world (world_end driver pool)) (fun _ =>
              lbind (assign default_pool) (fun _ =>
              lbind (on_world (world_connect driver default_pool)) (fun _ =>
              lbind (on_world (world_query driver default_pool create_sql)) (fun _ =>
              lbind (on_world (world_end driver default_pool)) (fun _ =>
              lbind (assign target_pool) (fun _ =>
              connect_and_query target_pool sql)))))) st'
            else (inl error, st')
        end
    end.

(** [first()]. *)
Definition first : L Js.value :=
  fun st =>
    match Legacy.buildQuery true (TableQuery.self st) with
    | inl e => (inl (Thrown e), st)
    | inr sqlQuery =>
        match get_response sqlQuery st with
        | (inl f, st') => (inl f, st')
        | (inr rows, st') => (inr (TableQuery.first_or_null rows), st')
        end
    end.

(** The INSERT statement of one row: names and table unquoted. *)
Definition insert_sql (tableName : string) (row : Js.value) : result string :=
  rbind (TableQuery.object_keys row) (fun ks =>
  rbind (TableQuery.object_values row) (fun vs =>
  let columns := String.concat ", " ks in
  let placeholders := Js.join ", " (map TableQuery.insert_literal vs) in
  ok ("INSERT INTO " ++ tableName ++ " (" ++ columns ++ ") VALUES ("
        ++ placeholders ++ ")"))).

(** [result.insertId || 0] on the rows the execution layer returns: an
    array has no such property. *)
Definition inserted_id (rows : Pg.Rows) : Js.value := Js.VNum (Js.Int 0).

(** The body of [for (const row of data)], with [results] so far. *)
Fixpoint insert_rows (data : list Js.value) (results : list Js.value)
  : L (list Js.value) :=
  match data with
  | [] => fun st => (inr results, st)
  | row :: rest =>
      fun st =>
        match insert_sql (TableQuery.tableName (TableQuery.self st)) row with
        | inl e => (inl (Thrown e), st)
        | inr sqlQuery =>
            match get_response sqlQuery st with
            | (inl f, st') => (inl f, st')
            | (inr rows, st') =>
                let st'' :=
                  {| TableQuery.self :=
                       where_ "id" (Some "=") (inserted_id rows) (TableQuery.self st');
                     TableQuery.world := TableQuery.world st' |} in
                match first st'' with
                | (inl f, st3) => (inl f, st3)
                | (inr insertedRow, st3) =>
                    insert_rows rest (results ++ [insertedRow]) st3
                end
            end
        end
  end.

(** [insert(data)]. *)
Definition insert (data : Js.value) : L (list Js.value) :=
  fun st =>
    match data with
    | Js.VArr items =>
        if forallb TableQuery.is_object items
        then match insert_rows items [] st with
             | (inl f, st') =>
                 (inl (Thrown (InsertFailed (failure_message f))), st')
             | (inr results, st') => (inr results, st')
             end
        else (inl (Thrown InsertNotObjects), st)
    | _ => (inl (Thrown InsertNotArray), st)
    end.

End Calls.

(** The lookup condition [insert] leaves on the builder for each row. *)
Definition lookup_data : option string * option string * Js.value :=
  (Some "id", Some "=", Js.VNum (Js.Int 0)).

End LegacyRun.

(** ** The environment check run at start-up *)

Module CheckEnv.

(** [requiredEnvVars], in key order. *)
Definition requiredEnvVars : list (string * string) :=
  [("MYSQL_DATABASE", "database");
   ("MYSQL_USER", "user_name");
   ("MYSQL_PASSWORD", "password");
   ("MYSQL_HOST", "localhost");
   ("MYSQL_PORT", "3306")].

(** [s.includes(p)]. *)
Fixpoint includes (s p : string) : bool :=
  String.prefix p s
  || match s with
     | EmptyString => false
     | String _ rest => includes rest p
     end.

(** [!process.env[varName]]: unset or empty. *)
Definition unset (env : string -> option string) (varName : string) : bool :=
  match env varName with
  | None => true
  | Some value => String.eqb value ""
  end.

(** The line feed. *)
Definition lf : string := String (ascii_of_nat 10) EmptyString.

(** One round of [missingVars.forEach]: the variable is added with its
    default unless the text already holds its name followed by [=]. *)
Definition add_missing (envFileContent : string) (var : string * string) : string :=
  if negb (includes envFileContent (fst var ++ "="))
  then envFileContent ++ lf ++ fst var ++ "=" ++ snd var
  else envFileContent.

(** What the check does to the [.env] file: nothing, or a new content. *)
Inductive outcome : Type :=
| AllConfigured
| Written (content : string).

(** [checkEnvVariables()], given [process.env] after [dotenv.config()] and
    the content of the [.env] file when it exists. *)
Definition checkEnvVariables (env : string -> option string)
  (file : option string) : outcome :=
  let missingVars := filter (fun var => unset env (fst var)) requiredEnvVars in
  if (0 <? List.length missingVars)%nat
  then
    let envFileContent := match file with Some text => text | None => "" end in
    Written (Js.trim (fold_left add_missing missingVars envFileContent))
  else AllConfigured.

(** A text that starts and ends with something else than white space. *)
Definition solid (p : string) : Prop :=
  exists first middle last,
    p = String first (middle ++ String last EmptyString)
    /\ Js.is_space first = false /\ Js.is_space last = false.

(** A process environment with no variable set. *)
Definition nothing_set : string -> option string := fun _ => None.

End CheckEnv.

(** ** The server on a list of statements *)

Module Server.

(** What became of a list of statements handed to the driver one after
    the other: the row sets of those it answered, the rejection that
    ended the run if there was one, the statements that reached it, and
    the state it is left in. *)
Record Served (Db : Type) : Type := {
  answered : list Pg.Rows;
  rejection : option Pg.DriverError;
  reached : list string;
  state : Db
}.
Arguments answered {Db}.
Arguments rejection {Db}.
Arguments reached {Db}.
Arguments state {Db}.

Section Serve.

Context {Db : Type} (driver : Driver Db).

(** The driver alone on [statements], each one sent on [pool] to the
    state the one before left.  The first rejection ends the run: the
    rejected statement is the last one to reach the server. *)
Fixpoint serve (pool : Pg.Pool) (statements : list string) (server : Db)
  : Served Db :=
  match statements with
  | [] =>
      {| answered := []; rejection := None; reached := []; state := server |}
  | sql :: rest =>
      match drv_query driver pool sql server with
      | (inl d, server') =>
          {| answered := []; rejection := Some d; reached := [sql];
             state := server' |}
      | (inr rows, server') =>
          let later := serve pool rest server' in
          {| answered := rows :: answered later;
             rejection := rejection later;
             reached := sql :: reached later;
             state := state later |}
      end
  end.

End Serve.

(** The number of statements that reached the server: those it answered,
    and the rejected one. *)
Definition reached_count {Db : Type} (s : Served Db) : nat :=
  List.length (answered s)
  + match rejection s with Some _ => 1 | None => 0 end.

End Server.

(** ** The conversions on concrete values *)

Example toString_array :
  Js.toString (Js.VArr [Js.VNum (Js.Int 1); Js.VNull; Js.VStr "a"]) = "1,,a".
Proof. reflexivity. Qed.

Example split_trailing : Js.split ";" "a; b;" = ["a"; " b"; ""].
Proof. reflexivity. Qed.

Example trim_both : Js.trim "  a b  " = "a b".
Proof. reflexivity. Qed.

Example negative_number : Js.num_toString (Js.Int (-12)) = "-12".
Proof. reflexivity. Qed.

Example commands_skip_blank :
  Postgres.commands_of "SELECT 1; ;SELECT 2;" = ["SELECT 1"; "SELECT 2"].
Proof. reflexivity. Qed.

(** ** Basic facts about strings and the error monad *)

Lemma append_nil_r (s : string) : s ++ "" = s.
Proof. induction s as [|c s IH]; simpl; [reflexivity | now rewrite IH]. Qed.

Lemma append_assoc (s1 s2 s3 : string) : (s1 ++ s2) ++ s3 = s1 ++ s2 ++ s3.
Proof. induction s1 as [|c s1 IH]; simpl; [reflexivity | now rewrite IH]. Qed.

Lemma length_append (s1 s2 : string) :
  String.length (s1 ++ s2) = String.length s1 + String.length s2.
Proof. induction s1 as [|c s1 IH]; simpl; [reflexivity | now rewrite IH]. Qed.

Lemma concat_empty_cons (x : string) (xs : list string) :
  String.concat "" (x :: xs) = x ++ String.concat "" xs.
Proof.
  destruct xs as [|y ys]; simpl.
  - now rewrite append_nil_r.
  - reflexivity.
Qed.

Lemma prefix_append (p s : string) : String.prefix p (p ++ s) = true.
Proof.
  induction p as [|c p IH]; simpl.
  - now destruct s.
  - destruct (ascii_dec c c); [exact IH | contradiction].
Qed.

Lemma prefix_append_assoc (p s1 s2 : string) :
  String.prefix p s1 = true -> String.prefix p (s1 ++ s2) = true.
Proof.
  revert s1; induction p as [|c p IH]; intros s1 H.
  - now destruct (s1 ++ s2).
  - destruct s1 as [|d s1]; simpl in *; [discriminate|].
    destruct (ascii_dec c d); [now apply IH | discriminate].
Qed.

Lemma drop_append (p s : string) : Js.drop (String.length p) (p ++ s) = s.
Proof. induction p as [|c p IH]; simpl; [now destruct s | exact IH]. Qed.

(** ** Rendering the condition list *)

Lemma render_condition_later (index : nat) (cond : Condition.t) :
  render_condition (S index) cond = render_condition 1 cond.
Proof. reflexivity. Qed.

Lemma map_index_later (index : nat) (conds : list Condition.t) :
  map_index render_condition (S index) conds = map_index render_condition 1 conds.
Proof.
  revert index; induction conds as [|c cs IH]; intro index; simpl.
  - reflexivity.
  - rewrite (IH (S index)), (IH 1). reflexivity.
Qed.

Section ChainFacts.

Import Calls.

Lemma apply_pending_and (c : WhereCall) (b : TableQuery.t) :
  TableQuery.nextType b = "AND" ->
  TableQuery.conditions (apply c b) = (TableQuery.conditions b ++ [node_of c])%list
  /\ TableQuery.nextType (apply c b) = "AND".
Proof.
  intro H; destruct c; simpl; unfold TableQuery.where_, TableQuery.orWhere;
    simpl; rewrite ?H; auto.
Qed.

Lemma chain_pending_and (calls : list WhereCall) (b : TableQuery.t) :
  TableQuery.nextType b = "AND" ->
  TableQuery.conditions (chain calls b)
  = (TableQuery.conditions b ++ map node_of calls)%list
  /\ TableQuery.nextType (chain calls b) = "AND".
Proof.
  revert b; induction calls as [|c cs IH]; intros b H; simpl.
  - now rewrite app_nil_r.
  - destruct (apply_pending_and c b H) as [Hc Hn].
    destruct (IH (apply c b) Hn) as [Hcs Hns].
    unfold chain in *. rewrite Hcs, Hc, <- app_assoc. auto.
Qed.

Lemma conditionStr_node_of (c : WhereCall) : conditionStr (node_of c) = predicate c.
Proof. destruct c; reflexivity. Qed.

Lemma render_rest (calls : list WhereCall) :
  rbind (map_index render_condition 1 (map node_of calls))
        (fun parts => ok (String.concat "" parts))
  = stated_rest calls.
Proof.
  induction calls as [|c cs IH]; [reflexivity|].
  cbn [map map_index stated_rest].
  rewrite map_index_later, <- IH.
  unfold render_condition at 1.
  replace (Condition.isGroup (node_of c)) with false by (now destruct c).
  rewrite conditionStr_node_of.
  replace (Condition.type (node_of c)) with (keyword c) by (now destruct c).
  destruct (predicate c) as [e|p]; [reflexivity|].
  destruct (map_index render_condition 1 (map node_of cs)) as [e|parts];
    [reflexivity|].
  cbn [rbind ok Nat.eqb].
  rewrite concat_empty_cons. f_equal.
  now rewrite !append_assoc.
Qed.

End ChainFacts.

(** Every call adds one node that holds the call's column, operator and
    value, after the nodes already there. *)
Lemma chain_preserves_order (calls : list Calls.WhereCall) (b : TableQuery.t) :
  map Calls.node_data (TableQuery.conditions (Calls.chain calls b))
  = (map Calls.node_data (TableQuery.conditions b) ++ map Calls.data calls)%list.
Proof.
  revert b; induction calls as [|c cs IH]; intro b.
  - cbn. now rewrite app_nil_r.
  - change (Calls.chain (c :: cs) b) with (Calls.chain cs (Calls.apply c b)).
    rewrite IH. destruct c; cbn [Calls.apply map];
      unfold TableQuery.where_, TableQuery.orWhere, TableQuery.push;
      cbn [TableQuery.conditions TableQuery.set_nextType TableQuery.set_conditions];
      rewrite map_app, <- app_assoc; reflexivity.
Qed.

Lemma render_later_nodes (conds : list Condition.t) :
  rbind (map_index render_condition 1 conds)
        (fun parts => ok (String.concat "" parts))
  = Calls.stated_later_nodes conds.
Proof.
  induction conds as [|c cs IH]; [reflexivity|].
  cbn [map_index Calls.stated_later_nodes].
  rewrite map_index_later, <- IH.
  unfold render_condition at 1, Calls.node_text.
  cbn [Nat.eqb].
  destruct (Condition.isGroup c).
  - cbn [rbind ok].
    destruct (map_index render_condition 1 cs) as [e|parts]; [reflexivity|].
    cbn [rbind ok]. rewrite concat_empty_cons. f_equal.
    now rewrite !append_assoc.
  - destruct (conditionStr c) as [e|text]; [reflexivity|].
    cbn [rbind ok].
    destruct (map_index render_condition 1 cs) as [e|parts]; [reflexivity|].
    cbn [rbind ok]. rewrite concat_empty_cons. f_equal.
    now rewrite !append_assoc.
Qed.

(** Whatever the builder holds, its first node is rendered bare and each
    later node behind its own combinator. *)
Lemma buildConditions_nodes (b : TableQuery.t) :
  TableQuery.buildConditions b = Calls.stated_nodes (TableQuery.conditions b).
Proof.
  unfold TableQuery.buildConditions.
  destruct (TableQuery.conditions b) as [|c cs]; [reflexivity|].
  cbn [map_index Calls.stated_nodes].
  rewrite <- render_later_nodes.
  unfold render_condition at 1, Calls.node_text. cbn [Nat.eqb].
  destruct (Condition.isGroup c).
  - cbn [rbind ok].
    destruct (map_index render_condition 1 cs) as [e|parts]; [reflexivity|].
    cbn [rbind ok]. now rewrite concat_empty_cons.
  - destruct (conditionStr c) as [e|text]; [reflexivity|].
    cbn [rbind ok].
    destruct (map_index render_condition 1 cs) as [e|parts]; [reflexivity|].
    cbn [rbind ok]. now rewrite concat_empty_cons.
Qed.

(** A call with an operator other than [BETWEEN] and [IN] always
    renders its predicate. *)
Lemma predicate_plain (c : Calls.WhereCall) :
  Calls.plain c = true -> exists text, Calls.predicate c = ok text.
Proof.
  assert (H : forall column op value type,
    String.eqb op "BETWEEN" = false -> String.eqb op "IN" = false ->
    exists text, conditionStr (TableQuery.leaf column op value type) = ok text).
  { intros column op value type Hb Hi. unfold conditionStr, operator_is.
    cbn [TableQuery.leaf Condition.operator Condition.column Condition.value].
    rewrite Hb, Hi.
    destruct (String.eqb op "IS NULL"); [eexists; reflexivity|].
    destruct (String.eqb op "IS NOT NULL"); eexists; reflexivity. }
  destruct c as [column operator value | column operator value];
    unfold Calls.plain, Calls.predicate; intro Hp;
    apply andb_prop in Hp; destruct Hp as [Hb Hi];
    apply negb_true_iff in Hb, Hi; now apply H.
Qed.

Lemma stated_rest_plain (calls : list Calls.WhereCall) :
  forallb Calls.plain calls = true -> exists text, Calls.stated_rest calls = ok text.
Proof.
  induction calls as [|c cs IH]; cbn [forallb Calls.stated_rest].
  - intros _. now exists "".
  - intro H. apply andb_prop in H. destruct H as [Hc Hcs].
    destruct (predicate_plain c Hc) as [p ->].
    destruct (IH Hcs) as [r ->]. eexists; reflexivity.
Qed.

(** With such calls only, the conditions always render. *)
Lemma stated_plain (calls : list Calls.WhereCall) :
  forallb Calls.plain calls = true -> exists text, Calls.stated calls = ok text.
Proof.
  destruct calls as [|c cs]; cbn [forallb Calls.stated].
  - intros _. now exists "".
  - intro H. apply andb_prop in H. destruct H as [Hc Hcs].
    destruct (predicate_plain c Hc) as [p ->].
    destruct (stated_rest_plain cs Hcs) as [r ->]. eexists; reflexivity.
Qed.

Example three_calls_render :
  TableQuery.buildConditions
    (Calls.chain [Calls.Where "age" (Some ">") (Js.VNum (Js.Int 18));
                  Calls.OrWhere "name" None (Js.VStr "Jane");
                  Calls.Where "city" (Some "=") (Js.VStr "Lima")]
       (TableQuery.new "users" None))
  = ok "age > 18 OR name = 'Jane' AND city = 'Lima'".
Proof. reflexivity. Qed.

(** C1. For every sequence of [where]/[orWhere] calls on a builder, the
    nodes follow the call order, and [buildConditions()] renders the first
    node bare and each later one behind exactly one keyword, its own,
    between single spaces.  On a new builder that keyword is [AND] for
    [where] and [OR] for [orWhere], and the whole text is the stated
    rendering of the calls.  A predicate that throws while it is rendered
    makes both sides throw the same error. *)
Theorem buildConditions_call_order :
  forall (b : TableQuery.t) (calls : list Calls.WhereCall),
    map Calls.node_data (TableQuery.conditions (Calls.chain calls b))
    = (map Calls.node_data (TableQuery.conditions b) ++ map Calls.data calls)%list
    /\ TableQuery.buildConditions (Calls.chain calls b)
       = Calls.stated_nodes (TableQuery.conditions (Calls.chain calls b))
    /\ forall (tableName : string) (conection : option Pg.Pool),
         TableQuery.buildConditions
           (Calls.chain calls (TableQuery.new tableName conection))
         = Calls.stated calls.
Proof.
  intros b calls. split; [apply chain_preserves_order|].
  split; [apply buildConditions_nodes|].
  intros tableName conection.
  unfold TableQuery.buildConditions.
  destruct (chain_pending_and calls (TableQuery.new tableName conection) eq_refl)
    as [Hc _].
  rewrite Hc. cbn [TableQuery.conditions TableQuery.new app].
  destruct calls as [|c cs]; [reflexivity|].
  cbn [map map_index Calls.stated].
  pose proof (render_rest cs) as Hrest.
  unfold render_condition at 1.
  replace (Condition.isGroup (Calls.node_of c)) with false by (now destruct c).
  rewrite conditionStr_node_of.
  destruct (Calls.predicate c) as [e|p]; [reflexivity|].
  rewrite <- Hrest.
  destruct (map_index render_condition 1 (map Calls.node_of cs)) as [e|parts];
    [reflexivity|].
  cbn [rbind ok Nat.eqb].
  now rewrite concat_empty_cons.
Qed.

(** ** What a rendered condition list looks like *)

Lemma length_append_pos_l (s1 s2 : string) :
  0 < String.length s1 -> 0 < String.length (s1 ++ s2).
Proof. rewrite length_append; lia. Qed.

Lemma length_append_pos_r (s1 s2 : string) :
  0 < String.length s2 -> 0 < String.length (s1 ++ s2).
Proof. rewrite length_append; lia. Qed.

Lemma conditionStr_shape (cond : Condition.t) :
  conditionStr cond = inl TypeError
  \/ exists text, conditionStr cond = inr text /\ 0 < String.length text.
Proof.
  assert (Hok : forall s1 s2 : string, 0 < String.length s2 ->
    exists text, ok (s1 ++ s2) = inr text /\ 0 < String.length text).
  { intros s1 s2 Hlen. eexists; split; [reflexivity|].
    now apply length_append_pos_r. }
  unfold conditionStr.
  destruct (operator_is cond "BETWEEN").
  - destruct (destructure2 (Condition.value cond)) as [e|[v1 v2]] eqn:Hd.
    + left. unfold destructure2 in Hd.
      destruct (Condition.value cond); inversion Hd; reflexivity.
    + right. apply Hok. simpl; lia.
  - destruct (operator_is cond "IN").
    + destruct (Condition.value cond); try (left; reflexivity).
      right. apply Hok. simpl; lia.
    + destruct (operator_is cond "IS NULL"); [right; apply Hok; simpl; lia|].
      destruct (operator_is cond "IS NOT NULL"); right; apply Hok; simpl; lia.
Qed.

Lemma render_condition_shape (index : nat) (cond : Condition.t) :
  render_condition index cond = inl TypeError
  \/ exists text, render_condition index cond = inr text /\ 0 < String.length text.
Proof.
  unfold render_condition.
  destruct (Condition.isGroup cond).
  - right. eexists; split; [reflexivity|].
    apply length_append_pos_r; simpl; lia.
  - destruct (conditionStr_shape cond) as [-> | (text & -> & Hlen)].
    + now left.
    + right. eexists; split; [reflexivity|].
      now apply length_append_pos_r.
Qed.

Lemma map_index_shape (index : nat) (conds : list Condition.t) :
  map_index render_condition index conds = inl TypeError
  \/ exists parts,
       map_index render_condition index conds = inr parts
       /\ List.length parts = List.length conds
       /\ Forall (fun text => 0 < String.length text) parts.
Proof.
  revert index; induction conds as [|c cs IH]; intro index.
  - right. exists []. repeat split; constructor.
  - cbn [map_index].
    destruct (render_condition_shape index c) as [-> | (text & -> & Hlen)];
      [now left|].
    destruct (IH (S index)) as [-> | (parts & -> & Hn & Hall)]; [now left|].
    right. exists (text :: parts). repeat split.
    + simpl; now rewrite Hn.
    + now constructor.
Qed.

(** A builder with at least one condition renders a non-empty condition
    text, unless a predicate throws a [TypeError] on the way. *)
Lemma buildConditions_nonempty (b : TableQuery.t) :
  TableQuery.conditions b <> [] ->
  TableQuery.buildConditions b = inl TypeError
  \/ exists text,
       TableQuery.buildConditions b = inr text /\ 0 < String.length text.
Proof.
  intro Hne. unfold TableQuery.buildConditions.
  destruct (map_index_shape 0 (TableQuery.conditions b))
    as [-> | (parts & -> & Hn & Hall)]; [now left|].
  right. eexists; split; [reflexivity|].
  destruct parts as [|p ps].
  - destruct (TableQuery.conditions b); [congruence | discriminate].
  - rewrite concat_empty_cons. apply length_append_pos_l.
    now inversion Hall.
Qed.

Lemma buildConditions_empty (b : TableQuery.t) :
  TableQuery.conditions b = [] -> TableQuery.buildConditions b = inr "".
Proof. intro H. unfold TableQuery.buildConditions. now rewrite H. Qed.

(** ** The execution layer *)

Lemma only_raises_ret {S A : Type} (P : error -> Prop) (a : A) :
  only_raises P (@ret S A a).
Proof. intros s e H; discriminate. Qed.

Lemma only_raises_raise {S A : Type} (P : error -> Prop) (e : error) :
  P e -> only_raises P (@raise S A e).
Proof. intros He s e' H; inversion H; now subst. Qed.

Lemma only_raises_bind {S A B : Type} (P : error -> Prop)
  (c : M S A) (k : A -> M S B) :
  only_raises P c -> (forall a, only_raises P (k a)) ->
  only_raises P (bind c k).
Proof.
  intros Hc Hk s e. unfold bind.
  destruct (c s) as [[e'|a] s'] eqn:Hcs.
  - intro H; inversion H; subst. apply (Hc s). now rewrite Hcs.
  - apply Hk.
Qed.

Lemma only_raises_try_catch {S A : Type} (P Q : error -> Prop)
  (c : M S A) (handler : error -> M S A) :
  only_raises Q c -> (forall e, Q e -> only_raises P (handler e)) ->
  only_raises P (try_catch c handler).
Proof.
  intros Hc Hh s e. unfold try_catch.
  destruct (c s) as [[e'|a] s'] eqn:Hcs.
  - apply Hh. apply (Hc s). now rewrite Hcs.
  - discriminate.
Qed.

Section ExecutionFacts.

Context {Db : Type} (env : Env) (driver : Driver Db).

Lemma world_query_raises (pool : Pg.Pool) (sql : string) :
  only_raises from_execution (world_query driver pool sql).
Proof.
  intros w e. unfold world_query.
  destruct (drv_query driver pool sql (db w)) as [[d|rows] db']; cbn.
  - intro H; inversion H; right; eauto.
  - discriminate.
Qed.

Lemma world_connect_raises (pool : Pg.Pool) :
  only_raises from_execution (world_connect driver pool).
Proof.
  intros w e. unfold world_connect.
  destruct (drv_connect driver pool (db w)) as [[d|] db']; cbn.
  - intro H; inversion H; right; eauto.
  - discriminate.
Qed.

Lemma world_end_raises (pool : Pg.Pool) :
  only_raises from_execution (world_end driver pool).
Proof.
  intros w e. unfold world_end.
  destruct (drv_end driver pool (db w)) as [[d|] db']; cbn.
  - intro H; inversion H; right; eauto.
  - discriminate.
Qed.

Lemma in_world_raises {A : Type} (P : error -> Prop) (c : M (World Db) A) :
  only_raises P c -> only_raises P (TableQuery.in_world c).
Proof.
  intros Hc st e. unfold TableQuery.in_world.
  destruct (c (TableQuery.world st)) as [r w'] eqn:Hcw; cbn.
  intro H; subst. apply (Hc (TableQuery.world st)). now rewrite Hcw.
Qed.

Lemma assign_conection_raises (P : error -> Prop) (pool : Pg.Pool) :
  only_raises P (@TableQuery.assign_conection Db pool).
Proof. intros st e H; discriminate. Qed.

Lemma get_response_raises (sql : string) :
  only_raises from_execution (TableQuery.get_response env driver sql).
Proof.
  unfold TableQuery.get_response.
  apply only_raises_bind; [intros st e H; discriminate|].
  intro b. destruct (TableQuery.conection b) as [pool|].
  - apply only_raises_try_catch with (Q := from_execution).
    + apply in_world_raises, world_query_raises.
    + intros e He. destruct (TableQuery.database_missing e).
      * repeat (apply only_raises_bind; [|intros _]);
          first [ apply in_world_raises;
                  first [ apply world_query_raises
                        | apply world_connect_raises
                        | apply world_end_raises ]
                | apply assign_conection_raises ].
      * now apply only_raises_raise.
  - apply only_raises_raise. now left.
Qed.

End ExecutionFacts.

(** ** The WHERE guard of [update] and [delete] *)

Section WhereGuard.

Context {Db : Type} (env : Env) (driver : Driver Db).

Lemma object_keys_error (x : Js.value) (e : error) :
  TableQuery.object_keys x = inl e -> e = TypeError.
Proof.
  unfold TableQuery.object_keys. destruct (Js.keys x); intro H; inversion H.
  reflexivity.
Qed.

Lemma update_without_conditions (data : Js.value) (st : @TableQuery.Run Db) :
  TableQuery.conditions (TableQuery.self st) = [] ->
  exists e, TableQuery.update env driver data st = (inl e, st).
Proof.
  intro Hnil. unfold TableQuery.update.
  destruct (negb (Js.typeof data =? "object") || Js.isArray data).
  - eexists; reflexivity.
  - unfold bind, lift_result, TableQuery.this.
    destruct (TableQuery.object_keys data) as [e|ks].
    + eexists; reflexivity.
    + rewrite (buildConditions_empty _ Hnil). eexists; reflexivity.
Qed.

Lemma update_object_without_conditions (props : list (string * Js.value))
  (st : @TableQuery.Run Db) :
  TableQuery.conditions (TableQuery.self st) = [] ->
  TableQuery.update env driver (Js.VObj props) st = (inl UpdateMissingWhere, st).
Proof.
  intro Hnil. unfold TableQuery.update, bind, lift_result, TableQuery.this.
  cbn [Js.typeof Js.isArray String.eqb negb orb TableQuery.object_keys Js.keys].
  cbn. now rewrite (buildConditions_empty _ Hnil).
Qed.

Lemma delete_without_conditions (st : @TableQuery.Run Db) :
  TableQuery.conditions (TableQuery.self st) = [] ->
  TableQuery.delete env driver st = (inl DeleteMissingWhere, st).
Proof.
  intro Hnil. unfold TableQuery.delete, bind, lift_result, TableQuery.this.
  now rewrite (buildConditions_empty _ Hnil).
Qed.

Lemma update_with_conditions (data : Js.value) (st : @TableQuery.Run Db) :
  TableQuery.conditions (TableQuery.self st) <> [] ->
  fst (TableQuery.update env driver data st) <> inl UpdateMissingWhere.
Proof.
  intro Hne. unfold TableQuery.update.
  destruct (negb (Js.typeof data =? "object") || Js.isArray data);
    [discriminate|].
  unfold bind, lift_result, TableQuery.this.
  destruct (TableQuery.object_keys data) as [e|ks] eqn:Hk.
  - apply object_keys_error in Hk; subst; discriminate.
  - destruct (buildConditions_nonempty _ Hne) as [-> | (text & -> & Hlen)];
      [discriminate|].
    destruct (String.length text =? 0)%nat eqn:Hz;
      [apply Nat.eqb_eq in Hz; lia|].
    intro H. apply (get_response_raises env driver) in H.
    destruct H as [H|[d H]]; discriminate.
Qed.

Lemma delete_with_conditions (st : @TableQuery.Run Db) :
  TableQuery.conditions (TableQuery.self st) <> [] ->
  fst (TableQuery.delete env driver st) <> inl DeleteMissingWhere.
Proof.
  intro Hne. unfold TableQuery.delete, bind, lift_result, TableQuery.this.
  destruct (buildConditions_nonempty _ Hne) as [-> | (text & -> & Hlen)];
    [discriminate|].
  destruct (String.length text =? 0)%nat eqn:Hz;
    [apply Nat.eqb_eq in Hz; lia|].
  intro H. apply (get_response_raises env driver) in H.
  destruct H as [H|[d H]]; discriminate.
Qed.

End WhereGuard.

(** C2. On a builder without conditions, [update(data)] throws for every
    [data] (the missing-WHERE error when [data] is a plain object) and
    [delete()] throws the missing-WHERE error; the builder and the world
    are left as they were, so no statement reached the driver.  On a
    builder with at least one condition neither call throws its
    missing-WHERE error. *)
Theorem update_delete_require_where :
  forall (Db : Type) (env : Env) (driver : Driver Db)
         (st : @TableQuery.Run Db),
    (TableQuery.conditions (TableQuery.self st) = [] ->
       (forall data, exists e,
           TableQuery.update env driver data st = (inl e, st))
       /\ (forall props,
           TableQuery.update env driver (Js.VObj props) st
           = (inl UpdateMissingWhere, st))
       /\ TableQuery.delete env driver st = (inl DeleteMissingWhere, st))
    /\ (TableQuery.conditions (TableQuery.self st) <> [] ->
       (forall data,
           fst (TableQuery.update env driver data st) <> inl UpdateMissingWhere)
       /\ fst (TableQuery.delete env driver st) <> inl DeleteMissingWhere).
Proof.
  intros Db env driver st. split.
  - intro Hnil. repeat split.
    + intro data. now apply update_without_conditions.
    + intro props. now apply update_object_without_conditions.
    + now apply delete_without_conditions.
  - intro Hne. split.
    + intro data. now apply update_with_conditions.
    + now apply delete_with_conditions.
Qed.

Lemma update_delete_require_where_witness :
  TableQuery.update Demo.env Demo.driver
    (Js.VObj [("age", Js.VNum (Js.Int 1))]) (Demo.run Demo.users)
  = (inl UpdateMissingWhere, Demo.run Demo.users)
  /\ fst (TableQuery.delete Demo.env Demo.driver
            (Demo.run (TableQuery.where_ "id" (Some "=") (Js.VNum (Js.Int 1))
                         Demo.users)))
     <> inl DeleteMissingWhere.
Proof.
  split.
  - apply (proj1 (update_delete_require_where Demo.Db Demo.env Demo.driver
                    (Demo.run Demo.users))).
    reflexivity.
  - apply (proj2 (update_delete_require_where Demo.Db Demo.env Demo.driver
                    (Demo.run (TableQuery.where_ "id" (Some "=")
                                 (Js.VNum (Js.Int 1)) Demo.users)))).
    discriminate.
Defined.

(** ** Groups *)

Lemma push_conditions (node : Condition.t) (b : TableQuery.t) :
  TableQuery.conditions (TableQuery.set_nextType "AND" (TableQuery.push node b))
  = (TableQuery.conditions b ++ [node])%list.
Proof. reflexivity. Qed.

Lemma push_not_empty (node : Condition.t) (b : TableQuery.t) :
  TableQuery.conditions (TableQuery.set_nextType "AND" (TableQuery.push node b))
  <> [].
Proof.
  rewrite push_conditions. destruct (TableQuery.conditions b); discriminate.
Qed.

Lemma whereGroup_appends (callback : TableQuery.t -> result TableQuery.t)
  (b g : TableQuery.t) (text : string) :
  callback (TableQuery.new (TableQuery.tableName b) None) = ok g ->
  TableQuery.buildConditions g = ok text ->
  TableQuery.whereGroup callback b
  = ok (TableQuery.set_nextType "AND"
          (TableQuery.push (TableQuery.group text (TableQuery.nextType b)) b)).
Proof.
  intros Hcb Htext. unfold TableQuery.whereGroup.
  rewrite Hcb. cbn [rbind ok]. rewrite Htext. reflexivity.
Qed.

(** C10. [whereGroup(fn)] appends exactly one group node whenever [fn]
    returns and its conditions render, in particular when [fn] adds no
    condition at all: the group then holds the empty text and renders
    as [()]; the condition list is not empty afterwards, so [update] and
    [delete] do not throw their missing-WHERE error. *)
Theorem whereGroup_empty_group :
  forall (Db : Type) (env : Env) (driver : Driver Db)
         (callback : TableQuery.t -> result TableQuery.t)
         (b g : TableQuery.t),
    callback (TableQuery.new (TableQuery.tableName b) None) = ok g ->
    (forall text,
        TableQuery.buildConditions g = ok text ->
        exists b',
          TableQuery.whereGroup callback b = ok b'
          /\ TableQuery.conditions b'
             = (TableQuery.conditions b
                  ++ [TableQuery.group text (TableQuery.nextType b)])%list)
    /\ (TableQuery.conditions g = [] ->
        exists b',
          TableQuery.whereGroup callback b = ok b'
          /\ TableQuery.conditions b'
             = (TableQuery.conditions b
                  ++ [TableQuery.group "" (TableQuery.nextType b)])%list
          /\ List.length (TableQuery.conditions b')
             = S (List.length (TableQuery.conditions b))
          /\ render_condition 0 (TableQuery.group "" (TableQuery.nextType b))
             = ok "()"
          /\ (TableQuery.conditions b = [] ->
              TableQuery.buildConditions b' = ok "()")
          /\ (forall (w : World Db) (data : Js.value),
                 fst (TableQuery.update env driver data
                        {| TableQuery.self := b'; TableQuery.world := w |})
                 <> inl UpdateMissingWhere
                 /\ fst (TableQuery.delete env driver
                           {| TableQuery.self := b'; TableQuery.world := w |})
                    <> inl DeleteMissingWhere)).
Proof.
  intros Db env driver callback b g Hcb. split.
  - intros text Htext. eexists. split.
    + now apply whereGroup_appends with (g := g) (text := text).
    + apply push_conditions.
  - intro Hnil. eexists. split; [|split; [|split; [|split; [|split]]]].
    + apply whereGroup_appends with (g := g) (text := ""); [exact Hcb|].
      now apply buildConditions_empty.
    + apply push_conditions.
    + rewrite push_conditions, length_app. simpl. lia.
    + reflexivity.
    + intro Hb. unfold TableQuery.buildConditions.
      rewrite push_conditions, Hb. reflexivity.
    + intros w data. split.
      * apply update_with_conditions. cbn [TableQuery.self].
        apply push_not_empty.
      * apply delete_with_conditions. cbn [TableQuery.self].
        apply push_not_empty.
Qed.

Lemma whereGroup_empty_group_witness :
  exists b',
    TableQuery.whereGroup (fun g => ok g) Demo.users = ok b'
    /\ TableQuery.buildQuery true b'
       = ok ("SELECT * FROM " ++ dq ++ "users" ++ dq ++ " WHERE ()")
    /\ fst (TableQuery.delete Demo.env Demo.driver
              {| TableQuery.self := b'; TableQuery.world := Demo.world |})
       <> inl DeleteMissingWhere.
Proof.
  destruct (proj2 (whereGroup_empty_group Demo.Db Demo.env Demo.driver
                     (fun g => ok g) Demo.users
                     (TableQuery.new "users" None) eq_refl) eq_refl)
    as (b' & Hgroup & Hconds & _ & _ & Hrender & Hguard).
  exists b'. split; [exact Hgroup|]. split.
  - inversion Hgroup; subst b'. reflexivity.
  - apply (Hguard Demo.world Js.VNull).
Defined.

(** ** Ranges and lists *)

Lemma whereBetween_defined (column : string) (lo hi : Js.value)
  (rest : list Js.value) (b : TableQuery.t) :
  lo <> Js.VUndefined -> hi <> Js.VUndefined ->
  TableQuery.whereBetween column (Js.VArr (lo :: hi :: rest)) b
  = ok (TableQuery.set_nextType "AND"
          (TableQuery.push
             (TableQuery.leaf column "BETWEEN" (Js.VArr [lo; hi])
                (TableQuery.nextType b)) b)).
Proof.
  intros Hlo Hhi. unfold TableQuery.whereBetween, destructure2.
  cbn [nth rbind ok].
  destruct lo; try congruence; destruct hi; try congruence; reflexivity.
Qed.

Lemma whereBetween_one_missing (column : string) (items : list Js.value)
  (b : TableQuery.t) :
  nth 0 items Js.VUndefined = Js.VUndefined
  \/ nth 1 items Js.VUndefined = Js.VUndefined ->
  TableQuery.whereBetween column (Js.VArr items) b = ok b.
Proof.
  intros H. unfold TableQuery.whereBetween, destructure2. cbn [rbind ok].
  destruct H as [-> | ->]; [reflexivity|].
  now destruct (nth 0 items Js.VUndefined).
Qed.

Lemma between_text (column : string) (lo hi : Js.value) (type : string) :
  conditionStr (TableQuery.leaf column "BETWEEN" (Js.VArr [lo; hi]) type)
  = ok (column ++ " BETWEEN " ++ Js.toString (quote lo)
               ++ " AND " ++ Js.toString (quote hi)).
Proof. reflexivity. Qed.

(** C9. [whereBetween(col, [lo, hi])] with both ends defined appends one
    node, resets the pending combinator, and the node renders as
    [col BETWEEN lo AND hi] (string ends single-quoted); with an end
    missing, and for [whereIn] on a value that is not an array or on the
    empty array, the builder is returned as it was and nothing is
    thrown. *)
Theorem whereBetween_whereIn_well_formed :
  forall (column : string) (lo hi : Js.value) (b : TableQuery.t),
    lo <> Js.VUndefined -> hi <> Js.VUndefined ->
    (exists b',
        TableQuery.whereBetween column (Js.VArr [lo; hi]) b = ok b'
        /\ TableQuery.conditions b'
           = (TableQuery.conditions b
                ++ [TableQuery.leaf column "BETWEEN" (Js.VArr [lo; hi])
                      (TableQuery.nextType b)])%list
        /\ TableQuery.nextType b' = "AND"
        /\ conditionStr (TableQuery.leaf column "BETWEEN" (Js.VArr [lo; hi])
                           (TableQuery.nextType b))
           = ok (column ++ " BETWEEN " ++ Js.toString (quote lo)
                        ++ " AND " ++ Js.toString (quote hi))
        /\ (TableQuery.conditions b = [] ->
            TableQuery.buildConditions b'
            = ok (column ++ " BETWEEN " ++ Js.toString (quote lo)
                         ++ " AND " ++ Js.toString (quote hi))))
    /\ TableQuery.whereBetween column (Js.VArr [lo]) b = ok b
    /\ TableQuery.whereBetween column (Js.VArr [lo; Js.VUndefined]) b = ok b
    /\ TableQuery.whereBetween column (Js.VArr [Js.VUndefined; hi]) b = ok b
    /\ (forall values,
           Js.isArray values = false ->
           TableQuery.whereIn column values b = b)
    /\ TableQuery.whereIn column (Js.VArr []) b = b.
Proof.
  intros column lo hi b Hlo Hhi.
  split; [|split; [|split; [|split; [|split]]]].
  - eexists. split; [now apply whereBetween_defined|].
    split; [apply push_conditions|].
    split; [reflexivity|].
    split; [apply between_text|].
    intro Hnil. unfold TableQuery.buildConditions.
    rewrite push_conditions, Hnil. cbn [app map_index].
    unfold render_condition. cbn [Nat.eqb TableQuery.leaf Condition.isGroup].
    change (conditionStr _) with
      (conditionStr (TableQuery.leaf column "BETWEEN" (Js.VArr [lo; hi])
                       (TableQuery.nextType b))).
    rewrite between_text. cbn [rbind ok String.concat].
    reflexivity.
  - apply whereBetween_one_missing. now right.
  - apply whereBetween_one_missing. now right.
  - apply whereBetween_one_missing. now left.
  - intros values Harr. destruct values; try reflexivity. discriminate.
  - reflexivity.
Qed.

Lemma whereBetween_whereIn_well_formed_witness :
  (exists b',
      TableQuery.whereBetween "age"
        (Js.VArr [Js.VNum (Js.Int 20); Js.VNum (Js.Int 30)]) Demo.users = ok b'
      /\ TableQuery.buildConditions b' = ok "age BETWEEN 20 AND 30")
  /\ TableQuery.whereBetween "age" (Js.VArr [Js.VNum (Js.Int 20)]) Demo.users
     = ok Demo.users
  /\ TableQuery.whereIn "age" (Js.VStr "1,2") Demo.users = Demo.users.
Proof.
  destruct (whereBetween_whereIn_well_formed "age"
              (Js.VNum (Js.Int 20)) (Js.VNum (Js.Int 30)) Demo.users)
    as ((b' & Hb & _ & _ & _ & Hrender) & Hone & _ & _ & Hin & _);
    [discriminate | discriminate |].
  split; [|split].
  - exists b'. split; [exact Hb | apply Hrender; reflexivity].
  - exact Hone.
  - apply Hin. reflexivity.
Defined.

(** ** The server on a list of statements *)

Section ServeFacts.

Context {Db : Type} (driver : Driver Db).

Lemma serve_reached (pool : Pg.Pool) (statements : list string) :
  forall (server : Db),
    Server.reached (Server.serve driver pool statements server)
    = firstn (Server.reached_count (Server.serve driver pool statements server))
        statements
    /\ Server.reached_count (Server.serve driver pool statements server)
       <= List.length statements.
Proof.
  unfold Server.reached_count.
  induction statements as [|sql rest IH]; intro server; cbn [Server.serve].
  - split; [reflexivity | apply Nat.le_refl].
  - destruct (drv_query driver pool sql server) as [[d|rows] server'].
    + cbn. split; [reflexivity | lia].
    + destruct (IH server') as [Hreached Hcount].
      cbn [Server.answered Server.rejection Server.reached List.length Nat.add
           firstn].
      split; [now rewrite <- Hreached | simpl; lia].
Qed.

Lemma serve_complete (pool : Pg.Pool) (statements : list string) :
  forall (server : Db),
    Server.rejection (Server.serve driver pool statements server) = None ->
    Server.reached (Server.serve driver pool statements server) = statements
    /\ List.length (Server.answered (Server.serve driver pool statements server))
       = List.length statements.
Proof.
  induction statements as [|sql rest IH]; intro server; cbn [Server.serve].
  - intros _. split; reflexivity.
  - destruct (drv_query driver pool sql server) as [[d|rows] server'].
    + discriminate.
    + cbn [Server.answered Server.rejection Server.reached List.length].
      intro H. destruct (IH server' H) as [Hreached Hanswered].
      now rewrite Hreached, Hanswered.
Qed.

(** A run that ends with a rejection: the statements before the rejected
    one were all answered, and the rejected one is the last that reached
    the server. *)
Lemma serve_rejected (pool : Pg.Pool) (statements : list string) :
  forall (server : Db) (d : Pg.DriverError),
    Server.rejection (Server.serve driver pool statements server) = Some d ->
    exists before sql after,
      statements = (before ++ sql :: after)%list
      /\ Server.reached (Server.serve driver pool statements server)
         = (before ++ [sql])%list
      /\ Server.rejection (Server.serve driver pool before server) = None
      /\ drv_query driver pool sql
           (Server.state (Server.serve driver pool before server))
         = (inl d, Server.state (Server.serve driver pool statements server)).
Proof.
  induction statements as [|sql rest IH]; intros server d; cbn [Server.serve].
  - discriminate.
  - destruct (drv_query driver pool sql server) as [[d0|rows] server'] eqn:Hq.
    + cbn [Server.rejection Server.reached Server.state]. intro H.
      injection H as <-. exists [], sql, rest. cbn [app Server.serve Server.state
        Server.rejection]. auto.
    + cbn [Server.rejection Server.reached Server.state]. intro H.
      destruct (IH server' d H) as (before & sql' & after & Hs & Hr & Hn & Hd).
      exists (sql :: before), sql', after.
      cbn [app Server.serve]. rewrite Hq.
      cbn [Server.rejection Server.reached Server.state].
      rewrite Hs at 1. rewrite Hr. auto.
Qed.

End ServeFacts.

(** ** The raw entry point *)

Section RawQuery.

Context {Db : Type} (driver : Driver Db).

Lemma world_query_rejected (p : Pg.Pool) (sql : string) :
  only_raises rejected (world_query driver p sql).
Proof.
  intros w e. unfold world_query.
  destruct (drv_query driver p sql (db w)) as [[d|rows] db']; cbn.
  - intro H; inversion H. now exists d.
  - discriminate.
Qed.

(** The loop either ends with one row set per command, or with the
    rejection of the command that failed. *)
Lemma run_commands_outcome (p : Pg.Pool) (sqlCommands : list string) :
  forall (results : list Pg.Rows) (w : World Db),
    match Postgres.run_commands driver p sqlCommands results w with
    | (inl e, _) => rejected e
    | (inr all, _) =>
        List.length all = List.length results + List.length sqlCommands
    end.
Proof.
  induction sqlCommands as [|command rest IH]; intros results w.
  - simpl. lia.
  - cbn [Postgres.run_commands]. unfold bind at 1.
    pose proof (world_query_rejected p (command ++ ";") w) as Hq.
    destruct (world_query driver p (command ++ ";") w) as [[e|rows] w'].
    + now apply Hq.
    + specialize (IH (results ++ [rows])%list w').
      destruct (Postgres.run_commands driver p rest (results ++ [rows]) w')
        as [[e|all] w''].
      * exact IH.
      * rewrite IH, length_app. simpl. lia.
Qed.

(** The loop of [query] against the server run on the same statements. *)
Lemma run_commands_serve (p : Pg.Pool) (sqlCommands : list string) :
  forall (results : list Pg.Rows) (w : World Db),
    Postgres.run_commands driver p sqlCommands results w
    = (match Server.rejection
               (Server.serve driver p (map Script.statement sqlCommands) (db w)) with
       | Some d => inl (Rejected d)
       | None =>
           inr (results
                  ++ Server.answered
                       (Server.serve driver p (map Script.statement sqlCommands)
                          (db w)))%list
       end,
       {| db := Server.state
                  (Server.serve driver p (map Script.statement sqlCommands) (db w));
          sent := sent w
                    ++ Server.reached
                         (Server.serve driver p (map Script.statement sqlCommands)
                            (db w)) |}).
Proof.
  induction sqlCommands as [|command rest IH]; intros results w.
  - cbn. rewrite !app_nil_r. now destruct w.
  - cbn [Postgres.run_commands map Server.serve]. unfold bind, world_query.
    change (command ++ ";") with (Script.statement command).
    destruct (drv_query driver p (Script.statement command) (db w))
      as [[d|rows] server'].
    + reflexivity.
    + rewrite IH.
      cbn [db sent Server.answered Server.rejection Server.reached Server.state].
      rewrite <- !app_assoc. reflexivity.
Qed.

(** C3, amended. For every input string [query] returns normally with a
    structured result, and the result is decided by what the driver
    answers to the commands, sent in order until one is rejected.
    Without a pool nothing is sent: the status is [error], [data] is
    [null] and the message the pool-unavailable text.  When the driver
    answers every command the status is [success] and [data] is the
    single row set when exactly one command ran, the list of all row
    sets, one per command, otherwise.  When it rejects one the status is
    [error], [data] is [null] and the message is the text of that
    rejection when the text is not empty, the fixed fallback text when
    it is empty. *)
Theorem query_structured_result :
  forall (self : Postgres.t) (text : string) (w : World Db),
    Postgres.query driver self (Js.VStr text) w
    = match Postgres.pool self with
      | None =>
          (inr {| Postgres.status := "error";
                  Postgres.message := "Database connection pool is not available.";
                  Postgres.data := Js.VNull |}, w)
      | Some p =>
          (inr match Server.rejection
                       (Server.serve driver p
                          (map Script.statement (Postgres.commands_of text)) (db w))
               with
               | None =>
                   {| Postgres.status := "success";
                      Postgres.message := "Query executed successfully";
                      Postgres.data :=
                        match Server.answered
                                (Server.serve driver p
                                   (map Script.statement (Postgres.commands_of text))
                                   (db w))
                        with
                        | [rows] => Js.VArr rows
                        | all => Js.VArr (map Js.VArr all)
                        end |}
               | Some d =>
                   {| Postgres.status := "error";
                      Postgres.message :=
                        match Pg.message d with
                        | EmptyString => fallback_text
                        | driver_text => driver_text
                        end;
                      Postgres.data := Js.VNull |}
               end,
           {| db := Server.state
                      (Server.serve driver p
                         (map Script.statement (Postgres.commands_of text)) (db w));
              sent := sent w
                        ++ Server.reached
                             (Server.serve driver p
                                (map Script.statement (Postgres.commands_of text))
                                (db w)) |})
      end
    /\ forall (p : Pg.Pool),
         Server.rejection
           (Server.serve driver p
              (map Script.statement (Postgres.commands_of text)) (db w)) = None ->
         List.length
           (Server.answered
              (Server.serve driver p
                 (map Script.statement (Postgres.commands_of text)) (db w)))
         = List.length (Postgres.commands_of text).
Proof.
  intros self text w. split.
  - unfold Postgres.query, try_catch, raise, ret.
    destruct (Postgres.pool self) as [p|]; [|reflexivity].
    unfold bind. rewrite run_commands_serve.
    destruct (Server.rejection _) as [d|]; [reflexivity|].
    cbn [app]. unfold Postgres.data_of.
    destruct (Server.answered _) as [|rows [|more others]]; reflexivity.
  - intros p Hnone.
    rewrite (proj2 (serve_complete driver p _ (db w) Hnone)).
    apply length_map.
Qed.

End RawQuery.

(** C3, as stated, fails when the driver's rejection carries an empty
    text: the message of the result is then the fallback text, not the
    driver's. *)
Lemma query_empty_driver_text :
  exists (d : Pg.DriverError) (r : Postgres.QueryResult) (w' : World Demo.Db),
    fst (drv_query (Demo.driver_rejecting "") Demo.pool "BAD SQL;"
           (db Demo.world)) = inl d
    /\ Postgres.query (Demo.driver_rejecting "")
         {| Postgres.pool := Some Demo.pool |} (Js.VStr "BAD SQL") Demo.world
       = (inr r, w')
    /\ Postgres.status r = "error"
    /\ Postgres.message r = "An error occurred while executing the query."
    /\ Postgres.message r <> Pg.message d.
Proof.
  eexists; eexists; eexists. split; [reflexivity|].
  split; [reflexivity|].
  repeat split. discriminate.
Qed.

(** ** The clauses of [buildQuery] *)

Lemma buildQuery_clauses (b : TableQuery.t) :
  TableQuery.buildQuery true b
  = rbind (clauses_before_limit b) (fun head =>
    ok (head ++ limit_clause b ++ offset_clause b ++ order_clause b)).
Proof.
  unfold TableQuery.buildQuery, clauses_before_limit, limit_clause,
    offset_clause, order_clause.
  destruct (TableQuery.buildConditions b) as [e|whereClauses];
    [reflexivity|].
  cbn [rbind ok]. f_equal.
  destruct (TableQuery.is_set (TableQuery.limitValue b));
    destruct (Js.truthy_num (TableQuery.limitValue b)
              && TableQuery.is_set (TableQuery.pageValue b));
    destruct ((0 <? List.length (TableQuery._orderBy b))%nat
              && negb (TableQuery.aggregate_prefix (TableQuery.query b)));
    cbn [append]; rewrite ?append_assoc, ?append_nil_r; reflexivity.
Qed.

Lemma limit_page_commute (n p : Js.number) (b : TableQuery.t) :
  TableQuery.page p (TableQuery.limit n b) = TableQuery.limit n (TableQuery.page p b).
Proof. reflexivity. Qed.

(** Away from a limit of zero the clauses are the stated ones: after
    [limit(n)] and [page(p)] with safe integers, [n <> 0] and a safe
    product, [buildQuery()] renders [LIMIT n OFFSET (p-1)*n] between the
    GROUP BY and ORDER BY positions; after [page(p)] alone on a builder
    whose limit was never set it renders neither LIMIT nor OFFSET. *)
Lemma limit_page_offset :
  forall (b : TableQuery.t) (n p : Z),
    (Js.isSafeInteger n = true -> Js.isSafeInteger p = true ->
     Js.isSafeInteger ((p - 1) * n) = true -> n <> 0%Z ->
       TableQuery.buildQuery true
         (TableQuery.page (Js.Int p) (TableQuery.limit (Js.Int n) b))
       = rbind (clauses_before_limit b) (fun head =>
         ok (head ++ " LIMIT " ++ Js.num_toString (Js.Int n)
                  ++ " OFFSET " ++ Js.num_toString (Js.Int ((p - 1) * n))
                  ++ order_clause b)))
    /\ (TableQuery.limitValue b = None ->
        TableQuery.buildQuery true (TableQuery.page (Js.Int p) b)
        = rbind (clauses_before_limit b) (fun head =>
          ok (head ++ order_clause b))).
Proof.
  intros b n p. split.
  - intros _ _ _ Hn. rewrite buildQuery_clauses.
    change (clauses_before_limit _) with (clauses_before_limit b).
    change (order_clause _) with (order_clause b).
    unfold limit_clause, offset_clause.
    cbn [TableQuery.page TableQuery.limit TableQuery.set_pageValue
         TableQuery.set_limitValue TableQuery.limitValue TableQuery.pageValue
         TableQuery.is_set TableQuery.num_of Js.isNaN negb Js.truthy_num
         Js.sub Js.mul andb].
    apply Z.eqb_neq in Hn. rewrite Hn. cbn [negb].
    destruct (clauses_before_limit b) as [e|head]; [reflexivity|].
    cbn [rbind ok]. now rewrite !append_assoc.
  - intro Hnone. rewrite buildQuery_clauses.
    change (clauses_before_limit _) with (clauses_before_limit b).
    change (order_clause _) with (order_clause b).
    unfold limit_clause, offset_clause.
    cbn [TableQuery.page TableQuery.set_pageValue TableQuery.limitValue
         TableQuery.pageValue].
    rewrite Hnone. reflexivity.
Qed.

Example limit_ten_page_three :
  TableQuery.buildQuery true
    (TableQuery.page (Js.Int 3) (TableQuery.limit (Js.Int 10) Demo.users))
  = ok ("SELECT * FROM " ++ dq ++ "users" ++ dq ++ " LIMIT 10 OFFSET 20")
  /\ TableQuery.buildQuery true (TableQuery.page (Js.Int 3) Demo.users)
     = ok ("SELECT * FROM " ++ dq ++ "users" ++ dq).
Proof.
  destruct (limit_page_offset Demo.users 10 3) as (Hboth & Halone).
  split.
  - rewrite Hboth; [reflexivity | reflexivity | reflexivity | reflexivity
                    | discriminate].
  - rewrite Halone; reflexivity.
Qed.

(** C4, at the failing input [limit(0).page(p)]. On every builder and
    for every page the TypeScript builder renders [LIMIT 0] and no
    OFFSET clause, where the claim says [LIMIT 0 OFFSET 0]; the
    JavaScript builder renders [LIMIT 0 OFFSET 0] at the same input. *)
Theorem limit_zero_drops_offset :
  forall (b : TableQuery.t) (p : Z),
    TableQuery.buildQuery true
      (TableQuery.page (Js.Int p) (TableQuery.limit (Js.Int 0) b))
    = rbind (clauses_before_limit b) (fun head =>
      ok (head ++ " LIMIT 0" ++ order_clause b))
    /\ Legacy.buildQuery true
         (TableQuery.page (Js.Int p) (TableQuery.limit (Js.Int 0) b))
       = rbind (clauses_before_limit b) (fun head =>
         ok (head ++ " LIMIT 0 OFFSET 0" ++ order_clause b))
    /\ TableQuery.buildQuery true
         (TableQuery.page (Js.Int 2)
            (TableQuery.limit (Js.Int 0) (TableQuery.new "t" None)))
       = ok ("SELECT * FROM " ++ dq ++ "t" ++ dq ++ " LIMIT 0")
    /\ Legacy.buildQuery true
         (TableQuery.page (Js.Int 2)
            (TableQuery.limit (Js.Int 0) (TableQuery.new "t" None)))
       = ok ("SELECT * FROM " ++ dq ++ "t" ++ dq ++ " LIMIT 0 OFFSET 0").
Proof.
  intros b p. split; [|split; [|split; reflexivity]].
  - rewrite buildQuery_clauses.
    change (clauses_before_limit _) with (clauses_before_limit b).
    change (order_clause _) with (order_clause b).
    reflexivity.
  - unfold Legacy.buildQuery, clauses_before_limit, order_clause.
    cbn [TableQuery.page TableQuery.limit TableQuery.set_pageValue
         TableQuery.set_limitValue TableQuery.limitValue TableQuery.pageValue
         TableQuery.query TableQuery.joins TableQuery._groupBy TableQuery._orderBy
         TableQuery.is_set TableQuery.num_of Js.isNaN negb Legacy.limit_number
         Js.sub Js.mul].
    change (TableQuery.buildConditions
              (TableQuery.page (Js.Int p) (TableQuery.limit (Js.Int 0) b)))
      with (TableQuery.buildConditions b).
    rewrite Z.mul_0_r.
    destruct (TableQuery.buildConditions b) as [e|whereClauses]; [reflexivity|].
    cbn [rbind ok]. f_equal.
    destruct ((0 <? List.length (TableQuery._orderBy b))%nat
              && negb (TableQuery.aggregate_prefix (TableQuery.query b)));
      cbn [Js.num_toString]; rewrite ?append_assoc, ?append_nil_r; reflexivity.
Qed.

(** ** The pending combinator *)

Lemma or_then_where (column : string) (operator : option string)
  (value : Js.value) (b : TableQuery.t) :
  TableQuery.conditions (TableQuery.where_ column operator value (TableQuery.or b))
  = (TableQuery.conditions b
       ++ [TableQuery.leaf column (TableQuery.default_operator operator) value "OR"])%list
  /\ TableQuery.nextType (TableQuery.where_ column operator value (TableQuery.or b))
     = "AND".
Proof. split; reflexivity. Qed.

Lemma or_consumed_by_next_append (column : string) (operator : option string)
  (value : Js.value) (column' : string) (operator' : option string)
  (value' : Js.value) (b : TableQuery.t) :
  TableQuery.conditions
    (TableQuery.where_ column' operator' value'
       (TableQuery.where_ column operator value (TableQuery.or b)))
  = (TableQuery.conditions b
       ++ [TableQuery.leaf column (TableQuery.default_operator operator) value "OR";
           TableQuery.leaf column' (TableQuery.default_operator operator') value' "AND"])%list.
Proof.
  unfold TableQuery.where_, TableQuery.or, TableQuery.push; cbn.
  now rewrite <- app_assoc.
Qed.

Lemma orWhere_appends_or (column : string) (operator : option string)
  (value : Js.value) (b : TableQuery.t) :
  TableQuery.conditions (TableQuery.orWhere column operator value b)
  = (TableQuery.conditions b
       ++ [TableQuery.leaf column (TableQuery.default_operator operator) value "OR"])%list
  /\ TableQuery.nextType (TableQuery.orWhere column operator value b)
     = TableQuery.nextType b.
Proof. split; reflexivity. Qed.

(** From a pending AND, [orWhere] and [or()] followed by [where] build the
    same builder. *)
Lemma orWhere_is_or_where_from_and (column : string) (operator : option string)
  (value : Js.value) (b : TableQuery.t) :
  TableQuery.nextType b = "AND" ->
  TableQuery.orWhere column operator value b
  = TableQuery.where_ column operator value (TableQuery.or b).
Proof.
  intro H. destruct b; cbn in H; subst. reflexivity.
Qed.

(** C5, at the failing input [table('t').or().orWhere('a', '=', 1)]:
    [orWhere] leaves the pending OR in place where [or().where(...)]
    resets it to AND, so a following [where] is tagged OR. *)
Theorem orWhere_keeps_pending_or :
  let one := Js.VNum (Js.Int 1) in
  let two := Js.VNum (Js.Int 2) in
  let b := TableQuery.or (TableQuery.new "t" None) in
  TableQuery.nextType (TableQuery.orWhere "a" (Some "=") one b) = "OR"
  /\ TableQuery.nextType (TableQuery.where_ "a" (Some "=") one (TableQuery.or b))
     = "AND"
  /\ TableQuery.orWhere "a" (Some "=") one b
     <> TableQuery.where_ "a" (Some "=") one (TableQuery.or b)
  /\ TableQuery.buildConditions
       (TableQuery.where_ "b" (Some "=") two
          (TableQuery.orWhere "a" (Some "=") one b))
     = ok "a = 1 OR b = 2"
  /\ TableQuery.buildConditions
       (TableQuery.where_ "b" (Some "=") two
          (TableQuery.where_ "a" (Some "=") one (TableQuery.or b)))
     = ok "a = 1 AND b = 2".
Proof.
  cbv zeta. repeat split. discriminate.
Qed.

(** ** DISTINCT *)

Lemma distinct_rewrites_select (b : TableQuery.t) (rest : string) :
  TableQuery.query b = "SELECT " ++ rest ->
  TableQuery.query (TableQuery.distinct b) = "SELECT DISTINCT " ++ rest
  /\ TableQuery._distinct (TableQuery.distinct b) = true.
Proof.
  intro H. split; [|reflexivity].
  unfold TableQuery.distinct, TableQuery.replace_select, Js.startsWith.
  cbn [TableQuery.query TableQuery.set_query TableQuery.set_distinct].
  rewrite H, prefix_append.
  exact (f_equal (append "SELECT DISTINCT ") (drop_append "SELECT " rest)).
Qed.

(** A second [distinct()] inserts a second keyword, whatever the base
    clause was. *)
Lemma distinct_twice (b : TableQuery.t) (rest : string) :
  TableQuery.query b = "SELECT " ++ rest ->
  TableQuery.query (TableQuery.distinct (TableQuery.distinct b))
  = "SELECT DISTINCT DISTINCT " ++ rest.
Proof.
  intro H.
  destruct (distinct_rewrites_select b rest H) as [H1 _].
  destruct (distinct_rewrites_select (TableQuery.distinct b) ("DISTINCT " ++ rest))
    as [H2 _]; [exact H1 | exact H2].
Qed.

Lemma distinct_then_select (tableName : string) (conection : option Pg.Pool) :
  TableQuery.buildQuery true
    (TableQuery.select ["name"]
       (TableQuery.distinct (TableQuery.new tableName conection)))
  = ok ("SELECT DISTINCT name FROM " ++ dq ++ tableName ++ dq).
Proof. reflexivity. Qed.

(** C7, at the failing input [table('t').distinct().distinct()]: the
    second call changes the base clause again. *)
Theorem distinct_not_idempotent :
  let once := TableQuery.distinct (TableQuery.new "t" None) in
  let twice := TableQuery.distinct once in
  TableQuery.query once = "SELECT DISTINCT * FROM " ++ dq ++ "t" ++ dq
  /\ TableQuery.query twice
     = "SELECT DISTINCT DISTINCT * FROM " ++ dq ++ "t" ++ dq
  /\ TableQuery.query twice <> TableQuery.query once
  /\ TableQuery.buildQuery true
       (TableQuery.select ["name"] once)
     = ok ("SELECT DISTINCT name FROM " ++ dq ++ "t" ++ dq).
Proof.
  cbv zeta. repeat split. discriminate.
Qed.

(** ** ORDER BY and the aggregate projections *)

Lemma aggregate_sets_prefix (column : string) (b : TableQuery.t) :
  TableQuery.aggregate_prefix (TableQuery.query (TableQuery.count (Some column) b)) = true
  /\ TableQuery.aggregate_prefix (TableQuery.query (TableQuery.count None b)) = true
  /\ TableQuery.aggregate_prefix (TableQuery.query (TableQuery.sum column b)) = true
  /\ TableQuery.aggregate_prefix (TableQuery.query (TableQuery.avg column b)) = true
  /\ TableQuery.aggregate_prefix (TableQuery.query (TableQuery.max column b)) = true
  /\ TableQuery.aggregate_prefix (TableQuery.query (TableQuery.min column b)) = true.
Proof. repeat split. Qed.

(** Whatever was ordered, a builder whose base clause passes the prefix
    test renders no ORDER BY. *)
Lemma order_clause_omitted (b : TableQuery.t) :
  TableQuery.aggregate_prefix (TableQuery.query b) = true -> order_clause b = "".
Proof.
  intro H. unfold order_clause. rewrite H.
  now rewrite andb_false_r.
Qed.

Lemma order_clause_included (b : TableQuery.t) :
  TableQuery.aggregate_prefix (TableQuery.query b) = false ->
  TableQuery._orderBy b <> [] ->
  order_clause b
  = " ORDER BY "
    ++ String.concat ", " (map TableQuery.order_text (TableQuery._orderBy b)).
Proof.
  intros H Hne. unfold order_clause. rewrite H.
  destruct (TableQuery._orderBy b); [congruence | reflexivity].
Qed.

Lemma orderBy_appends (column : string) (direction : option string)
  (b b' : TableQuery.t) :
  TableQuery.orderBy column direction b = ok b' ->
  exists dir,
    (dir = "ASC" \/ dir = "DESC")
    /\ TableQuery._orderBy b'
       = (TableQuery._orderBy b
            ++ [{| OrderBy.column := column; OrderBy.direction := dir |}])%list
    /\ TableQuery.query b' = TableQuery.query b.
Proof.
  unfold TableQuery.orderBy.
  set (upper := Js.toUpperCase match direction with Some d => d | None => "ASC" end).
  destruct (String.eqb_spec upper "ASC") as [Ha|Ha]; cbn [orb].
  - intro H; inversion H; subst b'. exists upper. rewrite Ha at 1. auto.
  - destruct (String.eqb_spec upper "DESC") as [Hd|Hd].
    + intro H; inversion H; subst b'. exists upper. rewrite Hd at 1. auto.
    + discriminate.
Qed.

(** C8, at the failing input
    [table('t').select(['COUNTRY']).orderBy('COUNTRY')]: the base clause is
    a plain projection, yet its text starts with [SELECT COUNT] and ORDER BY
    is dropped; the same projection in lower case keeps it, and an
    aggregate base clause rewritten by [distinct()] keeps it too. *)
Theorem order_by_dropped_on_prefix_match :
  rbind (TableQuery.orderBy "COUNTRY" None
           (TableQuery.select ["COUNTRY"] (TableQuery.new "t" None)))
        (TableQuery.buildQuery true)
  = ok ("SELECT COUNTRY FROM " ++ dq ++ "t" ++ dq)
  /\ rbind (TableQuery.orderBy "country" None
              (TableQuery.select ["country"] (TableQuery.new "t" None)))
           (TableQuery.buildQuery true)
     = ok ("SELECT country FROM " ++ dq ++ "t" ++ dq ++ " ORDER BY country ASC")
  /\ rbind (TableQuery.orderBy "id" None
              (TableQuery.distinct (TableQuery.count None (TableQuery.new "t" None))))
           (TableQuery.buildQuery true)
     = ok ("SELECT DISTINCT COUNT(*) AS count FROM " ++ dq ++ "t" ++ dq
             ++ " ORDER BY id ASC").
Proof. repeat split. Qed.

(** ** The validation of [insert] *)

Section InsertGuard.

Context {Db : Type} (env : Env) (driver : Driver Db).

Lemma forallb_is_object (items : list Js.value) :
  existsb (fun item => negb (TableQuery.is_object item)) items = true ->
  forallb TableQuery.is_object items = false.
Proof.
  induction items as [|x xs IH]; cbn [existsb forallb]; [discriminate|].
  destruct (TableQuery.is_object x); cbn [negb orb andb]; auto.
Qed.

(** C6, amended. [insert(data)] throws its first error when [data] is not
    an array and its second when some element is not a non-null object;
    in both cases builder and world are left as they were, so nothing
    reached the driver, and both errors carry a text.  The empty array is
    accepted: the call returns the empty list, again without a
    statement. *)
Theorem insert_validates_rows :
  forall (data : Js.value) (items : list Js.value) (st : @TableQuery.Run Db),
    (Js.isArray data = false ->
       TableQuery.insert env driver data st = (inl InsertNotArray, st))
    /\ (existsb (fun item => negb (TableQuery.is_object item)) items = true ->
       TableQuery.insert env driver (Js.VArr items) st = (inl InsertNotObjects, st))
    /\ TableQuery.insert env driver (Js.VArr []) st = (inr [], st)
    /\ error_message InsertNotArray <> ""
    /\ error_message InsertNotObjects <> "".
Proof.
  intros data items st. split; [|split; [|split; [|split]]].
  - intro H. destruct data; try reflexivity. discriminate.
  - intro H. unfold TableQuery.insert.
    now rewrite (forallb_is_object items H).
  - reflexivity.
  - discriminate.
  - discriminate.
Qed.

End InsertGuard.

Lemma insert_validates_rows_witness :
  TableQuery.insert Demo.env Demo.driver (Js.VStr "row") (Demo.run Demo.users)
  = (inl InsertNotArray, Demo.run Demo.users)
  /\ TableQuery.insert Demo.env Demo.driver
       (Js.VArr [Js.VObj [("name", Js.VStr "Alice")]; Js.VNull])
       (Demo.run Demo.users)
     = (inl InsertNotObjects, Demo.run Demo.users).
Proof.
  destruct (insert_validates_rows Demo.env Demo.driver (Js.VStr "row")
              [Js.VObj [("name", Js.VStr "Alice")]; Js.VNull]
              (Demo.run Demo.users))
    as (Harray & Hitems & _).
  split; [apply Harray | apply Hitems]; reflexivity.
Defined.

(** C6, as stated, fails for the empty array: [insert([])] returns the
    empty list and throws nothing. *)
Lemma insert_empty_array_accepted :
  TableQuery.insert Demo.env Demo.driver (Js.VArr []) (Demo.run Demo.users)
  = (inr [], Demo.run Demo.users)
  /\ forall e,
       fst (TableQuery.insert Demo.env Demo.driver (Js.VArr [])
              (Demo.run Demo.users))
       <> inl e.
Proof. split; [reflexivity | discriminate]. Qed.

(** ** The JavaScript builder on a page without a limit *)

Example legacy_page_without_limit :
  Legacy.buildQuery true (TableQuery.page (Js.Int 2) (TableQuery.new "t" None))
  = ok ("SELECT * FROM " ++ dq ++ "t" ++ dq ++ " OFFSET NaN").
Proof. reflexivity. Qed.

Example legacy_limit_zero :
  Legacy.buildQuery true
    (TableQuery.page (Js.Int 2) (TableQuery.limit (Js.Int 0) (TableQuery.new "t" None)))
  = ok ("SELECT * FROM " ++ dq ++ "t" ++ dq ++ " LIMIT 0 OFFSET 0").
Proof. reflexivity. Qed.

(** ** Runs against the small server *)

Example update_with_condition_runs :
  let b := TableQuery.where_ "id" None (Js.VNum (Js.Int 1)) Demo.users in
  let '(outcome, st) :=
    TableQuery.update Demo.env Demo.driver
      (Js.VObj [("age", Js.VNum (Js.Int 1))]) (Demo.run b) in
  outcome = inr [Js.VObj [("id", Js.VNum (Js.Int 0))]]
  /\ sent (TableQuery.world st)
     = ["UPDATE " ++ dq ++ "users" ++ dq ++ " SET " ++ dq ++ "age" ++ dq
          ++ " = 1 WHERE id = 1 RETURNING *"].
Proof. split; reflexivity. Qed.

Example delete_with_condition_runs :
  let b := TableQuery.where_ "id" None (Js.VNum (Js.Int 1)) Demo.users in
  sent (TableQuery.world (snd (TableQuery.delete Demo.env Demo.driver (Demo.run b))))
  = ["DELETE FROM " ++ dq ++ "users" ++ dq ++ " WHERE id = 1 RETURNING *"].
Proof. reflexivity. Qed.

Example insert_one_statement_per_row :
  sent (TableQuery.world (snd
    (TableQuery.insert Demo.env Demo.driver
       (Js.VArr [Js.VObj [("name", Js.VStr "Alice"); ("age", Js.VNum (Js.Int 28))];
                 Js.VObj [("name", Js.VStr "Bob"); ("age", Js.VNull)]])
       (Demo.run Demo.users))))
  = ["INSERT INTO " ++ dq ++ "users" ++ dq ++ " (" ++ dq ++ "name" ++ dq ++ ", "
       ++ dq ++ "age" ++ dq ++ ") VALUES ('Alice', 28) RETURNING *";
     "INSERT INTO " ++ dq ++ "users" ++ dq ++ " (" ++ dq ++ "name" ++ dq ++ ", "
       ++ dq ++ "age" ++ dq ++ ") VALUES ('Bob', NULL) RETURNING *"].
Proof. reflexivity. Qed.

Example missing_database_is_created_once :
  let '(outcome, st) :=
    TableQuery.get Demo.env Demo.driver_missing_database (Demo.run Demo.users) in
  outcome = inr []
  /\ sent (TableQuery.world st)
     = ["SELECT * FROM " ++ dq ++ "users" ++ dq;
        "CREATE DATABASE " ++ dq ++ "shop" ++ dq;
        "SELECT * FROM " ++ dq ++ "users" ++ dq].
Proof. split; reflexivity. Qed.

Example query_two_commands :
  fst (Postgres.query Demo.driver {| Postgres.pool := Some Demo.pool |}
         (Js.VStr "SELECT 1; SELECT 2") Demo.world)
  = inr {| Postgres.status := "success";
           Postgres.message := "Query executed successfully";
           Postgres.data :=
             Js.VArr [Js.VArr [Js.VObj [("id", Js.VNum (Js.Int 0))]];
                      Js.VArr [Js.VObj [("id", Js.VNum (Js.Int 1))]]] |}.
Proof. reflexivity. Qed.

Example query_not_a_string :
  fst (Postgres.query Demo.driver {| Postgres.pool := Some Demo.pool |}
         (Js.VNum (Js.Int 1)) Demo.world)
  = inl QueryNotString.
Proof. reflexivity. Qed.

(** ** What every chain of calls keeps *)

Section ChainInvariant.

Variable Inv : TableQuery.t -> Prop.
Variable Allowed : Chain.Call -> Prop.

Hypothesis step :
  forall c b b', Allowed c -> Chain.apply c b = ok b' -> Inv b -> Inv b'.

Lemma run_keeps (calls : list Chain.Call) :
  forall b b',
    Forall Allowed calls -> Chain.run calls b = ok b' -> Inv b -> Inv b'.
Proof.
  induction calls as [|c cs IH]; intros b b' Hall Hrun Hinv.
  - cbn in Hrun. inversion Hrun; now subst.
  - cbn [Chain.run] in Hrun. inversion Hall as [|? ? Hc Hcs]; subst.
    destruct (Chain.apply c b) as [e|b1] eqn:Hstep; [discriminate|].
    cbn [rbind] in Hrun.
    apply (IH b1 b' Hcs Hrun). now apply (step c b b1).
Qed.

End ChainInvariant.

Lemma Forall_any {A : Type} (l : list A) : Forall (fun _ => True) l.
Proof. induction l; constructor; auto. Qed.

Lemma whereBetween_cases (column : string) (values : Js.value)
  (b b' : TableQuery.t) :
  TableQuery.whereBetween column values b = ok b' ->
  b' = b
  \/ exists lo hi,
       b' = TableQuery.set_nextType "AND"
              (TableQuery.push
                 (TableQuery.leaf column "BETWEEN" (Js.VArr [lo; hi])
                    (TableQuery.nextType b)) b).
Proof.
  unfold TableQuery.whereBetween.
  destruct (destructure2 values) as [e|[lo hi]]; [discriminate|].
  cbn [rbind].
  destruct lo; destruct hi; intro H; inversion H;
    solve [now left | right; eauto].
Qed.

Lemma whereIn_cases (column : string) (values : Js.value) (b : TableQuery.t) :
  TableQuery.whereIn column values b = b
  \/ exists items,
       values = Js.VArr items
       /\ TableQuery.whereIn column values b
          = TableQuery.set_nextType "AND"
              (TableQuery.push
                 (TableQuery.leaf column "IN" (Js.VArr items)
                    (TableQuery.nextType b)) b).
Proof.
  destruct values; try now left.
  destruct items; [now left|]. right. eauto.
Qed.

Lemma whereGroup_cases (callback : TableQuery.t -> result TableQuery.t)
  (b b' : TableQuery.t) :
  TableQuery.whereGroup callback b = ok b' ->
  exists text,
    b' = TableQuery.set_nextType "AND"
           (TableQuery.push (TableQuery.group text (TableQuery.nextType b)) b).
Proof.
  unfold TableQuery.whereGroup.
  destruct (callback _) as [e|g]; [discriminate|]. cbn [rbind].
  destruct (TableQuery.buildConditions g) as [e|text]; [discriminate|].
  cbn [rbind ok]. intro H; inversion H. eauto.
Qed.

Lemma orderBy_cases (column : string) (direction : option string)
  (b b' : TableQuery.t) :
  TableQuery.orderBy column direction b = ok b' ->
  exists dir,
    Chain.is_direction dir
    /\ b' = TableQuery.set_orderBy
              (TableQuery._orderBy b
                 ++ [{| OrderBy.column := column; OrderBy.direction := dir |}])%list b.
Proof.
  unfold TableQuery.orderBy, Chain.is_direction.
  set (upper := Js.toUpperCase match direction with Some d => d | None => "ASC" end).
  destruct (String.eqb_spec upper "ASC") as [Ha|Ha]; cbn [orb].
  - intro H; inversion H. exists upper. split; [now left | reflexivity].
  - destruct (String.eqb_spec upper "DESC") as [Hd|Hd].
    + intro H; inversion H. exists upper. split; [now right | reflexivity].
    + discriminate.
Qed.

Lemma push_combinators_ok (node : Condition.t) (b : TableQuery.t) :
  Chain.combinators_ok b -> Chain.is_combinator (Condition.type node) ->
  Chain.combinators_ok (TableQuery.set_nextType "AND" (TableQuery.push node b)).
Proof.
  intros [Hn Hall] Hnode. split; [now left|].
  rewrite push_conditions. apply Forall_app. split; [exact Hall|].
  now constructor.
Qed.

Lemma apply_combinators_ok (c : Chain.Call) (b b' : TableQuery.t) :
  True -> Chain.apply c b = ok b' -> Chain.combinators_ok b -> Chain.combinators_ok b'.
Proof.
  intros _ Happly Hinv. pose proof Hinv as [Hn Hall].
  destruct c; cbn [Chain.apply] in Happly;
    try (inversion Happly; subst b'; clear Happly).
  - unfold TableQuery.select. destruct (0 <? _)%nat; exact Hinv.
  - now apply push_combinators_ok.
  - split; [exact Hn|]. cbn. apply Forall_app. split; [exact Hall|].
    constructor; [now right | constructor].
  - destruct (whereGroup_cases _ _ _ Happly) as [text ->].
    now apply push_combinators_ok.
  - split; [now right | exact Hall].
  - split; [now left | exact Hall].
  - destruct (whereBetween_cases _ _ _ _ Happly) as [-> | (lo & hi & ->)];
      [exact Hinv | now apply push_combinators_ok].
  - destruct (whereIn_cases column values b) as [-> | (items & _ & ->)];
      [exact Hinv | now apply push_combinators_ok].
  - now apply push_combinators_ok.
  - now apply push_combinators_ok.
  - exact Hinv.
  - exact Hinv.
  - exact Hinv.
  - destruct (orderBy_cases _ _ _ _ Happly) as (dir & _ & ->). exact Hinv.
  - exact Hinv.
  - exact Hinv.
  - exact Hinv.
  - exact Hinv.
  - exact Hinv.
  - exact Hinv.
  - exact Hinv.
  - exact Hinv.
  - exact Hinv.
Qed.

(** X1. Whatever chain of calls is run on a new builder, the pending
    combinator and the combinator of every node are [AND] or [OR]. *)
Theorem chain_combinators :
  forall (tableName : string) (conection : option Pg.Pool)
         (calls : list Chain.Call) (b : TableQuery.t),
    Chain.run calls (TableQuery.new tableName conection) = ok b ->
    Chain.is_combinator (TableQuery.nextType b)
    /\ Forall (fun cond => Chain.is_combinator (Condition.type cond))
              (TableQuery.conditions b).
Proof.
  intros tableName conection calls b Hrun.
  apply (run_keeps Chain.combinators_ok (fun _ => True) apply_combinators_ok
           calls _ b (Forall_any calls) Hrun).
  split; [now left | constructor].
Qed.

Lemma chain_combinators_witness :
  Chain.is_combinator
    (TableQuery.nextType
       (TableQuery.or (TableQuery.orWhere "a" None Js.VNull
                         (TableQuery.new "t" None)))).
Proof.
  apply (chain_combinators "t" None
           [Chain.OrWhere "a" None Js.VNull; Chain.Or]).
  reflexivity.
Defined.

Lemma apply_directions_ok (c : Chain.Call) (b b' : TableQuery.t) :
  True -> Chain.apply c b = ok b' -> Chain.directions_ok b -> Chain.directions_ok b'.
Proof.
  intros _ Happly Hinv.
  destruct c; cbn [Chain.apply] in Happly;
    try (inversion Happly; subst b'; clear Happly); try exact Hinv.
  - unfold TableQuery.select. destruct (0 <? _)%nat; exact Hinv.
  - destruct (whereGroup_cases _ _ _ Happly) as [text ->]. exact Hinv.
  - destruct (whereBetween_cases _ _ _ _ Happly) as [-> | (lo & hi & ->)];
      exact Hinv.
  - destruct (whereIn_cases column values b) as [-> | (items & _ & ->)];
      exact Hinv.
  - destruct (orderBy_cases _ _ _ _ Happly) as (dir & Hdir & ->).
    unfold Chain.directions_ok. cbn [TableQuery._orderBy TableQuery.set_orderBy].
    apply Forall_app. split; [exact Hinv|]. now constructor.
Qed.

(** X2. Whatever chain of calls is run on a new builder, every stored
    ordering has the direction [ASC] or [DESC], and so has every
    direction [buildQuery] prints. *)
Theorem chain_directions :
  forall (tableName : string) (conection : option Pg.Pool)
         (calls : list Chain.Call) (b : TableQuery.t),
    Chain.run calls (TableQuery.new tableName conection) = ok b ->
    Forall (fun order => Chain.is_direction (OrderBy.direction order))
           (TableQuery._orderBy b).
Proof.
  intros tableName conection calls b Hrun.
  apply (run_keeps Chain.directions_ok (fun _ => True) apply_directions_ok
           calls _ b (Forall_any calls) Hrun).
  constructor.
Qed.

Lemma chain_directions_witness :
  Forall (fun order => Chain.is_direction (OrderBy.direction order))
    [{| OrderBy.column := "name"; OrderBy.direction := "DESC" |}].
Proof.
  exact (chain_directions "t" None [Chain.OrderBy "name" (Some "desc")]
           (TableQuery.set_orderBy
              [{| OrderBy.column := "name"; OrderBy.direction := "DESC" |}]
              (TableQuery.new "t" None))
           eq_refl).
Defined.

(** [orderBy] with a direction that is neither, in any letter case,
    throws and names the direction as it was given. *)
Lemma orderBy_rejects (column direction : string) (b : TableQuery.t) :
  Js.toUpperCase direction <> "ASC" -> Js.toUpperCase direction <> "DESC" ->
  TableQuery.orderBy column (Some direction) b = throw (InvalidDirection direction).
Proof.
  intros Ha Hd. unfold TableQuery.orderBy.
  apply String.eqb_neq in Ha, Hd. now rewrite Ha, Hd.
Qed.

Lemma apply_base_ok (tableName : string) (conection : option Pg.Pool)
  (c : Chain.Call) (b b' : TableQuery.t) :
  True -> Chain.apply c b = ok b' ->
  Chain.base_ok tableName conection b -> Chain.base_ok tableName conection b'.
Proof.
  intros _ Happly Hinv. pose proof Hinv as (Ht & Hc & proj & Hq).
  assert (Hagg : forall fn alias column,
    "SELECT " ++ fn ++ "(" ++ column ++ ") AS " ++ alias ++ " FROM " ++ dq
       ++ TableQuery.tableName b ++ dq
    = "SELECT " ++ (fn ++ "(" ++ column ++ ") AS " ++ alias) ++ " FROM " ++ dq
       ++ tableName ++ dq).
  { intros. rewrite Ht. now rewrite !append_assoc. }
  destruct c; cbn [Chain.apply] in Happly;
    try (inversion Happly; subst b'; clear Happly); try exact Hinv.
  - unfold TableQuery.select. destruct (0 <? _)%nat; [|exact Hinv].
    split; [exact Ht|]. split; [exact Hc|].
    exists ((if TableQuery._distinct b then "DISTINCT " else "")
              ++ String.concat ", " fields).
    cbn [TableQuery.query TableQuery.set_query]. rewrite Ht.
    now rewrite !append_assoc.
  - destruct (whereGroup_cases _ _ _ Happly) as [text ->]. exact Hinv.
  - destruct (whereBetween_cases _ _ _ _ Happly) as [-> | (lo & hi & ->)];
      exact Hinv.
  - destruct (whereIn_cases column values b) as [-> | (items & _ & ->)];
      exact Hinv.
  - destruct (orderBy_cases _ _ _ _ Happly) as (dir & Hdir & ->). exact Hinv.
  - split; [exact Ht|]. split; [exact Hc|].
    exists ("DISTINCT " ++ proj).
    destruct (distinct_rewrites_select b (proj ++ " FROM " ++ dq ++ tableName ++ dq) Hq)
      as [Hd _].
    rewrite Hd. now rewrite !append_assoc.
  - split; [exact Ht|]. split; [exact Hc|].
    eexists. exact (Hagg "COUNT" "count" (match column with Some c => c | None => "*" end)).
  - split; [exact Ht|]. split; [exact Hc|].
    eexists. exact (Hagg "SUM" "sum" column).
  - split; [exact Ht|]. split; [exact Hc|].
    eexists. exact (Hagg "AVG" "avg" column).
  - split; [exact Ht|]. split; [exact Hc|].
    eexists. exact (Hagg "MAX" "max" column).
  - split; [exact Ht|]. split; [exact Hc|].
    eexists. exact (Hagg "MIN" "min" column).
Qed.

(** X3. Whatever chain of calls is run on a new builder, the builder
    keeps its table name and its connection, and its base clause stays a
    projection from that table: [SELECT ... FROM "table"]. *)
Theorem chain_base_clause :
  forall (tableName : string) (conection : option Pg.Pool)
         (calls : list Chain.Call) (b : TableQuery.t),
    Chain.run calls (TableQuery.new tableName conection) = ok b ->
    TableQuery.tableName b = tableName
    /\ TableQuery.conection b = conection
    /\ exists projection,
         TableQuery.query b
         = "SELECT " ++ projection ++ " FROM " ++ dq ++ tableName ++ dq.
Proof.
  intros tableName conection calls b Hrun.
  apply (run_keeps (Chain.base_ok tableName conection) (fun _ => True)
           (apply_base_ok tableName conection)
           calls _ b (Forall_any calls) Hrun).
  split; [reflexivity|]. split; [reflexivity|]. now exists "*".
Qed.

Lemma chain_base_clause_witness :
  exists projection,
    TableQuery.query
      (TableQuery.distinct (TableQuery.sum "price" (TableQuery.new "orders" None)))
    = "SELECT " ++ projection ++ " FROM " ++ dq ++ "orders" ++ dq.
Proof.
  apply (chain_base_clause "orders" None [Chain.Sum "price"; Chain.Distinct]).
  reflexivity.
Defined.

(** ** Builders whose conditions always render *)

Lemma stated_later_nodes_total (conds : list Condition.t) :
  Forall (fun cond => exists text, Calls.node_text cond = ok text) conds ->
  exists text, Calls.stated_later_nodes conds = ok text.
Proof.
  induction 1 as [|c cs [text Hc] _ [rest IH]]; cbn [Calls.stated_later_nodes].
  - now exists "".
  - rewrite Hc, IH. eexists; reflexivity.
Qed.

Lemma renderable_buildConditions (b : TableQuery.t) :
  Chain.renderable b -> exists text, TableQuery.buildConditions b = ok text.
Proof.
  unfold Chain.renderable. rewrite buildConditions_nodes.
  destruct (TableQuery.conditions b) as [|c cs]; intro H.
  - now exists "".
  - inversion H as [|? ? [text Hc] Hcs]; subst. cbn [Calls.stated_nodes].
    destruct (stated_later_nodes_total cs Hcs) as [rest Hrest].
    rewrite Hc, Hrest. eexists; reflexivity.
Qed.

Lemma conditionStr_plain (column op : string) (value : Js.value) (type : string) :
  String.eqb op "BETWEEN" = false -> String.eqb op "IN" = false ->
  exists text, conditionStr (TableQuery.leaf column op value type) = ok text.
Proof.
  intros Hb Hi. unfold conditionStr, operator_is.
  cbn [TableQuery.leaf Condition.operator Condition.column Condition.value].
  rewrite Hb, Hi.
  destruct (String.eqb op "IS NULL"); [eexists; reflexivity|].
  destruct (String.eqb op "IS NOT NULL"); eexists; reflexivity.
Qed.

Lemma push_renderable (node : Condition.t) (b : TableQuery.t) :
  Chain.renderable b -> (exists text, Calls.node_text node = ok text) ->
  Chain.renderable (TableQuery.set_nextType "AND" (TableQuery.push node b)).
Proof.
  intros Hall Hnode. unfold Chain.renderable. rewrite push_conditions.
  apply Forall_app. split; [exact Hall | now constructor].
Qed.

Lemma apply_renderable (c : Chain.Call) (b b' : TableQuery.t) :
  Chain.well_typed c = true -> Chain.apply c b = ok b' ->
  Chain.renderable b -> Chain.renderable b'.
Proof.
  intros Hwt Happly Hinv.
  destruct c; cbn [Chain.apply] in Happly;
    try (inversion Happly; subst b'; clear Happly); try exact Hinv.
  - unfold TableQuery.select. destruct (0 <? _)%nat; exact Hinv.
  - apply push_renderable; [exact Hinv|].
    cbn in Hwt. apply andb_prop in Hwt. destruct Hwt as [Hb Hi].
    apply negb_true_iff in Hb, Hi. now apply conditionStr_plain.
  - unfold Chain.renderable, TableQuery.orWhere, TableQuery.push.
    cbn [TableQuery.conditions TableQuery.set_conditions].
    apply Forall_app. split; [exact Hinv|]. constructor; [|constructor].
    cbn in Hwt. apply andb_prop in Hwt. destruct Hwt as [Hb Hi].
    apply negb_true_iff in Hb, Hi. now apply conditionStr_plain.
  - destruct (whereGroup_cases _ _ _ Happly) as [text ->].
    apply push_renderable; [exact Hinv|]. eexists; reflexivity.
  - destruct (whereBetween_cases _ _ _ _ Happly) as [-> | (lo & hi & ->)];
      [exact Hinv|].
    apply push_renderable; [exact Hinv|]. eexists. apply between_text.
  - destruct (whereIn_cases column values b) as [-> | (items & _ & ->)];
      [exact Hinv|].
    apply push_renderable; [exact Hinv|]. eexists; reflexivity.
  - apply push_renderable; [exact Hinv|]. eexists; reflexivity.
  - apply push_renderable; [exact Hinv|]. eexists; reflexivity.
  - destruct (orderBy_cases _ _ _ _ Happly) as (dir & _ & ->). exact Hinv.
Qed.

(** ** The base clause and the joins inside [buildQuery] *)

Lemma spaced_joins (fragments : list string) :
  fragments <> [] ->
  " " ++ String.concat " " fragments = Chain.spaced fragments.
Proof.
  unfold Chain.spaced.
  induction fragments as [|f fs IH]; [congruence|]. intros _.
  destruct fs as [|g gs]; [reflexivity|].
  change (String.concat " " (f :: g :: gs))
    with (f ++ " " ++ String.concat " " (g :: gs)).
  change (map (fun fragment => " " ++ fragment) (f :: g :: gs))
    with ((" " ++ f) :: map (fun fragment => " " ++ fragment) (g :: gs)).
  rewrite concat_empty_cons, <- IH by discriminate.
  reflexivity.
Qed.

Lemma joins_spaced (start : string) (fragments : list string) :
  (if (0 <? List.length fragments)%nat
   then start ++ " " ++ String.concat " " fragments
   else start)
  = start ++ Chain.spaced fragments.
Proof.
  destruct fragments as [|f fs].
  - exact (eq_sym (append_nil_r start)).
  - change (0 <? List.length (f :: fs))%nat with true. cbv iota.
    now rewrite <- spaced_joins by discriminate.
Qed.

Lemma buildQuery_parts (includeSelect : bool) (b : TableQuery.t) :
  TableQuery.buildQuery includeSelect b
  = rbind (TableQuery.buildConditions b) (fun whereClauses =>
    ok ((if includeSelect then TableQuery.query b else "")
          ++ Chain.spaced (TableQuery.joins b)
          ++ Chain.where_clause whereClauses
          ++ Chain.group_clause b
          ++ limit_clause b ++ offset_clause b ++ order_clause b)).
Proof.
  unfold TableQuery.buildQuery. cbv zeta.
  destruct (TableQuery.buildConditions b) as [e|whereClauses]; [reflexivity|].
  cbn [rbind ok]. f_equal.
  rewrite joins_spaced.
  generalize (if includeSelect then TableQuery.query b else "") as start.
  generalize (Chain.spaced (TableQuery.joins b)) as joined.
  intros joined start.
  unfold Chain.where_clause, Chain.group_clause, limit_clause, offset_clause,
    order_clause.
  destruct (0 <? String.length whereClauses)%nat;
    destruct (0 <? List.length (TableQuery._groupBy b))%nat;
    destruct (TableQuery.is_set (TableQuery.limitValue b));
    destruct (Js.truthy_num (TableQuery.limitValue b)
              && TableQuery.is_set (TableQuery.pageValue b));
    destruct ((0 <? List.length (TableQuery._orderBy b))%nat
              && negb (TableQuery.aggregate_prefix (TableQuery.query b)));
    cbn [append]; rewrite ?append_assoc, ?append_nil_r; reflexivity.
Qed.

Lemma buildQuery_base_and_joins (b : TableQuery.t) :
  TableQuery.buildQuery true b
  = rbind (TableQuery.buildQuery false (TableQuery.set_joins [] b)) (fun rest =>
    ok (TableQuery.query b ++ Chain.spaced (TableQuery.joins b) ++ rest)).
Proof.
  rewrite !buildQuery_parts.
  change (TableQuery.buildConditions (TableQuery.set_joins [] b))
    with (TableQuery.buildConditions b).
  destruct (TableQuery.buildConditions b) as [e|whereClauses]; reflexivity.
Qed.

(** X4. A chain run on a new builder in which no [where]/[orWhere] call
    passes the operator [BETWEEN] or [IN] leaves a builder whose
    conditions always render: [buildConditions] and [buildQuery] return
    a text, and that of [buildQuery] starts with the base clause. *)
Theorem chain_always_renders :
  forall (tableName : string) (conection : option Pg.Pool)
         (calls : list Chain.Call) (b : TableQuery.t),
    Chain.run calls (TableQuery.new tableName conection) = ok b ->
    forallb Chain.well_typed calls = true ->
    (exists text, TableQuery.buildConditions b = ok text)
    /\ exists rest,
         TableQuery.buildQuery true b = ok (TableQuery.query b ++ rest).
Proof.
  intros tableName conection calls b Hrun Hwt.
  assert (Hr : Chain.renderable b).
  { apply (run_keeps Chain.renderable (fun c => Chain.well_typed c = true)
             apply_renderable calls (TableQuery.new tableName conection) b).
    - apply Forall_forall. now apply forallb_forall.
    - exact Hrun.
    - constructor. }
  destruct (renderable_buildConditions b Hr) as [text Htext].
  split; [now exists text|].
  rewrite buildQuery_parts, Htext. cbn [rbind ok]. eexists. reflexivity.
Qed.

Lemma chain_always_renders_witness :
  exists rest,
    TableQuery.buildQuery true
      (TableQuery.whereNull "email"
         (TableQuery.where_ "age" (Some ">") (Js.VNum (Js.Int 18))
            (TableQuery.new "users" None)))
    = ok ("SELECT * FROM " ++ dq ++ "users" ++ dq ++ rest).
Proof.
  apply (chain_always_renders "users" None
           [Chain.Where "age" (Some ">") (Js.VNum (Js.Int 18));
            Chain.WhereNull "email"]);
    reflexivity.
Defined.

(** X5. [buildQuery] prints its clauses in one fixed order: the base
    clause (only when [includeSelect] is set), every join fragment behind
    one space, WHERE, GROUP BY, LIMIT, OFFSET and ORDER BY last; a clause
    with nothing to print is absent.  So [buildQuery(true)] is the base
    clause followed by what [buildQuery(false)] returns. *)
Theorem buildQuery_clause_order :
  forall (includeSelect : bool) (b : TableQuery.t),
    TableQuery.buildQuery includeSelect b
    = rbind (TableQuery.buildConditions b) (fun whereClauses =>
      ok ((if includeSelect then TableQuery.query b else "")
            ++ Chain.spaced (TableQuery.joins b)
            ++ Chain.where_clause whereClauses
            ++ Chain.group_clause b
            ++ limit_clause b ++ offset_clause b ++ order_clause b))
    /\ TableQuery.buildQuery true b
       = rbind (TableQuery.buildQuery false b) (fun rest =>
         ok (TableQuery.query b ++ rest)).
Proof.
  intros includeSelect b. split; [apply buildQuery_parts|].
  rewrite !buildQuery_parts.
  destruct (TableQuery.buildConditions b) as [e|whereClauses]; reflexivity.
Qed.

(** ** Joins *)

Lemma set_joins_same (b : TableQuery.t) :
  TableQuery.set_joins (TableQuery.joins b) b = b.
Proof. now destruct b. Qed.

Lemma apply_join (c : Chain.Call) (b : TableQuery.t) :
  Chain.is_join c = true ->
  Chain.apply c b
  = ok (TableQuery.set_joins (TableQuery.joins b ++ [Chain.fragment_of c])%list b).
Proof. destruct c; try discriminate; reflexivity. Qed.

Lemma run_joins (calls : list Chain.Call) :
  forall b,
    forallb Chain.is_join calls = true ->
    Chain.run calls b
    = ok (TableQuery.set_joins
            (TableQuery.joins b ++ map Chain.fragment_of calls)%list b).
Proof.
  induction calls as [|c cs IH]; intros b Hj.
  - cbn. now rewrite app_nil_r, set_joins_same.
  - cbn [forallb] in Hj. apply andb_prop in Hj. destruct Hj as [Hc Hcs].
    cbn [Chain.run]. rewrite (apply_join c b Hc). cbn [rbind ok].
    rewrite (IH _ Hcs).
    cbn [TableQuery.joins TableQuery.set_joins map].
    now rewrite <- app_assoc.
Qed.

(** X6. A chain of [join]/[leftJoin]/[rightJoin] calls never throws and
    changes the join list only: it appends one fragment per call, in call
    order.  On a new builder the query is the base clause followed by
    these fragments, each behind one space. *)
Theorem joins_in_call_order :
  forall (calls : list Chain.Call) (b : TableQuery.t),
    forallb Chain.is_join calls = true ->
    Chain.run calls b
    = ok (TableQuery.set_joins
            (TableQuery.joins b ++ map Chain.fragment_of calls)%list b)
    /\ forall (tableName : string) (conection : option Pg.Pool),
         rbind (Chain.run calls (TableQuery.new tableName conection))
               (TableQuery.buildQuery true)
         = ok ("SELECT * FROM " ++ dq ++ tableName ++ dq
                 ++ Chain.spaced (map Chain.fragment_of calls)).
Proof.
  intros calls b Hj. split; [now apply run_joins|].
  intros tableName conection.
  rewrite (run_joins calls _ Hj). cbn [rbind ok].
  rewrite buildQuery_parts.
  cbn [TableQuery.new TableQuery.joins TableQuery.set_joins app].
  unfold TableQuery.buildConditions.
  cbn [TableQuery.conditions TableQuery.set_joins map_index rbind ok String.concat].
  unfold Chain.where_clause, Chain.group_clause, limit_clause, offset_clause,
    order_clause.
  cbn. rewrite ?append_nil_r, ?append_assoc. reflexivity.
Qed.

Lemma joins_in_call_order_witness :
  rbind (Chain.run [Chain.Join "orders" "users.id" "=" "orders.user_id";
                    Chain.LeftJoin "pets" "users.id" "=" "pets.owner"]
           (TableQuery.new "users" None))
        (TableQuery.buildQuery true)
  = ok ("SELECT * FROM " ++ dq ++ "users" ++ dq
          ++ " JOIN " ++ dq ++ "orders" ++ dq ++ " ON users.id = orders.user_id"
          ++ " LEFT JOIN " ++ dq ++ "pets" ++ dq ++ " ON users.id = pets.owner").
Proof.
  exact (proj2 (joins_in_call_order
                  [Chain.Join "orders" "users.id" "=" "orders.user_id";
                   Chain.LeftJoin "pets" "users.id" "=" "pets.owner"]
                  (TableQuery.new "users" None) eq_refl)
               "users" None).
Defined.

(** ** Literals in predicates *)

Lemma toString_quote (v : Js.value) : Js.toString (quote v) = Literal.text v.
Proof. now destruct v. Qed.

Lemma conditionStr_comparison (column operator : string) (value : Js.value)
  (type : string) :
  Literal.special operator = false ->
  conditionStr (TableQuery.leaf column operator value type)
  = ok (column ++ " " ++ operator ++ " " ++ Literal.text value).
Proof.
  unfold Literal.special. intro H.
  apply orb_false_elim in H. destruct H as [H Hnn].
  apply orb_false_elim in H. destruct H as [H Hn].
  apply orb_false_elim in H. destruct H as [Hb Hi].
  unfold conditionStr, operator_is.
  cbn [TableQuery.leaf Condition.operator Condition.column Condition.value tpl].
  now rewrite Hb, Hi, Hn, Hnn, toString_quote.
Qed.

Lemma buildConditions_last (node : Condition.t) (b : TableQuery.t) (text : string) :
  TableQuery.conditions b = [] ->
  Calls.node_text node = ok text ->
  TableQuery.buildConditions (TableQuery.set_nextType "AND" (TableQuery.push node b))
  = ok text.
Proof.
  intros Hnil Htext. rewrite buildConditions_nodes, push_conditions, Hnil.
  cbn [app Calls.stated_nodes Calls.stated_later_nodes]. rewrite Htext.
  cbn [rbind ok]. now rewrite append_nil_r.
Qed.

(** X7. A comparison is printed as [column operator literal]: the
    operator as given ([=] when omitted), a string value between single
    quotes with its characters unchanged, quotes included, and any
    other value without quotes. *)
Theorem where_prints_literal :
  forall (column operator : string) (value : Js.value) (b : TableQuery.t),
    TableQuery.conditions b = [] ->
    Literal.special operator = false ->
    TableQuery.buildConditions (TableQuery.where_ column (Some operator) value b)
    = ok (column ++ " " ++ operator ++ " " ++ Literal.text value)
    /\ TableQuery.buildConditions (TableQuery.where_ column None value b)
       = ok (column ++ " = " ++ Literal.text value)
    /\ forall s, Literal.text (Js.VStr s) = "'" ++ s ++ "'".
Proof.
  intros column operator value b Hnil Hop. split; [|split].
  - apply buildConditions_last; [exact Hnil|].
    now apply conditionStr_comparison.
  - apply buildConditions_last; [exact Hnil|].
    now apply (conditionStr_comparison column "=").
  - reflexivity.
Qed.

Lemma where_prints_literal_witness :
  TableQuery.buildConditions
    (TableQuery.where_ "name" (Some "=") (Js.VStr "O'Brien")
       (TableQuery.new "users" None))
  = ok "name = 'O'Brien'".
Proof.
  apply (where_prints_literal "name" "=" (Js.VStr "O'Brien")
           (TableQuery.new "users" None)); reflexivity.
Defined.

(** ** Lists *)

Lemma join_quoted_strings (items : list string) :
  Js.join ", " (map quote (map Js.VStr items))
  = String.concat ", " (map (fun s => "'" ++ s ++ "'") items).
Proof.
  unfold Js.join. rewrite !map_map. reflexivity.
Qed.

Lemma join_numbers (items : list Z) :
  Js.join ", " (map quote (map (fun z => Js.VNum (Js.Int z)) items))
  = String.concat ", " (map (fun z => Js.num_toString (Js.Int z)) items).
Proof.
  unfold Js.join. rewrite !map_map. reflexivity.
Qed.

(** X8. [whereIn] on a non-empty array appends exactly one node and
    resets the pending combinator; the node prints as
    [column IN (v1, v2, ...)], the values in array order behind a comma
    and a space, strings between single quotes and integers bare. *)
Theorem whereIn_prints_list :
  forall (column : string) (first : Js.value) (others : list Js.value)
         (b : TableQuery.t),
    TableQuery.conditions (TableQuery.whereIn column (Js.VArr (first :: others)) b)
    = (TableQuery.conditions b
         ++ [TableQuery.leaf column "IN" (Js.VArr (first :: others))
               (TableQuery.nextType b)])%list
    /\ TableQuery.nextType (TableQuery.whereIn column (Js.VArr (first :: others)) b)
       = "AND"
    /\ (TableQuery.conditions b = [] ->
        TableQuery.buildConditions
          (TableQuery.whereIn column (Js.VArr (first :: others)) b)
        = ok (column ++ " IN (" ++ Js.join ", " (map quote (first :: others)) ++ ")"))
    /\ (forall strings,
           Js.join ", " (map quote (map Js.VStr strings))
           = String.concat ", " (map (fun s => "'" ++ s ++ "'") strings))
    /\ (forall numbers,
           Js.join ", " (map quote (map (fun z => Js.VNum (Js.Int z)) numbers))
           = String.concat ", " (map (fun z => Js.num_toString (Js.Int z)) numbers)).
Proof.
  intros column first others b.
  split; [reflexivity|]. split; [reflexivity|]. split; [|split].
  - intro Hnil.
    change (TableQuery.whereIn column (Js.VArr (first :: others)) b)
      with (TableQuery.set_nextType "AND"
              (TableQuery.push
                 (TableQuery.leaf column "IN" (Js.VArr (first :: others))
                    (TableQuery.nextType b)) b)).
    apply buildConditions_last; [exact Hnil | reflexivity].
  - apply join_quoted_strings.
  - apply join_numbers.
Qed.

Lemma whereIn_prints_list_witness :
  TableQuery.buildConditions
    (TableQuery.whereIn "id" (Js.VArr [Js.VNum (Js.Int 1); Js.VStr "b"])
       (TableQuery.new "users" None))
  = ok "id IN (1, 'b')".
Proof.
  apply (whereIn_prints_list "id" (Js.VNum (Js.Int 1)) [Js.VStr "b"]
           (TableQuery.new "users" None)).
  reflexivity.
Defined.

(** ** NULL tests *)

Lemma map_index_last_ext {A B : Type} (f : nat -> A -> result B) (x y : A) :
  (forall index, f index x = f index y) ->
  forall (items : list A) (index : nat),
    map_index f index (items ++ [x]) = map_index f index (items ++ [y]).
Proof.
  intros Hxy items. induction items as [|a rest IH]; intro index.
  - cbn. now rewrite Hxy.
  - cbn [app map_index]. now rewrite IH.
Qed.

Lemma render_null_ignores_value (operator : string) (column : string)
  (value : Js.value) (type : string) (index : nat) :
  operator = "IS NULL" \/ operator = "IS NOT NULL" ->
  render_condition index (TableQuery.leaf column operator value type)
  = render_condition index (TableQuery.null_node column operator type).
Proof. intros [-> | ->]; reflexivity. Qed.

(** X9. The value of a NULL test is ignored: [where(column, 'IS NULL',
    value)] renders, at any position and for every value, exactly what
    [whereNull(column)] renders, and likewise for [IS NOT NULL]; the node
    prints as [column IS NULL]. *)
Theorem null_test_ignores_value :
  forall (column : string) (value : Js.value) (b : TableQuery.t),
    TableQuery.buildConditions (TableQuery.where_ column (Some "IS NULL") value b)
    = TableQuery.buildConditions (TableQuery.whereNull column b)
    /\ TableQuery.buildConditions
         (TableQuery.where_ column (Some "IS NOT NULL") value b)
       = TableQuery.buildConditions (TableQuery.whereNotNull column b)
    /\ conditionStr (TableQuery.null_node column "IS NULL" (TableQuery.nextType b))
       = ok (column ++ " IS NULL")
    /\ conditionStr (TableQuery.null_node column "IS NOT NULL" (TableQuery.nextType b))
       = ok (column ++ " IS NOT NULL").
Proof.
  intros column value b.
  split; [|split; [|split; reflexivity]];
    unfold TableQuery.buildConditions, TableQuery.where_, TableQuery.whereNull,
      TableQuery.whereNotNull, TableQuery.push;
    cbn [TableQuery.conditions TableQuery.set_nextType TableQuery.set_conditions
         TableQuery.default_operator];
    f_equal; apply map_index_last_ext; intro index;
    apply render_null_ignores_value; auto.
Qed.

(** ** One call of the execution layer *)

Section GetResponse.

Context {Db : Type} (env : Env) (driver : Driver Db).

Ltac drive :=
  repeat (match goal with
          | |- context [drv_query ?d ?p ?s ?x] =>
              destruct (drv_query d p s x) as [[?|?] ?]
          | |- context [drv_connect ?d ?p ?x] =>
              destruct (drv_connect d p x) as [[?|] ?]
          | |- context [drv_end ?d ?p ?x] =>
              destruct (drv_end d p x) as [[?|] ?]
          | |- context [TableQuery.database_missing ?e] =>
              destruct (TableQuery.database_missing e)
          end; cbn -[TableQuery.database_missing app]).

Lemma get_response_trace (sql : string) (st : @TableQuery.Run Db) :
  exists l,
    sent (TableQuery.world (snd (TableQuery.get_response env driver sql st)))
    = (sent (TableQuery.world st) ++ l)%list
    /\ Recovery.initial l [sql; Recovery.create_sql env; sql]
    /\ TableQuery.self (snd (TableQuery.get_response env driver sql st))
       = TableQuery.set_conection
           (TableQuery.conection
              (TableQuery.self (snd (TableQuery.get_response env driver sql st))))
           (TableQuery.self st).
Proof.
  unfold TableQuery.get_response, bind, TableQuery.this, try_catch, raise,
    TableQuery.in_world, TableQuery.assign_conection,
    world_query, world_end, world_connect, Recovery.initial, Recovery.create_sql.
  destruct st as [b w]; cbn [TableQuery.self TableQuery.world fst snd].
  destruct (TableQuery.conection b) as [pool|] eqn:Hpool;
    cbn -[TableQuery.database_missing app].
  - drive;
      first [ exists [sql]; split; [reflexivity|];
              split; [eexists; reflexivity|];
              destruct b; cbn in Hpool |- *; now subst
            | eexists; split; [rewrite <- ?app_assoc; reflexivity|];
              split; [eexists; reflexivity|]; now destruct b ].
  - exists []. split; [now rewrite app_nil_r|].
    split; [eexists; reflexivity|].
    destruct b; cbn in Hpool |- *; now subst.
Qed.

End GetResponse.

Section GetResponseCases.

Context {Db : Type} (env : Env) (driver : Driver Db).

(** X10. One call of [#get_response]: without a connection it throws and
    sends nothing; when the driver answers, the rows are returned after
    that one statement; when the driver rejects with any code but
    [3D000], the rejection is thrown as it is after that one statement.
    The builder is untouched in all three cases. *)
Theorem get_response_plain_outcomes :
  forall (sql : string) (b : TableQuery.t) (w : World Db),
    (TableQuery.conection b = None ->
       TableQuery.get_response env driver sql
         {| TableQuery.self := b; TableQuery.world := w |}
       = (inl NoConnection, {| TableQuery.self := b; TableQuery.world := w |}))
    /\ (forall pool rows db',
           TableQuery.conection b = Some pool ->
           drv_query driver pool sql (db w) = (inr rows, db') ->
           TableQuery.get_response env driver sql
             {| TableQuery.self := b; TableQuery.world := w |}
           = (inr rows,
              {| TableQuery.self := b;
                 TableQuery.world := {| db := db'; sent := sent w ++ [sql] |} |}))
    /\ (forall pool d db',
           TableQuery.conection b = Some pool ->
           drv_query driver pool sql (db w) = (inl d, db') ->
           Pg.code d <> Some "3D000" ->
           TableQuery.get_response env driver sql
             {| TableQuery.self := b; TableQuery.world := w |}
           = (inl (Rejected d),
              {| TableQuery.self := b;
                 TableQuery.world := {| db := db'; sent := sent w ++ [sql] |} |})).
Proof.
  intros sql b w.
  unfold TableQuery.get_response, bind, TableQuery.this, try_catch, raise,
    TableQuery.in_world, world_query.
  cbn [TableQuery.self TableQuery.world].
  split; [|split].
  - intros ->. reflexivity.
  - intros pool rows db' -> Hq. cbv beta iota.
    cbn [TableQuery.self TableQuery.world]. now rewrite Hq.
  - intros pool d db' -> Hq Hcode. cbv beta iota.
    cbn [TableQuery.self TableQuery.world]. rewrite Hq.
    cbn -[TableQuery.database_missing].
    assert (Hm : TableQuery.database_missing (Rejected d) = false).
    { unfold TableQuery.database_missing.
      destruct (Pg.code d) as [c|]; [|reflexivity].
      apply String.eqb_neq. congruence. }
    now rewrite Hm.
Qed.

(** X11. Whatever the driver does, one call of [#get_response] hands it an
    initial part of: the statement, one [CREATE DATABASE], the statement
    again.  So the database is created at most once and the statement is
    tried at most twice.  The call changes nothing of the builder but its
    connection. *)
Theorem get_response_recovers_once :
  forall (sql : string) (st : @TableQuery.Run Db),
    let st' := snd (TableQuery.get_response env driver sql st) in
    (exists l,
        sent (TableQuery.world st') = (sent (TableQuery.world st) ++ l)%list
        /\ Recovery.initial l [sql; Recovery.create_sql env; sql])
    /\ TableQuery.self st'
       = TableQuery.set_conection (TableQuery.conection (TableQuery.self st'))
           (TableQuery.self st).
Proof.
  intros sql st st'. subst st'.
  destruct (get_response_trace env driver sql st) as (l & Hl & Hinit & Hself).
  split; [now exists l | exact Hself].
Qed.

End GetResponseCases.

Lemma get_response_plain_outcomes_witness :
  TableQuery.get_response Demo.env Demo.driver "BAD"
    (Demo.run (TableQuery.new "t" None))
  = (inl NoConnection, Demo.run (TableQuery.new "t" None))
  /\ fst (TableQuery.get_response Demo.env Demo.driver "SELECT 1"
            (Demo.run Demo.users))
     = inr [Js.VObj [("id", Js.VNum (Js.Int 0))]]
  /\ fst (TableQuery.get_response Demo.env Demo.driver "BAD"
            (Demo.run Demo.users))
     = inl (Rejected {| Pg.code := Some "42601"; Pg.message := "syntax error" |}).
Proof.
  split; [|split].
  - apply (proj1 (get_response_plain_outcomes Demo.env Demo.driver "BAD"
                    (TableQuery.new "t" None) Demo.world)).
    reflexivity.
  - unfold Demo.run. rewrite (proj1 (proj2 (get_response_plain_outcomes Demo.env Demo.driver
                             "SELECT 1" Demo.users Demo.world))
               Demo.pool [Js.VObj [("id", Js.VNum (Js.Int 0))]] 1 eq_refl eq_refl).
    reflexivity.
  - unfold Demo.run. rewrite (proj2 (proj2 (get_response_plain_outcomes Demo.env Demo.driver
                             "BAD" Demo.users Demo.world))
               Demo.pool {| Pg.code := Some "42601"; Pg.message := "syntax error" |}
               0 eq_refl eq_refl); [reflexivity | discriminate].
Defined.

Section RecoveryPath.

Context {Db : Type} (env : Env) (driver : Driver Db).

(** X12. When the driver rejects the statement with code [3D000] and the
    five steps that follow succeed (end the pool, connect without a
    database, [CREATE DATABASE], end that pool), the statement is sent
    once more on a pool of the target database and its outcome is the
    outcome of the call, rows or rejection, with no further attempt; the
    builder then holds the new pool. *)
Theorem get_response_after_creation :
  forall (sql : string) (b : TableQuery.t) (w : World Db) (pool : Pg.Pool)
         (d : Pg.DriverError) (created : Pg.Rows) (db1 db2 db3 db4 db5 : Db),
    TableQuery.conection b = Some pool ->
    drv_query driver pool sql (db w) = (inl d, db1) ->
    Pg.code d = Some "3D000" ->
    drv_end driver pool db1 = (None, db2) ->
    drv_connect driver (Recovery.admin_pool env) db2 = (None, db3) ->
    drv_query driver (Recovery.admin_pool env) (Recovery.create_sql env) db3
    = (inr created, db4) ->
    drv_end driver (Recovery.admin_pool env) db4 = (None, db5) ->
    TableQuery.get_response env driver sql
      {| TableQuery.self := b; TableQuery.world := w |}
    = (match fst (drv_query driver (Recovery.target_pool env) sql db5) with
       | inl again => inl (Rejected again)
       | inr rows => inr rows
       end,
       {| TableQuery.self :=
            TableQuery.set_conection (Some (Recovery.target_pool env)) b;
          TableQuery.world :=
            {| db := snd (drv_query driver (Recovery.target_pool env) sql db5);
               sent := sent w ++ [sql; Recovery.create_sql env; sql] |} |}).
Proof.
  intros sql b w pool d created db1 db2 db3 db4 db5
    Hpool Hq Hcode Hend Hconn Hcreate Hend'.
  unfold Recovery.admin_pool, Recovery.create_sql, Recovery.target_pool in *.
  unfold TableQuery.get_response, bind, TableQuery.this, try_catch, raise,
    TableQuery.in_world, TableQuery.assign_conection,
    world_query, world_end, world_connect.
  cbn [TableQuery.self TableQuery.world]. rewrite Hpool. cbv beta iota.
  cbn [TableQuery.self TableQuery.world]. rewrite Hq.
  cbn -[TableQuery.database_missing app append dq tpl].
  assert (Hm : TableQuery.database_missing (Rejected d) = true).
  { unfold TableQuery.database_missing. now rewrite Hcode. }
  rewrite Hm. cbn -[app append dq tpl].
  rewrite Hend. cbn -[app append dq tpl].
  rewrite Hconn. cbn -[app append dq tpl].
  rewrite Hcreate. cbn -[app append dq tpl].
  rewrite Hend'. cbn -[app append dq tpl].
  match goal with
  | |- context [drv_query driver ?p sql db5] =>
      destruct (drv_query driver p sql db5) as [[again|rows] db6]
  end; cbn -[app append dq tpl]; rewrite <- !app_assoc; reflexivity.
Qed.

End RecoveryPath.

Lemma get_response_after_creation_witness :
  TableQuery.get_response Demo.env Demo.driver_missing_database "SELECT 1"
    (Demo.run Demo.users)
  = (inr [],
     {| TableQuery.self :=
          TableQuery.set_conection (Some (Recovery.target_pool Demo.env)) Demo.users;
        TableQuery.world :=
          {| db := 2;
             sent := ["SELECT 1"; Recovery.create_sql Demo.env; "SELECT 1"] |} |}).
Proof.
  unfold Demo.run.
  rewrite (get_response_after_creation Demo.env Demo.driver_missing_database
             "SELECT 1" Demo.users Demo.world Demo.pool
             {| Pg.code := Some "3D000"; Pg.message := "database does not exist" |}
             [] 0 0 0 1 1);
    reflexivity.
Defined.

(** ** Terminal operations and the builder they run on *)

Section TerminalFrame.

Context {Db : Type} (env : Env) (driver : Driver Db).

Lemma get_response_keeps_conditions (sql : string) (st : @TableQuery.Run Db) :
  TableQuery.conditions
    (TableQuery.self (snd (TableQuery.get_response env driver sql st)))
  = TableQuery.conditions (TableQuery.self st)
  /\ TableQuery.nextType
       (TableQuery.self (snd (TableQuery.get_response env driver sql st)))
     = TableQuery.nextType (TableQuery.self st).
Proof.
  destruct (get_response_trace env driver sql st) as (l & _ & _ & Hself).
  rewrite Hself. split; reflexivity.
Qed.

Lemma first_keeps_conditions (st : @TableQuery.Run Db) :
  TableQuery.conditions (TableQuery.self (snd (TableQuery.first env driver st)))
  = TableQuery.conditions (TableQuery.self st)
  /\ TableQuery.nextType (TableQuery.self (snd (TableQuery.first env driver st)))
     = TableQuery.nextType (TableQuery.self st).
Proof.
  unfold TableQuery.first, bind, TableQuery.this, lift_result, ret.
  destruct (TableQuery.buildQuery true (TableQuery.self st)) as [e|sqlQuery];
    [split; reflexivity|].
  pose proof (get_response_keeps_conditions sqlQuery st) as H.
  destruct (TableQuery.get_response env driver sqlQuery st) as [[e|rows] st'];
    exact H.
Qed.

(** X13. [find(value, column)] is [first()] on the builder with the
    condition [column = value] appended ([id] when the column is
    omitted), and the condition stays on the builder afterwards, whatever
    the outcome: a second [find] on the same builder searches with both
    conditions. *)
Theorem find_appends_condition :
  forall (value : Js.value) (column : option string) (st : @TableQuery.Run Db),
    let name := match column with Some c => c | None => "id" end in
    TableQuery.find env driver value column st
    = TableQuery.first env driver
        {| TableQuery.self :=
             TableQuery.where_ name (Some "=") value (TableQuery.self st);
           TableQuery.world := TableQuery.world st |}
    /\ TableQuery.conditions
         (TableQuery.self (snd (TableQuery.find env driver value column st)))
       = (TableQuery.conditions (TableQuery.self st)
            ++ [TableQuery.leaf name "=" value
                  (TableQuery.nextType (TableQuery.self st))])%list
    /\ TableQuery.nextType
         (TableQuery.self (snd (TableQuery.find env driver value column st)))
       = "AND".
Proof.
  intros value column st name.
  assert (Hfind :
    TableQuery.find env driver value column st
    = TableQuery.first env driver
        {| TableQuery.self :=
             TableQuery.where_ name (Some "=") value (TableQuery.self st);
           TableQuery.world := TableQuery.world st |}) by reflexivity.
  split; [exact Hfind|].
  rewrite Hfind.
  destruct (first_keeps_conditions
              {| TableQuery.self :=
                   TableQuery.where_ name (Some "=") value (TableQuery.self st);
                 TableQuery.world := TableQuery.world st |}) as [Hc Hn].
  rewrite Hc, Hn. split; reflexivity.
Qed.

End TerminalFrame.

Example find_twice_accumulates :
  let one := Js.VNum (Js.Int 1) in
  let two := Js.VNum (Js.Int 2) in
  let after := snd (TableQuery.find Demo.env Demo.driver one None
                      (Demo.run Demo.users)) in
  sent (TableQuery.world
          (snd (TableQuery.find Demo.env Demo.driver two None after)))
  = ["SELECT * FROM " ++ dq ++ "users" ++ dq ++ " WHERE id = 1";
     "SELECT * FROM " ++ dq ++ "users" ++ dq ++ " WHERE id = 1 AND id = 2"].
Proof. reflexivity. Qed.

(** ** [update] on what is not an object *)

Section UpdateEdges.

Context {Db : Type} (env : Env) (driver : Driver Db).

(** X14. [update(data)] throws its own error for every [data] that is
    not of type object or is an array; [null] passes that test and ends
    in a [TypeError]; in both cases builder and world are left as they
    were.  An object without keys is accepted: with a condition on the
    builder the statement goes out with an empty [SET] list. *)
Theorem update_input_edges :
  forall (st : @TableQuery.Run Db),
    (forall data,
        Js.typeof data <> "object" \/ Js.isArray data = true ->
        TableQuery.update env driver data st = (inl UpdateNotObject, st))
    /\ TableQuery.update env driver Js.VNull st = (inl TypeError, st)
    /\ (forall whereClauses,
           TableQuery.buildConditions (TableQuery.self st) = ok whereClauses ->
           whereClauses <> "" ->
           TableQuery.update env driver (Js.VObj []) st
           = TableQuery.get_response env driver
               ("UPDATE " ++ dq ++ TableQuery.tableName (TableQuery.self st) ++ dq
                  ++ " SET  WHERE " ++ whereClauses ++ " RETURNING *") st).
Proof.
  intro st. split; [|split].
  - intros data [Ht | Ha]; unfold TableQuery.update.
    + apply String.eqb_neq in Ht. now rewrite Ht.
    + rewrite Ha. now rewrite orb_true_r.
  - reflexivity.
  - intros whereClauses Hw Hne.
    unfold TableQuery.update, bind, lift_result, TableQuery.this.
    cbn [Js.typeof Js.isArray String.eqb Ascii.eqb Bool.eqb negb orb
         TableQuery.object_keys Js.keys map rbind ok String.concat].
    cbn -[TableQuery.get_response TableQuery.buildConditions append dq].
    rewrite Hw.
    destruct whereClauses as [|c rest]; [congruence|].
    cbn -[TableQuery.get_response append dq]. reflexivity.
Qed.

End UpdateEdges.

Lemma update_input_edges_witness :
  TableQuery.update Demo.env Demo.driver (Js.VArr []) (Demo.run Demo.users)
  = (inl UpdateNotObject, Demo.run Demo.users)
  /\ sent (TableQuery.world (snd
       (TableQuery.update Demo.env Demo.driver (Js.VObj [])
          (Demo.run (TableQuery.whereNull "email" Demo.users)))))
     = ["UPDATE " ++ dq ++ "users" ++ dq ++ " SET  WHERE email IS NULL RETURNING *"].
Proof.
  split.
  - apply (proj1 (update_input_edges Demo.env Demo.driver (Demo.run Demo.users))).
    now right.
  - rewrite (proj2 (proj2 (update_input_edges Demo.env Demo.driver
                             (Demo.run (TableQuery.whereNull "email" Demo.users))))
               "email IS NULL" eq_refl); [reflexivity | discriminate].
Defined.

(** ** [insert] row by row *)

Section InsertRows.

Context {Db : Type} (env : Env) (driver : Driver Db).

Lemma insert_sql_object (tableName : string) (row : Js.value) :
  TableQuery.is_object row = true ->
  TableQuery.insert_sql tableName row = ok (Batch.statement tableName row).
Proof.
  unfold Batch.statement.
  destruct row; try discriminate; intros _; reflexivity.
Qed.

Lemma insert_rows_outcome (items : list Js.value) :
  forall (results : list Js.value) (st : @TableQuery.Run Db),
    forallb TableQuery.is_object items = true ->
    match fst (TableQuery.insert_rows env driver items results st) with
    | inr all => List.length all = List.length results + List.length items
    | inl e => from_execution e
    end.
Proof.
  induction items as [|row rest IH]; intros results st Hobj.
  - cbn. lia.
  - cbn [forallb] in Hobj. apply andb_prop in Hobj. destruct Hobj as [Hrow Hrest].
    cbn [TableQuery.insert_rows]. unfold bind at 1 2 3, TableQuery.this, lift_result.
    rewrite (insert_sql_object _ row Hrow). cbn [ok].
    pose proof (get_response_raises env driver
                  (Batch.statement (TableQuery.tableName (TableQuery.self st)) row) st)
      as Hraise.
    destruct (TableQuery.get_response env driver _ st) as [[e|rows] st'].
    + now apply Hraise.
    + specialize (IH (results ++ [nth 0 rows Js.VUndefined])%list st' Hrest).
      destruct (fst (TableQuery.insert_rows env driver rest
                       (results ++ [nth 0 rows Js.VUndefined]) st')) as [e|all].
      * exact IH.
      * rewrite IH, length_app. simpl. lia.
Qed.

(** Without a connection the first row already fails, and nothing is
    sent. *)
Lemma insert_rows_disconnected (row : Js.value) (rest results : list Js.value)
  (st : @TableQuery.Run Db) :
  TableQuery.conection (TableQuery.self st) = None ->
  TableQuery.is_object row = true ->
  TableQuery.insert_rows env driver (row :: rest) results st = (inl NoConnection, st).
Proof.
  intros Hnone Hrow. cbn [TableQuery.insert_rows].
  unfold bind at 1 2, TableQuery.this, lift_result.
  rewrite (insert_sql_object _ row Hrow). cbn [ok].
  unfold bind at 1, TableQuery.get_response, bind, TableQuery.this, raise.
  now rewrite Hnone.
Qed.

End InsertRows.

Section InsertStatements.

Context {Db : Type} (env : Env) (driver : Driver Db).

Hypothesis no_missing_database : Batch.never_missing driver.

(** With such a driver a call of the execution layer is one statement. *)
Lemma get_response_single (sql : string) (st : @TableQuery.Run Db)
  (pool : Pg.Pool) :
  TableQuery.conection (TableQuery.self st) = Some pool ->
  TableQuery.get_response env driver sql st
  = (match fst (drv_query driver pool sql (db (TableQuery.world st))) with
     | inl d => inl (Rejected d)
     | inr rows => inr rows
     end,
     {| TableQuery.self := TableQuery.self st;
        TableQuery.world :=
          {| db := snd (drv_query driver pool sql (db (TableQuery.world st)));
             sent := sent (TableQuery.world st) ++ [sql] |} |}).
Proof.
  intro Hpool.
  unfold TableQuery.get_response, bind, TableQuery.this, try_catch, raise,
    TableQuery.in_world, world_query.
  rewrite Hpool. cbv beta iota.
  pose proof (no_missing_database pool sql (db (TableQuery.world st))) as Hnever.
  destruct (drv_query driver pool sql (db (TableQuery.world st))) as [[d|rows] db'].
  - cbn -[TableQuery.database_missing].
    assert (Hm : TableQuery.database_missing (Rejected d) = false).
    { unfold TableQuery.database_missing.
      specialize (Hnever d db' eq_refl).
      destruct (Pg.code d) as [c|]; [|reflexivity].
      apply String.eqb_neq. congruence. }
    now rewrite Hm.
  - reflexivity.
Qed.

(** The loop of [insert] against the server run on the statements of the
    rows. *)
Lemma insert_rows_serve (pool : Pg.Pool) (tableName : string)
  (items : list Js.value) :
  forall (results : list Js.value) (st : @TableQuery.Run Db),
    TableQuery.conection (TableQuery.self st) = Some pool ->
    TableQuery.tableName (TableQuery.self st) = tableName ->
    forallb TableQuery.is_object items = true ->
    TableQuery.insert_rows env driver items results st
    = (match Server.rejection
               (Server.serve driver pool (map (Batch.statement tableName) items)
                  (db (TableQuery.world st))) with
       | Some d => inl (Rejected d)
       | None =>
           inr (results
                  ++ map (fun rows => nth 0 rows Js.VUndefined)
                       (Server.answered
                          (Server.serve driver pool
                             (map (Batch.statement tableName) items)
                             (db (TableQuery.world st)))))%list
       end,
       {| TableQuery.self := TableQuery.self st;
          TableQuery.world :=
            {| db := Server.state
                       (Server.serve driver pool
                          (map (Batch.statement tableName) items)
                          (db (TableQuery.world st)));
               sent := sent (TableQuery.world st)
                         ++ Server.reached
                              (Server.serve driver pool
                                 (map (Batch.statement tableName) items)
                                 (db (TableQuery.world st))) |} |}).
Proof.
  induction items as [|row rest IH]; intros results st Hpool Htable Hobj.
  - cbn. rewrite !app_nil_r. destruct st as [b w]. now destruct w.
  - cbn [forallb] in Hobj. apply andb_prop in Hobj. destruct Hobj as [Hrow Hrest].
    assert (Hstep :
      TableQuery.insert_rows env driver (row :: rest) results st
      = match TableQuery.get_response env driver (Batch.statement tableName row) st with
        | (inl e, st') => (inl e, st')
        | (inr rows, st') =>
            TableQuery.insert_rows env driver rest
              (results ++ [nth 0 rows Js.VUndefined]) st'
        end).
    { cbn [TableQuery.insert_rows]. unfold bind, TableQuery.this, lift_result.
      now rewrite (insert_sql_object _ row Hrow), Htable. }
    rewrite Hstep. clear Hstep.
    rewrite (get_response_single (Batch.statement tableName row) st pool Hpool).
    cbn [map Server.serve].
    destruct (drv_query driver pool (Batch.statement tableName row)
                (db (TableQuery.world st))) as [[d|rows] server'].
    + reflexivity.
    + cbn [fst snd]. rewrite IH by assumption.
      cbn [TableQuery.self TableQuery.world db sent Server.answered
           Server.rejection Server.reached Server.state map].
      rewrite <- !app_assoc. reflexivity.
Qed.

End InsertStatements.

Section InsertAgainstServer.

Context {Db : Type} (env : Env) (driver : Driver Db).

(** X15. Once the array passed the validation, what [insert] returns or
    throws is decided by the driver.  Whatever the driver, a returned
    list has exactly one result per row.  Without a connection a
    non-empty array throws the no-connection error wrapped under the
    insert prefix, and nothing is sent.  On a connected builder, with a
    driver that never reports a missing database, [insert] returns the
    first row of each answer when the driver answers every row, and
    throws the text of the driver's rejection under the insert prefix as
    soon as it rejects one. *)
Theorem insert_outcome :
  forall (items : list Js.value) (st : @TableQuery.Run Db),
    forallb TableQuery.is_object items = true ->
    (forall results,
        fst (TableQuery.insert env driver (Js.VArr items) st) = inr results ->
        List.length results = List.length items)
    /\ (TableQuery.conection (TableQuery.self st) = None -> items <> [] ->
        TableQuery.insert env driver (Js.VArr items) st
        = (inl (InsertFailed (error_message NoConnection)), st))
    /\ (forall pool,
          TableQuery.conection (TableQuery.self st) = Some pool ->
          Batch.never_missing driver ->
          fst (TableQuery.insert env driver (Js.VArr items) st)
          = match Server.rejection
                    (Server.serve driver pool
                       (map (Batch.statement (TableQuery.tableName (TableQuery.self st)))
                            items)
                       (db (TableQuery.world st))) with
            | Some d => inl (InsertFailed (Pg.message d))
            | None =>
                inr (map (fun rows => nth 0 rows Js.VUndefined)
                       (Server.answered
                          (Server.serve driver pool
                             (map (Batch.statement
                                     (TableQuery.tableName (TableQuery.self st)))
                                  items)
                             (db (TableQuery.world st)))))
            end).
Proof.
  intros items st Hobj. split; [|split].
  - intros results. unfold TableQuery.insert, try_catch, raise. rewrite Hobj.
    pose proof (insert_rows_outcome env driver items [] st Hobj) as H.
    destruct (TableQuery.insert_rows env driver items [] st) as [[e|all] st'];
      cbn [fst] in *.
    + discriminate.
    + intro Heq. injection Heq as <-. exact H.
  - intros Hnone Hne. destruct items as [|row rest]; [congruence|].
    cbn [forallb] in Hobj. apply andb_prop in Hobj. destruct Hobj as [Hrow Hrest].
    unfold TableQuery.insert, try_catch, raise.
    cbn [forallb]. rewrite Hrow, Hrest. cbn [andb].
    now rewrite (insert_rows_disconnected env driver row rest [] st Hnone Hrow).
  - intros pool Hpool Hnever.
    unfold TableQuery.insert, try_catch, raise. rewrite Hobj.
    rewrite (insert_rows_serve env driver Hnever pool _ items [] st Hpool eq_refl Hobj).
    destruct (Server.rejection _) as [d|]; reflexivity.
Qed.

(** X16. On a connected builder, with a driver that never reports a
    missing database, [insert] sends one INSERT per row, in row order,
    and stops at the first row the driver rejects.  The statements sent
    are those of the first [k] rows, [k] counting the rows the driver
    answered and the one it rejected: either it answered all of them and
    all were sent, or the last one sent is the one it rejected, after it
    had answered all those before, and no later row was sent.  Rows
    before a rejected one have been executed: the server is left in the
    state they brought it to, nothing is taken back.  The builder is
    unchanged. *)
Theorem insert_sends_rows_in_order :
  forall (pool : Pg.Pool) (items : list Js.value) (st : @TableQuery.Run Db),
    TableQuery.conection (TableQuery.self st) = Some pool ->
    Batch.never_missing driver ->
    forallb TableQuery.is_object items = true ->
    let statements :=
      map (Batch.statement (TableQuery.tableName (TableQuery.self st))) items in
    let served := Server.serve driver pool statements (db (TableQuery.world st)) in
    let after_call := snd (TableQuery.insert env driver (Js.VArr items) st) in
    TableQuery.self after_call = TableQuery.self st
    /\ sent (TableQuery.world after_call)
       = (sent (TableQuery.world st)
            ++ firstn (Server.reached_count served) statements)%list
    /\ db (TableQuery.world after_call) = Server.state served
    /\ Server.reached_count served <= List.length items
    /\ match Server.rejection served with
       | None => firstn (Server.reached_count served) statements = statements
       | Some d =>
           exists before sql after,
             statements = (before ++ sql :: after)%list
             /\ firstn (Server.reached_count served) statements
                = (before ++ [sql])%list
             /\ Server.rejection
                  (Server.serve driver pool before (db (TableQuery.world st))) = None
             /\ fst (drv_query driver pool sql
                       (Server.state
                          (Server.serve driver pool before
                             (db (TableQuery.world st)))))
                = inl d
       end.
Proof.
  intros pool items st Hpool Hnever Hobj statements served after_call.
  assert (Hafter :
    after_call
    = {| TableQuery.self := TableQuery.self st;
         TableQuery.world :=
           {| db := Server.state served;
              sent := sent (TableQuery.world st) ++ Server.reached served |} |}).
  { subst after_call served statements.
    unfold TableQuery.insert, try_catch, raise. rewrite Hobj.
    rewrite (insert_rows_serve env driver Hnever pool _ items [] st Hpool eq_refl Hobj).
    destruct (Server.rejection _); reflexivity. }
  destruct (serve_reached driver pool statements (db (TableQuery.world st)))
    as [Hreached Hcount].
  fold served in Hreached, Hcount.
  rewrite Hafter. cbn [TableQuery.self TableQuery.world db sent].
  rewrite <- Hreached.
  split; [reflexivity|]. split; [reflexivity|]. split; [reflexivity|].
  split; [subst statements; now rewrite length_map in Hcount|].
  destruct (Server.rejection served) as [d|] eqn:Hrej.
  - destruct (serve_rejected driver pool statements (db (TableQuery.world st)) d Hrej)
      as (before & sql & after & Hs & Hr & Hn & Hd).
    exists before, sql, after. fold served in Hr.
    split; [exact Hs|]. split; [exact Hr|]. split; [exact Hn|].
    now rewrite Hd.
  - exact (proj1 (serve_complete driver pool statements
                    (db (TableQuery.world st)) Hrej)).
Qed.

End InsertAgainstServer.

Lemma demo_driver_never_missing : Batch.never_missing Demo.driver.
Proof.
  intros pool sql state d state'. cbn.
  destruct (Js.startsWith sql "BAD"); intro H; inversion H; discriminate.
Qed.

Lemma insert_outcome_witness :
  TableQuery.insert Demo.env Demo.driver
    (Js.VArr [Js.VObj [("name", Js.VStr "Alice")]])
    (Demo.run (TableQuery.new "users" None))
  = (inl (InsertFailed (error_message NoConnection)),
     Demo.run (TableQuery.new "users" None))
  /\ fst (TableQuery.insert Demo.env Demo.driver
             (Js.VArr [Js.VObj [("name", Js.VStr "Alice")]])
             (Demo.run Demo.users))
     = inr [Js.VObj [("id", Js.VNum (Js.Int 0))]].
Proof.
  split.
  - apply (proj1 (proj2 (insert_outcome Demo.env Demo.driver
                           [Js.VObj [("name", Js.VStr "Alice")]]
                           (Demo.run (TableQuery.new "users" None)) eq_refl)));
      [reflexivity | discriminate].
  - rewrite (proj2 (proj2 (insert_outcome Demo.env Demo.driver
                             [Js.VObj [("name", Js.VStr "Alice")]]
                             (Demo.run Demo.users) eq_refl))
               Demo.pool eq_refl demo_driver_never_missing).
    reflexivity.
Defined.

Lemma insert_sends_rows_in_order_witness :
  sent (TableQuery.world
          (snd (TableQuery.insert Demo.env Demo.driver
                  (Js.VArr [Js.VObj [("n", Js.VNum (Js.Int 1))];
                            Js.VObj [("n", Js.VNum (Js.Int 2))]])
                  (Demo.run Demo.users))))
  = map (Batch.statement "users")
        [Js.VObj [("n", Js.VNum (Js.Int 1))];
         Js.VObj [("n", Js.VNum (Js.Int 2))]].
Proof.
  exact (proj1 (proj2 (insert_sends_rows_in_order Demo.env Demo.driver Demo.pool
                         [Js.VObj [("n", Js.VNum (Js.Int 1))];
                          Js.VObj [("n", Js.VNum (Js.Int 2))]]
                         (Demo.run Demo.users) eq_refl
                         demo_driver_never_missing eq_refl))).
Defined.

(** ** The statements of a script *)

Section ScriptStatements.

Context {Db : Type} (driver : Driver Db).

Lemma world_query_sent (p : Pg.Pool) (sql : string) (w : World Db) :
  sent (snd (world_query driver p sql w)) = (sent w ++ [sql])%list.
Proof.
  unfold world_query.
  destruct (drv_query driver p sql (db w)) as [[d|rows] db']; reflexivity.
Qed.

(** X17. [query] sends the commands of the script in order, each with a
    semicolon added, and stops at the first one the driver rejects.  With
    a pool the statements sent are the first [k] of the script, [k]
    counting the statements the driver answered and the one it rejected:
    either the driver answered all of them and all were sent, or the
    last one sent is the one it rejected, after it had answered all
    those before, and nothing after it was sent.  Without a pool nothing
    is sent. *)
Theorem query_sends_commands_in_order :
  forall (p : Pg.Pool) (text : string) (w : World Db),
    let statements := map Script.statement (Postgres.commands_of text) in
    let served := Server.serve driver p statements (db w) in
    let after_call :=
      snd (Postgres.query driver {| Postgres.pool := Some p |} (Js.VStr text) w) in
    sent after_call
    = (sent w ++ firstn (Server.reached_count served) statements)%list
    /\ db after_call = Server.state served
    /\ Server.reached_count served <= List.length statements
    /\ match Server.rejection served with
       | None => firstn (Server.reached_count served) statements = statements
       | Some d =>
           exists before sql after,
             statements = (before ++ sql :: after)%list
             /\ firstn (Server.reached_count served) statements
                = (before ++ [sql])%list
             /\ Server.rejection (Server.serve driver p before (db w)) = None
             /\ fst (drv_query driver p sql
                       (Server.state (Server.serve driver p before (db w))))
                = inl d
       end
    /\ snd (Postgres.query driver {| Postgres.pool := None |} (Js.VStr text) w) = w.
Proof.
  intros p text w statements served after_call.
  assert (Hafter : after_call
                   = {| db := Server.state served;
                        sent := sent w ++ Server.reached served |}).
  { subst after_call served statements.
    unfold Postgres.query, try_catch, raise, ret, bind.
    cbn [Postgres.pool]. rewrite run_commands_serve.
    destruct (Server.rejection _); reflexivity. }
  destruct (serve_reached driver p statements (db w)) as [Hreached Hcount].
  fold served in Hreached, Hcount.
  rewrite Hafter. cbn [db sent]. rewrite <- Hreached.
  split; [reflexivity|]. split; [reflexivity|]. split; [exact Hcount|].
  split; [|reflexivity].
  destruct (Server.rejection served) as [d|] eqn:Hrej.
  - destruct (serve_rejected driver p statements (db w) d Hrej)
      as (before & sql & after & Hs & Hr & Hn & Hd).
    exists before, sql, after. fold served in Hr.
    split; [exact Hs|]. split; [exact Hr|]. split; [exact Hn|].
    now rewrite Hd.
  - exact (proj1 (serve_complete driver p statements (db w) Hrej)).
Qed.

End ScriptStatements.

(** ** Splitting a script *)

Lemma split_semicolon_free (sep : ascii) (s : string) :
  Forall (fun piece => ~ In sep (list_ascii_of_string piece)) (Js.split sep s).
Proof.
  induction s as [|c rest IH]; cbn [Js.split].
  - constructor; [intros [] | constructor].
  - destruct (Ascii.eqb_spec c sep) as [Heq|Hne].
    + constructor; [intros [] | exact IH].
    + destruct (Js.split sep rest) as [|piece pieces].
      * constructor; [|constructor]. cbn. intros [H|[]]. congruence.
      * inversion IH as [|? ? Hpiece Hpieces]; subst.
        constructor; [|exact Hpieces].
        cbn. intros [H|H]; [congruence | contradiction].
Qed.

Lemma split_joins_back (sep : ascii) (s : string) :
  String.concat (String sep EmptyString) (Js.split sep s) = s.
Proof.
  induction s as [|c rest IH]; cbn [Js.split]; [reflexivity|].
  destruct (Ascii.eqb_spec c sep) as [Heq|Hne].
  - subst c. destruct (Js.split sep rest) as [|piece pieces] eqn:Hs.
    + cbn in IH. subst rest. discriminate Hs.
    + change (String.concat (String sep "") ("" :: piece :: pieces))
        with ("" ++ String sep "" ++ String.concat (String sep "") (piece :: pieces)).
      rewrite IH. reflexivity.
  - destruct (Js.split sep rest) as [|piece pieces] eqn:Hs.
    + cbn in IH. now subst rest.
    + destruct pieces as [|next more].
      * cbn in IH |- *. now subst rest.
      * change (String.concat (String sep "") (String c piece :: next :: more))
          with (String c (piece ++ String sep ""
                            ++ String.concat (String sep "") (next :: more))).
        change (String.concat (String sep "") (piece :: next :: more))
          with (piece ++ String sep "" ++ String.concat (String sep "") (next :: more))
          in IH.
        now rewrite IH.
Qed.

Lemma filter_keeps_commands (pieces : list string) :
  Script.kept pieces
    (filter (fun cmd => (0 <? String.length (Js.trim cmd))%nat) pieces).
Proof.
  induction pieces as [|piece rest IH]; cbn [filter]; [constructor|].
  destruct (Js.trim piece) as [|c trimmed] eqn:Htrim; cbn.
  - now apply Script.kept_skip.
  - apply Script.kept_take; [|exact IH].
    unfold Script.not_blank. rewrite Htrim. discriminate.
Qed.

(** X18. The commands of a script are the pieces of its text between
    semicolons without the pieces that hold white space only: every
    piece that is not blank is a command, in the order of the text, and
    nothing else is.  The pieces put back together with semicolons give
    the text and no piece contains a semicolon, so no command does and
    none is blank.  A semicolon inside a quoted literal splits like any
    other. *)
Theorem commands_of_script :
  forall (text : string),
    Script.kept (Js.split ";" text) (Postgres.commands_of text)
    /\ String.concat ";" (Js.split ";" text) = text
    /\ Forall Script.semicolon_free (Js.split ";" text)
    /\ Forall (fun command => Script.semicolon_free command
                              /\ Script.not_blank command)
         (Postgres.commands_of text).
Proof.
  intro text.
  split; [apply filter_keeps_commands|].
  split; [apply split_joins_back|].
  split; [exact (split_semicolon_free ";" text)|].
  unfold Postgres.commands_of. apply Forall_forall. intros command Hin.
  apply filter_In in Hin. destruct Hin as [Hin Hlen].
  split.
  - pose proof (split_semicolon_free ";" text) as Hall.
    rewrite Forall_forall in Hall. exact (Hall command Hin).
  - unfold Script.not_blank. intro Hblank. rewrite Hblank in Hlen. discriminate.
Qed.

Example semicolon_inside_a_literal :
  Postgres.commands_of "INSERT INTO t VALUES ('a;b'); SELECT 1"
  = ["INSERT INTO t VALUES ('a"; "b')"; " SELECT 1"].
Proof. reflexivity. Qed.

(** ** Column definitions *)

Lemma map_fields_incomplete (fields : list Schema.Field) :
  existsb Schema.incomplete fields = true ->
  Schema.map_fields Schema.create_definition fields = inl Schema.FieldIncomplete.
Proof.
  induction fields as [|field rest IH]; cbn [existsb Schema.map_fields];
    [discriminate|].
  unfold Schema.create_definition at 1.
  destruct (Schema.incomplete field) eqn:Hf; [reflexivity|].
  cbn [orb]. intro H. cbv zeta. now rewrite (IH H).
Qed.

Section SchemaValidation.

Context {Db : Type} (env : Env) (driver : Driver Db).

(** X19. A field without a name or without a type stops the schema calls
    before anything is sent: [create] throws when any field of the list
    is incomplete, [Columns.add] and [Columns.edit] when theirs is; the
    world, and for [create] the builder, are left as they were. *)
Theorem schema_calls_validate_fields :
  (forall (fields : list Schema.Field) (st : @TableQuery.Run Db),
      existsb Schema.incomplete fields = true ->
      Schema.create env driver fields st = (inl Schema.FieldIncomplete, st))
  /\ (forall (self : Schema.Columns) (field : Schema.Field) (w : World Db),
         Schema.incomplete field = true ->
         Schema.columns_add driver self field w = (inl Schema.FieldIncomplete, w)
         /\ Schema.columns_edit driver self field w
            = (inl Schema.FieldIncomplete, w)).
Proof.
  split.
  - intros fields st H. unfold Schema.create, Schema.create_sql.
    now rewrite (map_fields_incomplete fields H).
  - intros self field w H.
    unfold Schema.columns_add, Schema.columns_edit, Schema.columns_run,
      Schema.add_sql, Schema.edit_sql, Schema.add_definition,
      Schema.edit_definition.
    rewrite H. split; reflexivity.
Qed.

End SchemaValidation.

Lemma schema_calls_validate_fields_witness :
  Schema.create Demo.env Demo.driver
    [{| Schema.name := "id"; Schema.type := "INT";
        Schema.defaultValue := Js.VUndefined; Schema.length := None;
        Schema.options := Some ["primary"]; Schema.foreign := None |};
     {| Schema.name := "age"; Schema.type := "";
        Schema.defaultValue := Js.VUndefined; Schema.length := None;
        Schema.options := None; Schema.foreign := None |}]
    (Demo.run Demo.users)
  = (inl Schema.FieldIncomplete, Demo.run Demo.users).
Proof.
  apply (proj1 (schema_calls_validate_fields Demo.env Demo.driver)).
  reflexivity.
Defined.

Lemma options_appended (base : string) (field : Schema.Field) :
  match Schema.options field with
  | Some opts =>
      if Schema.includes opts "unique"
      then (if Schema.includes opts "primary"
            then base ++ " PRIMARY KEY" else base) ++ " UNIQUE"
      else (if Schema.includes opts "primary"
            then base ++ " PRIMARY KEY" else base)
  | None => base
  end
  = base ++ Schema.options_text field.
Proof.
  unfold Schema.options_text.
  destruct (Schema.options field) as [opts|]; [|now rewrite append_nil_r].
  destruct (Schema.includes opts "unique"), (Schema.includes opts "primary");
    cbn [append]; rewrite ?append_assoc, ?append_nil_r; reflexivity.
Qed.

Lemma default_appended (base : string) (field : Schema.Field) :
  (if Schema.truthy (Schema.defaultValue field)
   then base
        ++ (if Schema.text_type (Schema.type field)
            then (if Schema.truthy (Schema.defaultValue field)
                  then " DEFAULT '" ++ Js.toString (Schema.defaultValue field) ++ "'"
                  else " DEFAULT NULL")
            else if Schema.none_or_null (Schema.defaultValue field)
                 then ""
                 else (if Schema.truthy (Schema.defaultValue field)
                       then " DEFAULT " ++ Js.toString (Schema.defaultValue field)
                       else " DEFAULT NULL"))
   else base)
  = base ++ Schema.default_text field.
Proof.
  unfold Schema.default_text.
  destruct (Schema.truthy (Schema.defaultValue field));
    [reflexivity | now rewrite append_nil_r].
Qed.

Lemma typed_name (field : Schema.Field) :
  (if Js.truthy_num (Schema.length field)
      && negb (String.eqb (Schema.type field) "TEXT")
   then dq ++ Schema.name field ++ dq ++ " " ++ Schema.type field ++ "("
          ++ Js.num_toString (TableQuery.num_of (Schema.length field)) ++ ")"
   else dq ++ Schema.name field ++ dq ++ " " ++ Schema.type field)
  = dq ++ Schema.name field ++ dq ++ " " ++ Schema.type_text field.
Proof.
  unfold Schema.type_text.
  destruct (Js.truthy_num (Schema.length field)
            && negb (String.eqb (Schema.type field) "TEXT")); reflexivity.
Qed.

Lemma edit_definition_parts (field : Schema.Field) :
  Schema.incomplete field = false ->
  Schema.edit_definition field
  = inr (Schema.type_text field ++ Schema.default_text field
           ++ Schema.options_text field).
Proof.
  intro Hc. unfold Schema.edit_definition. rewrite Hc. cbv zeta. f_equal.
  rewrite options_appended, default_appended.
  fold (Schema.type_text field). now rewrite !append_assoc.
Qed.

Lemma add_definition_parts (field : Schema.Field) :
  Schema.incomplete field = false ->
  Schema.add_definition field
  = inr (dq ++ Schema.name field ++ dq ++ " "
           ++ Schema.type_text field ++ Schema.default_text field
           ++ Schema.options_text field).
Proof.
  intro Hc. unfold Schema.add_definition. rewrite Hc. cbv zeta. f_equal.
  rewrite options_appended, default_appended, typed_name.
  now rewrite !append_assoc.
Qed.

Lemma create_definition_parts (field : Schema.Field) :
  Schema.incomplete field = false ->
  Schema.create_definition field
  = inr (dq ++ Schema.name field ++ dq ++ " "
           ++ Schema.type_text field ++ Schema.default_text field
           ++ Schema.options_text field ++ Schema.foreign_text field).
Proof.
  intro Hc. unfold Schema.create_definition. rewrite Hc. cbv zeta. f_equal.
  rewrite options_appended, default_appended, typed_name.
  unfold Schema.foreign_text.
  destruct (Schema.foreign field) as [key|];
    rewrite ?append_assoc, ?append_nil_r; reflexivity.
Qed.

(** X20. The three renderings of a complete field agree part by part:
    [Columns.edit] prints the type (with its length unless the length is
    falsy or the type is [TEXT]), the default and the options;
    [Columns.add] prints the quoted name, a space and the same text;
    [create] prints what [Columns.add] prints, followed by the foreign
    key when there is one. *)
Theorem field_definitions_agree :
  forall (field : Schema.Field),
    Schema.incomplete field = false ->
    Schema.edit_definition field
    = inr (Schema.type_text field ++ Schema.default_text field
             ++ Schema.options_text field)
    /\ Schema.add_definition field
       = inr (dq ++ Schema.name field ++ dq ++ " "
                ++ Schema.type_text field ++ Schema.default_text field
                ++ Schema.options_text field)
    /\ Schema.create_definition field
       = inr (dq ++ Schema.name field ++ dq ++ " "
                ++ Schema.type_text field ++ Schema.default_text field
                ++ Schema.options_text field ++ Schema.foreign_text field).
Proof.
  intros field Hc. split; [|split].
  - now apply edit_definition_parts.
  - now apply add_definition_parts.
  - now apply create_definition_parts.
Qed.

Lemma field_definitions_agree_witness :
  Schema.create_definition
    {| Schema.name := "owner"; Schema.type := "INT";
       Schema.defaultValue := Js.VNum (Js.Int 7); Schema.length := None;
       Schema.options := Some ["unique"];
       Schema.foreign := Some {| Schema.table := "users"; Schema.column := "id" |} |}
  = inr (dq ++ "owner" ++ dq ++ " INT DEFAULT 7 UNIQUE, FOREIGN KEY (" ++ dq
           ++ "owner" ++ dq ++ ") REFERENCES " ++ dq ++ "users" ++ dq ++ "("
           ++ dq ++ "id" ++ dq ++ ")").
Proof.
  apply (field_definitions_agree
           {| Schema.name := "owner"; Schema.type := "INT";
              Schema.defaultValue := Js.VNum (Js.Int 7); Schema.length := None;
              Schema.options := Some ["unique"];
              Schema.foreign := Some {| Schema.table := "users";
                                        Schema.column := "id" |} |}).
  reflexivity.
Defined.

Lemma default_text_dropped (field : Schema.Field) :
  Schema.truthy (Schema.defaultValue field) = false
  \/ (Schema.text_type (Schema.type field) = false
      /\ Schema.defaultValue field = Js.VStr "NONE") ->
  Schema.default_text field = "".
Proof.
  unfold Schema.default_text. intros [Hf | [Ht Hn]].
  - now rewrite Hf.
  - rewrite Ht, Hn. reflexivity.
Qed.

(** X21. A default value that is falsy ([undefined], [null], [false],
    [0], [NaN] or the empty string) is not declared at all, and neither
    is the string [NONE] on a type outside the text family: the field is
    rendered by [create], [Columns.add] and [Columns.edit] exactly as the
    same field without a default. *)
Theorem falsy_default_is_dropped :
  forall (field : Schema.Field),
    Schema.truthy (Schema.defaultValue field) = false
    \/ (Schema.text_type (Schema.type field) = false
        /\ Schema.defaultValue field = Js.VStr "NONE") ->
    Schema.create_definition field
    = Schema.create_definition (Schema.without_default field)
    /\ Schema.add_definition field
       = Schema.add_definition (Schema.without_default field)
    /\ Schema.edit_definition field
       = Schema.edit_definition (Schema.without_default field).
Proof.
  intros field Hdrop.
  destruct (Schema.incomplete field) eqn:Hc.
  - unfold Schema.create_definition, Schema.add_definition,
      Schema.edit_definition.
    change (Schema.incomplete (Schema.without_default field))
      with (Schema.incomplete field).
    rewrite Hc. repeat split.
  - assert (Hc' : Schema.incomplete (Schema.without_default field) = false)
      by exact Hc.
    rewrite (edit_definition_parts field Hc), (add_definition_parts field Hc),
      (create_definition_parts field Hc),
      (edit_definition_parts _ Hc'), (add_definition_parts _ Hc'),
      (create_definition_parts _ Hc').
    rewrite (default_text_dropped field Hdrop).
    change (Schema.default_text (Schema.without_default field)) with "".
    repeat split.
Qed.

Lemma falsy_default_is_dropped_witness :
  Schema.add_definition
    {| Schema.name := "stock"; Schema.type := "INT";
       Schema.defaultValue := Js.VNum (Js.Int 0); Schema.length := None;
       Schema.options := None; Schema.foreign := None |}
  = inr (dq ++ "stock" ++ dq ++ " INT").
Proof.
  rewrite (proj1 (proj2 (falsy_default_is_dropped
             {| Schema.name := "stock"; Schema.type := "INT";
                Schema.defaultValue := Js.VNum (Js.Int 0); Schema.length := None;
                Schema.options := None; Schema.foreign := None |}
             (or_introl eq_refl)))).
  reflexivity.
Defined.

(** ** The calls of [Columns] and [drop] *)

Section ColumnsCalls.

Context {Db : Type} (env : Env) (driver : Driver Db).

Lemma columns_run_sent (self : Schema.Columns)
  (statement : Schema.schema_error + string) (w : World Db) :
  sent (snd (Schema.columns_run driver self statement w))
  = match statement, Schema.conection self with
    | inr sql, Some _ => sent w ++ [sql]
    | _, _ => sent w
    end%list.
Proof.
  unfold Schema.columns_run, Schema.passing, Schema.columns_get_response,
    try_catch, raise.
  destruct statement as [e|sql]; [reflexivity|].
  destruct (Schema.conection self) as [pool|]; [|reflexivity].
  pose proof (world_query_sent driver pool sql w) as Hs.
  destruct (world_query driver pool sql w) as [[e|rows] w']; exact Hs.
Qed.

(** X22. A call of [Columns] hands the driver at most one statement and
    never tries again: [add], [edit] and [drop] send their one
    [ALTER TABLE] statement when the handle has a connection and the
    field is complete, and nothing otherwise, whatever the driver
    answers, a missing database included. *)
Theorem columns_calls_send_once :
  forall (self : Schema.Columns) (field : Schema.Field) (columnName : string)
         (w : World Db),
    sent (snd (Schema.columns_add driver self field w))
    = match Schema.add_sql self field, Schema.conection self with
      | inr sql, Some _ => sent w ++ [sql]
      | _, _ => sent w
      end%list
    /\ sent (snd (Schema.columns_edit driver self field w))
       = match Schema.edit_sql self field, Schema.conection self with
         | inr sql, Some _ => sent w ++ [sql]
         | _, _ => sent w
         end%list
    /\ sent (snd (Schema.columns_drop driver self columnName w))
       = match Schema.conection self with
         | Some _ =>
             sent w ++ [("ALTER TABLE " ++ dq ++ Schema.tableName self ++ dq
                           ++ " DROP COLUMN " ++ dq ++ columnName ++ dq)%string]
         | None => sent w
         end%list.
Proof.
  intros self field columnName w.
  unfold Schema.columns_add, Schema.columns_edit, Schema.columns_drop.
  rewrite !columns_run_sent. repeat split.
Qed.

End ColumnsCalls.

Section SchemaOutcomes.

Context {Db : Type} (env : Env) (driver : Driver Db).

Lemma get_response_disconnected (sql : string) (b : TableQuery.t) (w : World Db) :
  TableQuery.conection b = None ->
  TableQuery.get_response env driver sql
    {| TableQuery.self := b; TableQuery.world := w |}
  = (inl NoConnection, {| TableQuery.self := b; TableQuery.world := w |}).
Proof.
  intro Hnone.
  unfold TableQuery.get_response, bind, TableQuery.this, raise.
  cbn [TableQuery.self]. now rewrite Hnone.
Qed.

Lemma get_response_answered (sql : string) (b : TableQuery.t) (w : World Db)
  (pool : Pg.Pool) (rows : Pg.Rows) (db' : Db) :
  TableQuery.conection b = Some pool ->
  drv_query driver pool sql (db w) = (inr rows, db') ->
  TableQuery.get_response env driver sql
    {| TableQuery.self := b; TableQuery.world := w |}
  = (inr rows,
     {| TableQuery.self := b;
        TableQuery.world := {| db := db'; sent := sent w ++ [sql] |} |}).
Proof.
  intros Hpool Hq.
  unfold TableQuery.get_response, bind, TableQuery.this, try_catch, raise,
    TableQuery.in_world, world_query.
  cbn [TableQuery.self TableQuery.world]. rewrite Hpool. cbv beta iota.
  cbn [TableQuery.self TableQuery.world]. now rewrite Hq.
Qed.

Lemma get_response_rejected (sql : string) (b : TableQuery.t) (w : World Db)
  (pool : Pg.Pool) (d : Pg.DriverError) (db' : Db) :
  TableQuery.conection b = Some pool ->
  drv_query driver pool sql (db w) = (inl d, db') ->
  Pg.code d <> Some "3D000" ->
  TableQuery.get_response env driver sql
    {| TableQuery.self := b; TableQuery.world := w |}
  = (inl (Rejected d),
     {| TableQuery.self := b;
        TableQuery.world := {| db := db'; sent := sent w ++ [sql] |} |}).
Proof.
  intros Hpool Hq Hcode.
  unfold TableQuery.get_response, bind, TableQuery.this, try_catch, raise,
    TableQuery.in_world, world_query.
  cbn [TableQuery.self TableQuery.world]. rewrite Hpool. cbv beta iota.
  cbn [TableQuery.self TableQuery.world]. rewrite Hq.
  cbn -[TableQuery.database_missing].
  assert (Hm : TableQuery.database_missing (Rejected d) = false).
  { unfold TableQuery.database_missing.
    destruct (Pg.code d) as [c|]; [|reflexivity].
    apply String.eqb_neq. congruence. }
  now rewrite Hm.
Qed.

Lemma complete_fields_have_statement (tableName : string)
  (fields : list Schema.Field) :
  existsb Schema.incomplete fields = false ->
  exists sqlQuery, Schema.create_sql tableName fields = inr sqlQuery.
Proof.
  intro Hcomplete. unfold Schema.create_sql.
  assert (Hmap : exists texts,
             Schema.map_fields Schema.create_definition fields = inr texts).
  { induction fields as [|f rest IH]; cbn [existsb Schema.map_fields] in *.
    - now exists [].
    - apply orb_false_elim in Hcomplete. destruct Hcomplete as [Hf Hrest].
      rewrite (create_definition_parts f Hf).
      destruct (IH Hrest) as [texts ->]. eexists; reflexivity. }
  destruct Hmap as [texts ->]. eexists; reflexivity.
Qed.

(** X23. [drop()] wraps what the execution layer throws, [create] passes
    it on as it is.  Without a connection [drop()] throws the
    no-connection text under the drop prefix and [create] the
    no-connection error itself, nothing being sent.  With a connection
    each sends its one statement: when the driver answers, both return
    [true]; when it rejects with any code but [3D000], [drop()] throws
    the text of that rejection under the drop prefix and [create] the
    rejection itself.  A list of complete fields always has a CREATE
    statement. *)
Theorem drop_wraps_create_passes :
  forall (fields : list Schema.Field) (b : TableQuery.t) (w : World Db),
    let st := {| TableQuery.self := b; TableQuery.world := w |} in
    let after (sql : string) (server : Db) :=
      {| TableQuery.self := b;
         TableQuery.world := {| db := server; sent := sent w ++ [sql] |} |} in
    let drop_sql := "DROP TABLE IF EXISTS " ++ dq ++ TableQuery.tableName b ++ dq in
    (TableQuery.conection b = None ->
       Schema.drop env driver st
       = (inl (Schema.DropFailed (error_message NoConnection)), st)
       /\ forall create_sql,
            Schema.create_sql (TableQuery.tableName b) fields = inr create_sql ->
            Schema.create env driver fields st
            = (inl (Schema.Execution NoConnection), st))
    /\ (forall pool,
          TableQuery.conection b = Some pool ->
          (forall rows server,
              drv_query driver pool drop_sql (db w) = (inr rows, server) ->
              Schema.drop env driver st = (inr true, after drop_sql server))
          /\ (forall d server,
                 drv_query driver pool drop_sql (db w) = (inl d, server) ->
                 Pg.code d <> Some "3D000" ->
                 Schema.drop env driver st
                 = (inl (Schema.DropFailed (Pg.message d)), after drop_sql server))
          /\ forall create_sql,
               Schema.create_sql (TableQuery.tableName b) fields = inr create_sql ->
               (forall rows server,
                   drv_query driver pool create_sql (db w) = (inr rows, server) ->
                   Schema.create env driver fields st
                   = (inr true, after create_sql server))
               /\ (forall d server,
                      drv_query driver pool create_sql (db w) = (inl d, server) ->
                      Pg.code d <> Some "3D000" ->
                      Schema.create env driver fields st
                      = (inl (Schema.Execution (Rejected d)),
                         after create_sql server)))
    /\ (existsb Schema.incomplete fields = false ->
        exists create_sql,
          Schema.create_sql (TableQuery.tableName b) fields = inr create_sql).
Proof.
  intros fields b w st after drop_sql. subst st after drop_sql.
  split; [|split].
  - intro Hnone. split.
    + unfold Schema.drop. cbn [TableQuery.self].
      now rewrite get_response_disconnected.
    + intros create_sql Hsql. unfold Schema.create, Schema.passing.
      cbn [TableQuery.self]. rewrite Hsql.
      now rewrite get_response_disconnected.
  - intros pool Hpool. split; [|split].
    + intros rows server Hq. unfold Schema.drop. cbn [TableQuery.self].
      now rewrite (get_response_answered _ b w pool rows server Hpool Hq).
    + intros d server Hq Hcode. unfold Schema.drop. cbn [TableQuery.self].
      now rewrite (get_response_rejected _ b w pool d server Hpool Hq Hcode).
    + intros create_sql Hsql. split.
      * intros rows server Hq. unfold Schema.create, Schema.passing.
        cbn [TableQuery.self]. rewrite Hsql.
        now rewrite (get_response_answered _ b w pool rows server Hpool Hq).
      * intros d server Hq Hcode. unfold Schema.create, Schema.passing.
        cbn [TableQuery.self]. rewrite Hsql.
        now rewrite (get_response_rejected _ b w pool d server Hpool Hq Hcode).
  - apply complete_fields_have_statement.
Qed.

End SchemaOutcomes.

Lemma drop_wraps_create_passes_witness :
  Schema.create Demo.env Demo.driver [] (Demo.run Demo.users)
  = (inr true,
     {| TableQuery.self := Demo.users;
        TableQuery.world :=
          {| db := 1;
             sent := ["CREATE TABLE IF NOT EXISTS " ++ dq ++ "users" ++ dq ++ " ()"] |} |})
  /\ Schema.drop Demo.env Demo.driver (Demo.run (TableQuery.new "users" None))
     = (inl (Schema.DropFailed (error_message NoConnection)),
        Demo.run (TableQuery.new "users" None)).
Proof.
  split.
  - exact (proj1 (proj2 (proj2 (proj1 (proj2
             (drop_wraps_create_passes Demo.env Demo.driver []
                Demo.users Demo.world)) Demo.pool eq_refl)) _ eq_refl)
             [Js.VObj [("id", Js.VNum (Js.Int 0))]] 1 eq_refl).
  - exact (proj1 (proj1
             (drop_wraps_create_passes Demo.env Demo.driver []
                (TableQuery.new "users" None) Demo.world) eq_refl)).
Defined.

(** ** How the calls that set the base clause compose *)

Lemma select_sets_base (fields : list string) (b : TableQuery.t) :
  fields <> [] ->
  TableQuery.query (TableQuery.select fields b)
  = "SELECT " ++ (if TableQuery._distinct b then "DISTINCT " else "")
      ++ String.concat ", " fields ++ " FROM " ++ dq ++ TableQuery.tableName b ++ dq.
Proof.
  intro H. unfold TableQuery.select.
  destruct fields as [|f fs]; [congruence | reflexivity].
Qed.

(** X24. [select] with at least one field, and each of [count], [sum],
    [avg], [max] and [min], replace the base clause whatever it was, so
    the last of them wins; [select([])] changes nothing.  Each aggregate
    call prints its own projection and never [DISTINCT], also after
    [distinct()], although the flag stays set, and a later [select]
    prints [DISTINCT] again.  On a builder whose flag is not set yet,
    [distinct()] before [select] and [distinct()] after it give the same
    base clause. *)
Theorem base_clause_last_call_wins :
  forall (fields : list string) (column : string) (b : TableQuery.t),
    fields <> [] ->
    TableQuery.select [] b = b
    /\ TableQuery.query (TableQuery.count (Some column) b)
       = "SELECT COUNT(" ++ column ++ ") AS count FROM " ++ dq
           ++ TableQuery.tableName b ++ dq
    /\ TableQuery.query (TableQuery.count None b)
       = "SELECT COUNT(" ++ "*" ++ ") AS count FROM " ++ dq
           ++ TableQuery.tableName b ++ dq
    /\ TableQuery.query (TableQuery.sum column b)
       = "SELECT SUM(" ++ column ++ ") AS sum FROM " ++ dq
           ++ TableQuery.tableName b ++ dq
    /\ TableQuery.query (TableQuery.avg column b)
       = "SELECT AVG(" ++ column ++ ") AS avg FROM " ++ dq
           ++ TableQuery.tableName b ++ dq
    /\ TableQuery.query (TableQuery.max column b)
       = "SELECT MAX(" ++ column ++ ") AS max FROM " ++ dq
           ++ TableQuery.tableName b ++ dq
    /\ TableQuery.query (TableQuery.min column b)
       = "SELECT MIN(" ++ column ++ ") AS min FROM " ++ dq
           ++ TableQuery.tableName b ++ dq
    /\ Forall (fun aggregate : TableQuery.t -> TableQuery.t =>
                 TableQuery.query (TableQuery.select fields (aggregate b))
                 = TableQuery.query (TableQuery.select fields b)
                 /\ TableQuery.query (aggregate (TableQuery.select fields b))
                    = TableQuery.query (aggregate b)
                 /\ TableQuery.query (aggregate (TableQuery.distinct b))
                    = TableQuery.query (aggregate b)
                 /\ TableQuery._distinct (aggregate (TableQuery.distinct b)) = true
                 /\ TableQuery.query
                      (TableQuery.select fields (aggregate (TableQuery.distinct b)))
                    = "SELECT DISTINCT " ++ String.concat ", " fields ++ " FROM "
                        ++ dq ++ TableQuery.tableName b ++ dq)
         [TableQuery.count (Some column); TableQuery.count None;
          TableQuery.sum column; TableQuery.avg column;
          TableQuery.max column; TableQuery.min column]
    /\ (TableQuery._distinct b = false ->
        TableQuery.query (TableQuery.distinct (TableQuery.select fields b))
        = TableQuery.query (TableQuery.select fields (TableQuery.distinct b))).
Proof.
  intros fields column b Hne.
  destruct fields as [|field others]; [congruence|].
  do 7 (split; [reflexivity|]).
  split.
  - repeat constructor; now rewrite ?select_sets_base.
  - intro Hd.
    destruct (distinct_rewrites_select (TableQuery.select (field :: others) b)
                (String.concat ", " (field :: others) ++ " FROM " ++ dq
                   ++ TableQuery.tableName b ++ dq)) as [Hq _].
    { rewrite select_sets_base by exact Hne. now rewrite Hd. }
    rewrite Hq, select_sets_base by exact Hne. reflexivity.
Qed.

Lemma base_clause_last_call_wins_witness :
  TableQuery.query
    (TableQuery.distinct (TableQuery.select ["name"] (TableQuery.new "t" None)))
  = TableQuery.query
      (TableQuery.select ["name"] (TableQuery.distinct (TableQuery.new "t" None))).
Proof.
  refine (proj2 (proj2 (proj2 (proj2 (proj2 (proj2 (proj2 (proj2
            (base_clause_last_call_wins ["name"] "price" (TableQuery.new "t" None)
               _)))))))) eq_refl).
  discriminate.
Defined.

(** ** LIMIT and OFFSET in the JavaScript builder *)

Lemma legacy_buildQuery_parts (b : TableQuery.t) :
  Legacy.buildQuery true b
  = rbind (clauses_before_limit b) (fun head =>
    ok (head ++ limit_clause b
          ++ (if TableQuery.is_set (TableQuery.pageValue b)
              then " OFFSET "
                   ++ Js.num_toString
                        (Js.mul (Js.sub (TableQuery.num_of (TableQuery.pageValue b))
                                        (Js.Int 1))
                                (Legacy.limit_number (TableQuery.limitValue b)))
              else "")
          ++ order_clause b)).
Proof.
  unfold Legacy.buildQuery, clauses_before_limit, limit_clause, order_clause.
  destruct (TableQuery.buildConditions b) as [e|whereClauses]; [reflexivity|].
  cbn [rbind ok]. f_equal.
  destruct (TableQuery.is_set (TableQuery.limitValue b));
    destruct (TableQuery.is_set (TableQuery.pageValue b));
    destruct ((0 <? List.length (TableQuery._orderBy b))%nat
              && negb (TableQuery.aggregate_prefix (TableQuery.query b)));
    cbn [append]; rewrite ?append_assoc, ?append_nil_r; reflexivity.
Qed.

(** X25. The JavaScript builder prints OFFSET whenever a page is set:
    with a limit [n] and a page [p] that are safe integers, zero
    included, and a safe product, [LIMIT n OFFSET (p-1)*n]; with no
    limit at all, no LIMIT and [OFFSET NaN]. *)
Theorem legacy_offset_without_guard :
  forall (b : TableQuery.t) (n p : Z),
    (Js.isSafeInteger n = true -> Js.isSafeInteger p = true ->
     Js.isSafeInteger ((p - 1) * n) = true ->
       Legacy.buildQuery true
         (TableQuery.page (Js.Int p) (TableQuery.limit (Js.Int n) b))
       = rbind (clauses_before_limit b) (fun head =>
         ok (head ++ " LIMIT " ++ Js.num_toString (Js.Int n)
                  ++ " OFFSET " ++ Js.num_toString (Js.Int ((p - 1) * n))
                  ++ order_clause b)))
    /\ (TableQuery.limitValue b = None ->
        Legacy.buildQuery true (TableQuery.page (Js.Int p) b)
        = rbind (clauses_before_limit b) (fun head =>
          ok (head ++ " OFFSET NaN" ++ order_clause b))).
Proof.
  intros b n p. split.
  - intros _ _ _. rewrite legacy_buildQuery_parts.
    change (clauses_before_limit _) with (clauses_before_limit b).
    change (order_clause _) with (order_clause b).
    unfold limit_clause.
    cbn [TableQuery.page TableQuery.limit TableQuery.set_pageValue
         TableQuery.set_limitValue TableQuery.limitValue TableQuery.pageValue
         TableQuery.is_set TableQuery.num_of Js.isNaN negb Legacy.limit_number
         Js.sub Js.mul].
    destruct (clauses_before_limit b) as [e|head]; [reflexivity|].
    cbn [rbind ok]. now rewrite !append_assoc.
  - intro Hnone. rewrite legacy_buildQuery_parts.
    change (clauses_before_limit _) with (clauses_before_limit b).
    change (order_clause _) with (order_clause b).
    unfold limit_clause.
    cbn [TableQuery.page TableQuery.set_pageValue TableQuery.limitValue
         TableQuery.pageValue].
    rewrite Hnone. reflexivity.
Qed.

Lemma legacy_offset_without_guard_witness :
  Legacy.buildQuery true
    (TableQuery.page (Js.Int 3) (TableQuery.limit (Js.Int 0) (TableQuery.new "t" None)))
  = ok ("SELECT * FROM " ++ dq ++ "t" ++ dq ++ " LIMIT 0 OFFSET 0")
  /\ Legacy.buildQuery true (TableQuery.page (Js.Int 4) (TableQuery.new "t" None))
     = ok ("SELECT * FROM " ++ dq ++ "t" ++ dq ++ " OFFSET NaN").
Proof.
  split.
  - rewrite (proj1 (legacy_offset_without_guard (TableQuery.new "t" None) 0 3)
               eq_refl eq_refl eq_refl).
    reflexivity.
  - rewrite (proj2 (legacy_offset_without_guard (TableQuery.new "t" None) 0 4));
      reflexivity.
Defined.

(** ** [insert] of the JavaScript builder *)

Section LegacyInsert.

Context {Db : Type} (env : Env) (driver : Driver Db).

Ltac drive_legacy :=
  repeat (match goal with
          | |- context [drv_query ?d ?p ?s ?x] =>
              destruct (drv_query d p s x) as [[?|?] ?]
          | |- context [drv_connect ?d ?p ?x] =>
              destruct (drv_connect d p x) as [[?|] ?]
          | |- context [drv_end ?d ?p ?x] =>
              destruct (drv_end d p x) as [[?|] ?]
          | |- context [TableQuery.database_missing ?e] =>
              destruct (TableQuery.database_missing e)
          end; cbn -[TableQuery.database_missing app]).

Lemma legacy_get_response_frame (sql : string) (st : @TableQuery.Run Db) :
  TableQuery.self (snd (LegacyRun.get_response env driver sql st))
  = TableQuery.set_conection
      (TableQuery.conection
         (TableQuery.self (snd (LegacyRun.get_response env driver sql st))))
      (TableQuery.self st).
Proof.
  unfold LegacyRun.get_response, LegacyRun.connect_and_query, LegacyRun.lbind,
    LegacyRun.on_world, LegacyRun.assign, LegacyRun.database_missing,
    world_query, world_end, world_connect.
  destruct st as [b w]; cbn [TableQuery.self TableQuery.world fst snd].
  destruct (TableQuery.conection b) as [pool|] eqn:Hpool;
    cbn -[TableQuery.database_missing app].
  - drive_legacy;
      first [ destruct b; cbn in Hpool |- *; now subst | now destruct b ].
  - destruct b; cbn in Hpool |- *; now subst.
Qed.

Lemma legacy_first_conditions (st : @TableQuery.Run Db) :
  TableQuery.conditions (TableQuery.self (snd (LegacyRun.first env driver st)))
  = TableQuery.conditions (TableQuery.self st).
Proof.
  unfold LegacyRun.first.
  destruct (Legacy.buildQuery true (TableQuery.self st)) as [e|sqlQuery];
    [reflexivity|].
  pose proof (legacy_get_response_frame sqlQuery st) as H.
  destruct (LegacyRun.get_response env driver sqlQuery st) as [[f|rows] st'];
    cbn [snd] in *; now rewrite H.
Qed.

Lemma legacy_get_response_conditions (sql : string) (st : @TableQuery.Run Db) :
  TableQuery.conditions
    (TableQuery.self (snd (LegacyRun.get_response env driver sql st)))
  = TableQuery.conditions (TableQuery.self st).
Proof. now rewrite legacy_get_response_frame. Qed.

Lemma repeat_snoc {A : Type} (x : A) (k : nat) :
  (repeat x k ++ [x])%list = repeat x (S k).
Proof.
  induction k as [|k IH]; [reflexivity|].
  cbn [repeat app]. now rewrite IH.
Qed.

Lemma legacy_insert_rows_conditions (items : list Js.value) :
  forall (results : list Js.value) (st : @TableQuery.Run Db),
    exists k,
      k <= List.length items
      /\ map Calls.node_data
           (TableQuery.conditions
              (TableQuery.self
                 (snd (LegacyRun.insert_rows env driver items results st))))
         = (map Calls.node_data (TableQuery.conditions (TableQuery.self st))
              ++ repeat LegacyRun.lookup_data k)%list
      /\ match fst (LegacyRun.insert_rows env driver items results st) with
         | inr all =>
             k = List.length items
             /\ List.length all = List.length results + List.length items
         | inl _ => True
         end.
Proof.
  induction items as [|row rest IH]; intros results st.
  - exists 0. cbn. rewrite app_nil_r. repeat split; lia.
  - cbn [LegacyRun.insert_rows].
    destruct (LegacyRun.insert_sql _ row) as [e|sqlQuery].
    { exists 0. cbn. rewrite app_nil_r. repeat split; lia. }
    pose proof (legacy_get_response_conditions sqlQuery st) as Hget.
    destruct (LegacyRun.get_response env driver sqlQuery st) as [[f|rows] st1];
      cbn [snd] in Hget.
    { exists 0. cbn [fst snd repeat]. rewrite app_nil_r, Hget.
      repeat split; lia. }
    cbv zeta.
    match goal with
    | |- context [LegacyRun.first env driver ?s] =>
        pose proof (legacy_first_conditions s) as Hfirst;
        destruct (LegacyRun.first env driver s) as [[f|insertedRow] st3]
    end; cbn [snd TableQuery.self] in Hfirst.
    + exists 1. cbn [fst snd]. split; [simpl; lia|]. split; [|exact I].
      rewrite Hfirst. unfold LegacyRun.where_. rewrite push_conditions, map_app, Hget.
      reflexivity.
    + destruct (IH (results ++ [insertedRow])%list st3) as (k & Hk & Hconds & Hout).
      exists (S k). split; [simpl; lia|]. split.
      * rewrite Hconds, Hfirst. unfold LegacyRun.where_.
        rewrite push_conditions, map_app, Hget, <- app_assoc.
        reflexivity.
      * destruct (fst (LegacyRun.insert_rows env driver rest
                         (results ++ [insertedRow]) st3)) as [f|all];
          [exact I|].
        destruct Hout as [Hk' Hlen]. split; [simpl; lia|].
        rewrite Hlen, length_app. simpl. lia.
Qed.

(** X26. [insert] of the JavaScript builder looks every inserted row up
    through [where('id', '=', 0)] on the builder itself: whatever the
    outcome, the builder ends with [k] more conditions [id = 0], one per
    row that was looked up, in addition to those it had; when the call
    succeeds [k] is the number of rows and there is one result per
    row. *)
Theorem legacy_insert_stacks_lookups :
  forall (items : list Js.value) (st : @TableQuery.Run Db),
    exists k,
      k <= List.length items
      /\ map Calls.node_data
           (TableQuery.conditions
              (TableQuery.self
                 (snd (LegacyRun.insert env driver (Js.VArr items) st))))
         = (map Calls.node_data (TableQuery.conditions (TableQuery.self st))
              ++ repeat LegacyRun.lookup_data k)%list
      /\ forall results,
           fst (LegacyRun.insert env driver (Js.VArr items) st) = inr results ->
           k = List.length items /\ List.length results = List.length items.
Proof.
  intros items st. unfold LegacyRun.insert.
  destruct (forallb TableQuery.is_object items).
  - destruct (legacy_insert_rows_conditions items [] st) as (k & Hk & Hc & Hout).
    exists k. split; [exact Hk|].
    destruct (LegacyRun.insert_rows env driver items [] st) as [[f|all] st'];
      cbn [fst snd] in *.
    + split; [exact Hc | discriminate].
    + split; [exact Hc|]. intros results H. inversion H; subst. exact Hout.
  - exists 0. cbn [snd fst repeat]. rewrite app_nil_r.
    split; [lia|]. split; [reflexivity | discriminate].
Qed.

End LegacyInsert.

Example legacy_insert_two_rows :
  sent (TableQuery.world (snd
    (LegacyRun.insert Demo.env Demo.driver
       (Js.VArr [Js.VObj [("name", Js.VStr "Alice")];
                 Js.VObj [("name", Js.VStr "Bob")]])
       (Demo.run Demo.users))))
  = ["INSERT INTO users (name) VALUES ('Alice')";
     "SELECT * FROM " ++ dq ++ "users" ++ dq ++ " WHERE id = 0";
     "INSERT INTO users (name) VALUES ('Bob')";
     "SELECT * FROM " ++ dq ++ "users" ++ dq ++ " WHERE id = 0 AND id = 0"].
Proof. reflexivity. Qed.

(** ** The environment check *)

Lemma includes_prefix (s p : string) :
  String.prefix p s = true -> CheckEnv.includes s p = true.
Proof. intro H. destruct s; cbn [CheckEnv.includes]; now rewrite H. Qed.

Lemma includes_app_l (s t p : string) :
  CheckEnv.includes s p = true -> CheckEnv.includes (s ++ t) p = true.
Proof.
  induction s as [|c s IH]; cbn [CheckEnv.includes append].
  - rewrite orb_false_r. intro H. apply includes_prefix.
    now apply (prefix_append_assoc p "" t).
  - intro H. apply orb_prop in H. destruct H as [H|H].
    + pose proof (prefix_append_assoc p (String c s) t H) as H'.
      cbn [append] in H'. now rewrite H'.
    + rewrite (IH H). now rewrite orb_true_r.
Qed.

Lemma includes_app_r (s t p : string) :
  CheckEnv.includes t p = true -> CheckEnv.includes (s ++ t) p = true.
Proof.
  intro H. induction s as [|c s IH]; [exact H|].
  cbn [CheckEnv.includes append]. rewrite IH. now rewrite orb_true_r.
Qed.

Lemma prefix_first_char (c : ascii) (p' : string) (d : ascii) (s : string) :
  String.prefix (String c p') (String d s) = true -> c = d.
Proof. cbn. destruct (ascii_dec c d); [auto | discriminate]. Qed.

Lemma includes_trimStart (s : string) (c : ascii) (p' : string) :
  Js.is_space c = false ->
  CheckEnv.includes s (String c p') = true ->
  CheckEnv.includes (Js.trimStart s) (String c p') = true.
Proof.
  intro Hc. induction s as [|d s IH]; [auto|].
  intro H. cbn [Js.trimStart].
  destruct (Js.is_space d) eqn:Hd; [|exact H].
  apply IH. cbn [CheckEnv.includes] in H. apply orb_prop in H.
  destruct H as [H|H]; [|exact H].
  apply prefix_first_char in H. congruence.
Qed.

Lemma prefix_trimEnd (p s : string) (last : ascii) :
  Js.is_space last = false ->
  forall middle,
    p = middle ++ String last EmptyString ->
    String.prefix p s = true -> String.prefix p (Js.trimEnd s) = true.
Proof.
  intros Hlast. revert p.
  induction s as [|d s IH]; intros p middle Hp Hpre.
  - destruct p; [|discriminate].
    destruct middle; discriminate.
  - destruct middle as [|m middle']; cbn [append] in Hp; subst p.
    + pose proof (prefix_first_char _ _ _ _ Hpre) as <-.
      cbn [Js.trimEnd]. destruct (Js.trimEnd s); [rewrite Hlast|];
        cbn; destruct (ascii_dec last last); congruence.
    + pose proof (prefix_first_char _ _ _ _ Hpre) as <-.
      assert (Hrest : String.prefix (middle' ++ String last "") s = true).
      { cbn in Hpre. now destruct (ascii_dec m m). }
      specialize (IH _ middle' eq_refl Hrest).
      cbn [Js.trimEnd].
      destruct (Js.trimEnd s) as [|k kept] eqn:Hk.
      * destruct middle'; discriminate.
      * cbn. destruct (ascii_dec m m); [exact IH | congruence].
Qed.

Lemma includes_nonempty (s p : string) :
  p <> "" -> CheckEnv.includes s p = true -> s <> "".
Proof.
  intros Hp H ->. cbn in H. destruct p; [congruence | discriminate].
Qed.

Lemma includes_trimEnd (s p : string) (last : ascii) (middle : string) :
  Js.is_space last = false ->
  p = middle ++ String last EmptyString ->
  CheckEnv.includes s p = true ->
  CheckEnv.includes (Js.trimEnd s) p = true.
Proof.
  intros Hlast Hp. induction s as [|d s IH]; [auto|].
  intro H. cbn [CheckEnv.includes] in H. apply orb_prop in H.
  destruct H as [H|H].
  - apply includes_prefix. now apply (prefix_trimEnd p _ last Hlast middle).
  - specialize (IH H).
    assert (Hne : Js.trimEnd s <> "").
    { apply (includes_nonempty _ p); [|exact IH].
      rewrite Hp. destruct middle; discriminate. }
    cbn [Js.trimEnd]. destruct (Js.trimEnd s) as [|k kept]; [congruence|].
    apply (includes_app_r (String d EmptyString) (String k kept) p IH).
Qed.

Lemma includes_trim (s p : string) :
  CheckEnv.solid p -> CheckEnv.includes s p = true ->
  CheckEnv.includes (Js.trim s) p = true.
Proof.
  intros (first & middle & last & Hp & Hf & Hl) H. unfold Js.trim.
  apply (includes_trimEnd _ p last (String first middle) Hl Hp).
  rewrite Hp in *. now apply includes_trimStart.
Qed.

Lemma trimEnd_idempotent (s : string) : Js.trimEnd (Js.trimEnd s) = Js.trimEnd s.
Proof.
  induction s as [|c s IH]; [reflexivity|].
  cbn [Js.trimEnd]. destruct (Js.trimEnd s) as [|k kept] eqn:Hk.
  - destruct (Js.is_space c) eqn:Hc; [reflexivity|].
    cbn [Js.trimEnd]. now rewrite Hc.
  - change (Js.trimEnd (String c (String k kept)))
      with (match Js.trimEnd (String k kept) with
            | EmptyString =>
                if Js.is_space c then EmptyString else String c EmptyString
            | String k' kept' => String c (String k' kept')
            end).
    now rewrite IH.
Qed.

Lemma trimStart_fixed (c : ascii) (s : string) :
  Js.is_space c = false -> Js.trimStart (String c s) = String c s.
Proof. intro H. cbn. now rewrite H. Qed.

Lemma trimStart_shape (s : string) :
  Js.trimStart s = ""
  \/ exists c rest, Js.trimStart s = String c rest /\ Js.is_space c = false.
Proof.
  induction s as [|c s IH]; [now left|].
  cbn [Js.trimStart]. destruct (Js.is_space c) eqn:Hc; [exact IH|].
  right. eauto.
Qed.

Lemma trim_idempotent (s : string) : Js.trim (Js.trim s) = Js.trim s.
Proof.
  unfold Js.trim.
  destruct (trimStart_shape s) as [-> | (c & rest & -> & Hc)]; [reflexivity|].
  assert (Hfix : Js.trimStart (Js.trimEnd (String c rest)) = Js.trimEnd (String c rest)).
  { cbn [Js.trimEnd]. destruct (Js.trimEnd rest); rewrite ?Hc;
      now apply trimStart_fixed. }
  rewrite Hfix. apply trimEnd_idempotent.
Qed.

Lemma required_names_solid (var : string * string) :
  In var CheckEnv.requiredEnvVars -> CheckEnv.solid (fst var ++ "=").
Proof.
  intro H. cbn in H.
  destruct H as [<-|[<-|[<-|[<-|[<-|[]]]]]]; unfold CheckEnv.solid; cbn [fst].
  - exists "M"%char, "YSQL_DATABASE", "="%char. repeat split.
  - exists "M"%char, "YSQL_USER", "="%char. repeat split.
  - exists "M"%char, "YSQL_PASSWORD", "="%char. repeat split.
  - exists "M"%char, "YSQL_HOST", "="%char. repeat split.
  - exists "M"%char, "YSQL_PORT", "="%char. repeat split.
Qed.

Lemma add_missing_grows (content : string) (var : string * string) (p : string) :
  CheckEnv.includes content p = true ->
  CheckEnv.includes (CheckEnv.add_missing content var) p = true.
Proof.
  intro H. unfold CheckEnv.add_missing.
  destruct (negb _); [now apply includes_app_l | exact H].
Qed.

Lemma add_missing_mentions (content : string) (var : string * string) :
  CheckEnv.includes (CheckEnv.add_missing content var) (fst var ++ "=") = true.
Proof.
  unfold CheckEnv.add_missing.
  destruct (CheckEnv.includes content (fst var ++ "=")) eqn:H; cbn [negb];
    [exact H|].
  apply includes_app_r, includes_app_r.
  rewrite <- append_assoc. apply includes_prefix, prefix_append.
Qed.

Lemma fold_add_missing_grows (vars : list (string * string)) :
  forall content p,
    CheckEnv.includes content p = true ->
    CheckEnv.includes (fold_left CheckEnv.add_missing vars content) p = true.
Proof.
  induction vars as [|v vs IH]; intros content p H; [exact H|].
  cbn [fold_left]. apply IH. now apply add_missing_grows.
Qed.

Lemma fold_add_missing_mentions (vars : list (string * string)) :
  forall content var,
    In var vars ->
    CheckEnv.includes (fold_left CheckEnv.add_missing vars content)
      (fst var ++ "=") = true.
Proof.
  induction vars as [|v vs IH]; intros content var Hin; [contradiction|].
  cbn [fold_left]. destruct Hin as [<- | Hin].
  - apply fold_add_missing_grows, add_missing_mentions.
  - now apply IH.
Qed.

Lemma fold_add_missing_fixed (vars : list (string * string)) (content : string) :
  (forall var, In var vars ->
     CheckEnv.includes content (fst var ++ "=") = true) ->
  fold_left CheckEnv.add_missing vars content = content.
Proof.
  induction vars as [|v vs IH]; intro H; [reflexivity|].
  cbn [fold_left]. unfold CheckEnv.add_missing at 2.
  rewrite (H v (or_introl eq_refl)). cbn [negb].
  apply IH. intros var Hin. apply H. now right.
Qed.

Lemma check_env_written (env : string -> option string) (file : option string)
  (content : string) :
  CheckEnv.checkEnvVariables env file = CheckEnv.Written content ->
  (forall var, In var CheckEnv.requiredEnvVars ->
     CheckEnv.unset env (fst var) = true ->
     CheckEnv.includes content (fst var ++ "=") = true)
  /\ Js.trim content = content.
Proof.
  unfold CheckEnv.checkEnvVariables. cbv zeta.
  set (missingVars := filter _ CheckEnv.requiredEnvVars).
  assert (Hmissing : forall var, In var CheckEnv.requiredEnvVars ->
            CheckEnv.unset env (fst var) = true -> In var missingVars).
  { intros var Hin Hunset. apply filter_In. now split. }
  clearbody missingVars.
  destruct (0 <? List.length missingVars)%nat; [|discriminate].
  intro H. injection H as <-. split.
  - intros var Hin Hunset. apply includes_trim.
    + now apply required_names_solid.
    + apply fold_add_missing_mentions. now apply Hmissing.
  - apply trim_idempotent.
Qed.

Lemma filter_nonempty {A : Type} (f : A -> bool) (l : list A) (x : A) :
  In x l -> f x = true -> (0 <? List.length (filter f l))%nat = true.
Proof.
  intros Hin Hf.
  assert (H : In x (filter f l)) by (apply filter_In; now split).
  destruct (filter f l); [contradiction | reflexivity].
Qed.

(** X27. The environment check writes nothing when the five variables
    are set and not empty.  As soon as one of them is missing it writes
    a text, and the text it writes names every missing variable followed
    by [=] and neither starts nor ends with white space. *)
Theorem check_env_mentions_missing :
  forall (env : string -> option string) (file : option string),
    ((forall var, In var CheckEnv.requiredEnvVars ->
        CheckEnv.unset env (fst var) = false) ->
     CheckEnv.checkEnvVariables env file = CheckEnv.AllConfigured)
    /\ (forall missing,
          In missing CheckEnv.requiredEnvVars ->
          CheckEnv.unset env (fst missing) = true ->
          exists content,
            CheckEnv.checkEnvVariables env file = CheckEnv.Written content)
    /\ forall content,
         CheckEnv.checkEnvVariables env file = CheckEnv.Written content ->
         (forall var, In var CheckEnv.requiredEnvVars ->
            CheckEnv.unset env (fst var) = true ->
            CheckEnv.includes content (fst var ++ "=") = true)
         /\ Js.trim content = content.
Proof.
  intros env file. split; [|split; [|intro content; apply check_env_written]].
  - unfold CheckEnv.checkEnvVariables. intro Hset.
    assert (Hnone : filter (fun var => CheckEnv.unset env (fst var))
                      CheckEnv.requiredEnvVars = []).
    { generalize Hset. generalize CheckEnv.requiredEnvVars.
      induction l as [|v vs IH]; intro H; [reflexivity|].
      cbn [filter]. rewrite (H v (or_introl eq_refl)).
      apply IH. intros var Hin. apply H. now right. }
    now rewrite Hnone.
  - intros missing Hin Hunset. unfold CheckEnv.checkEnvVariables. cbv zeta.
    rewrite (filter_nonempty (fun var => CheckEnv.unset env (fst var))
               _ missing Hin Hunset).
    eexists; reflexivity.
Qed.

Lemma check_env_mentions_missing_witness :
  CheckEnv.checkEnvVariables CheckEnv.nothing_set (Some "MYSQL_USER=me")
  = CheckEnv.Written
      ("MYSQL_USER=me" ++ CheckEnv.lf ++ "MYSQL_DATABASE=database"
       ++ CheckEnv.lf ++ "MYSQL_PASSWORD=password"
       ++ CheckEnv.lf ++ "MYSQL_HOST=localhost"
       ++ CheckEnv.lf ++ "MYSQL_PORT=3306")
  /\ CheckEnv.includes
       ("MYSQL_USER=me" ++ CheckEnv.lf ++ "MYSQL_DATABASE=database"
        ++ CheckEnv.lf ++ "MYSQL_PASSWORD=password"
        ++ CheckEnv.lf ++ "MYSQL_HOST=localhost"
        ++ CheckEnv.lf ++ "MYSQL_PORT=3306") "MYSQL_PORT=" = true.
Proof.
  split; [reflexivity|].
  refine (proj1 (proj2 (proj2 (check_env_mentions_missing CheckEnv.nothing_set
                                 (Some "MYSQL_USER=me"))) _ eq_refl)
            ("MYSQL_PORT", "3306") _ eq_refl).
  cbn. tauto.
Defined.

(** X28. A missing variable whose name followed by [=] already occurs
    somewhere in the file is not added: when that holds for every
    missing variable the check writes the file back trimmed.  So the
    check applied to the text it wrote, with the variables still
    missing from the process environment, writes that text again. *)
Theorem check_env_adds_nothing_twice :
  forall (env : string -> option string),
    (forall text missing,
       In missing CheckEnv.requiredEnvVars ->
       CheckEnv.unset env (fst missing) = true ->
       (forall var, In var CheckEnv.requiredEnvVars ->
          CheckEnv.unset env (fst var) = true ->
          CheckEnv.includes text (fst var ++ "=") = true) ->
       CheckEnv.checkEnvVariables env (Some text)
       = CheckEnv.Written (Js.trim text))
    /\ forall file content,
         CheckEnv.checkEnvVariables env file = CheckEnv.Written content ->
         CheckEnv.checkEnvVariables env (Some content) = CheckEnv.Written content.
Proof.
  intro env.
  assert (Hfixed : forall text,
            (forall var, In var CheckEnv.requiredEnvVars ->
               CheckEnv.unset env (fst var) = true ->
               CheckEnv.includes text (fst var ++ "=") = true) ->
            fold_left CheckEnv.add_missing
              (filter (fun var => CheckEnv.unset env (fst var))
                 CheckEnv.requiredEnvVars) text = text).
  { intros text Hall. apply fold_add_missing_fixed.
    intros var Hin. apply filter_In in Hin. destruct Hin as [Hin Hunset].
    now apply Hall. }
  split.
  - intros text missing Hin Hunset Hall.
    unfold CheckEnv.checkEnvVariables. cbv zeta.
    rewrite (filter_nonempty (fun var => CheckEnv.unset env (fst var))
               _ missing Hin Hunset).
    now rewrite (Hfixed text Hall).
  - intros file content Hfirst.
    destruct (check_env_written env file content Hfirst) as [Hall Htrim].
    specialize (Hfixed content Hall).
    unfold CheckEnv.checkEnvVariables in *. cbv zeta in *.
    set (missingVars := filter _ CheckEnv.requiredEnvVars) in *.
    clearbody missingVars.
    destruct (0 <? List.length missingVars)%nat; [|discriminate].
    now rewrite Hfixed, Htrim.
Qed.

Lemma check_env_adds_nothing_twice_witness :
  CheckEnv.checkEnvVariables
    (fun name => if String.eqb name "MYSQL_PORT" then None else Some "set")
    (Some " # MYSQL_PORT=5432 ")
  = CheckEnv.Written "# MYSQL_PORT=5432".
Proof.
  refine (proj1 (check_env_adds_nothing_twice
                   (fun name =>
                      if String.eqb name "MYSQL_PORT" then None else Some "set"))
            " # MYSQL_PORT=5432 " ("MYSQL_PORT", "3306") _ eq_refl _).
  - cbn. tauto.
  - intros var Hin. cbn in Hin.
    destruct Hin as [<-|[<-|[<-|[<-|[<-|[]]]]]]; intro H;
      solve [discriminate H | reflexivity].
Defined.
